(** * lazylinear: the view state of the terminal dashboard, verified

    A shallow embedding of the parts of [internal/api/client.go] and
    [internal/ui/ui.go] that decide what the dashboard shows: the status
    sort done at fetch time, the filter that derives [issues] from
    [allIssues], the keyboard handlers that change the [UI] struct, and the
    initials printed in the issue list.

    Conventions.
    - A Go [string] is a sequence of bytes: Rocq's [string] (a list of
      8-bit [ascii]).
    - A Go [int] is a 64-bit two's complement integer: a [Z] with the
      wrap-around of [++] and [--] written out ([wrap]).
    - A handler [func (ui *UI) h(g, v) error] is a computation in the monad
      [M]: it reads and writes the [UI] struct, returns an [error], and may
      stop with a run-time panic (index out of range, nil dereference).
    - The remote service, the process table and the two table-driven
      functions of Go's Unicode support are the environment: they are taken
      as parameters, never assumed to behave in any particular way. *)

From Stdlib Require Import ZArith List Bool Ascii String Lia Permutation Sorted.
Import ListNotations.
Local Open Scope string_scope.
Local Open Scope list_scope.
Local Open Scope Z_scope.

Set Implicit Arguments.

(* ================================================================= *)
(** * Go values *)

(** [error]: [nil], or a value whose [Error()] text is the string. *)
Definition error : Type := option string.

Definition MaxInt : Z := 9223372036854775807.

(** 64-bit signed wrap-around of an exact integer result. *)
Definition wrap (z : Z) : Z := (z + 2 ^ 63) mod 2 ^ 64 - 2 ^ 63.

(** [len(s)] of a slice. *)
Definition len {A : Type} (l : list A) : Z := Z.of_nat (List.length l).

(** [s[i]] on a slice: [None] is the index-out-of-range panic. *)
Definition index {A : Type} (l : list A) (i : Z) : option A :=
  if i <? 0 then None else nth_error l (Z.to_nat i).

(** The value of a byte, and the byte of a value below 256. *)
Definition byteZ (c : ascii) : Z := Z.of_N (N_of_ascii c).
Definition byteOf (z : Z) : ascii := ascii_of_N (Z.to_N z).

(** A string given by the values of its bytes. *)
Fixpoint bytes (l : list Z) : string :=
  match l with
  | [] => EmptyString
  | z :: l' => String (byteOf z) (bytes l')
  end.

(** [s[i]] on a string: the byte at offset [i], or a panic. *)
Definition byteAt (s : string) (i : Z) : option ascii :=
  if i <? 0 then None else String.get (Z.to_nat i) s.

(** [len(s)] of a string, in bytes. *)
Definition slen (s : string) : Z := Z.of_nat (String.length s).

(** The conversion [string(b)] of a byte [b]: the UTF-8 encoding of the
    code point whose number is [b].  Bytes below 0x80 stay one byte; the
    others become two. *)
Definition stringOfByte (b : ascii) : string :=
  let z := byteZ b in
  if z <? 128 then String b EmptyString
  else bytes [Z.lor 192 (Z.shiftr z 6); Z.lor 128 (Z.land z 63)].

(* ================================================================= *)
(** * Package [unicode/utf8] and [unicode] *)

Module utf8.

Definition RuneSelf : Z := 128.
Definition RuneError : Z := 65533.

Definition isCont (c : ascii) : bool :=
  (128 <=? byteZ c) && (byteZ c <=? 191).

(** The range accepted for the second byte, by the first byte. *)
Definition acceptRange (b0 : Z) : Z * Z :=
  if b0 =? 224 then (160, 191)
  else if b0 =? 237 then (128, 159)
  else if b0 =? 240 then (144, 191)
  else if b0 =? 244 then (128, 143)
  else (128, 191).

(** [DecodeRuneInString]: the first rune of [s] and its width in
    bytes.  Ill-formed input gives [(RuneError, 1)]. *)
Definition DecodeRuneInString (s : string) : Z * nat :=
  match s with
  | EmptyString => (RuneError, 0%nat)
  | String c0 s1 =>
    let b0 := byteZ c0 in
    if b0 <? RuneSelf then (b0, 1%nat)
    else if (b0 <? 194) || (244 <? b0) then (RuneError, 1%nat)
    else
      match s1 with
      | EmptyString => (RuneError, 1%nat)
      | String c1 s2 =>
        let b1 := byteZ c1 in
        let '(lo, hi) := acceptRange b0 in
        if (b1 <? lo) || (hi <? b1) then (RuneError, 1%nat)
        else if b0 <? 224 then
          (Z.lor (Z.shiftl (Z.land b0 31) 6) (Z.land b1 63), 2%nat)
        else
          match s2 with
          | EmptyString => (RuneError, 1%nat)
          | String c2 s3 =>
            let b2 := byteZ c2 in
            if negb (isCont c2) then (RuneError, 1%nat)
            else if b0 <? 240 then
              (Z.lor (Z.shiftl (Z.land b0 15) 12)
                 (Z.lor (Z.shiftl (Z.land b1 63) 6) (Z.land b2 63)), 3%nat)
            else
              match s3 with
              | EmptyString => (RuneError, 1%nat)
              | String c3 _ =>
                let b3 := byteZ c3 in
                if negb (isCont c3) then (RuneError, 1%nat)
                else
                  (Z.lor (Z.shiftl (Z.land b0 7) 18)
                     (Z.lor (Z.shiftl (Z.land b1 63) 12)
                        (Z.lor (Z.shiftl (Z.land b2 63) 6) (Z.land b3 63))),
                   4%nat)
              end
          end
      end
  end.

End utf8.

Module unicode.

(** [IsSpace]: the Latin-1 spaces, then the White_Space table. *)
Definition IsSpace (r : Z) : bool :=
  if (0 <=? r) && (r <=? 255) then
    (r =? 9) || (r =? 10) || (r =? 11) || (r =? 12) || (r =? 13)
    || (r =? 32) || (r =? 133) || (r =? 160)
  else
    (r =? 5760) || ((8192 <=? r) && (r <=? 8202)) || (r =? 8232)
    || (r =? 8233) || (r =? 8239) || (r =? 8287) || (r =? 12288).

End unicode.

(* ================================================================= *)
(** * Package [strings] *)

Module strings.

(** The two functions of the package that need the Unicode case and
    trimming machinery are taken from the environment.  [MapToLower s]
    is [Map(unicode.ToLower, s)], reached by [ToLower] on input that is
    not pure ASCII. *)
Class Tables : Type := {
  MapToLower : string -> string;
  TrimSpace : string -> string
}.

Definition asciiSpace (c : ascii) : bool :=
  let z := byteZ c in
  (z =? 9) || (z =? 10) || (z =? 11) || (z =? 12) || (z =? 13) || (z =? 32).

Fixpoint isASCII (s : string) : bool :=
  match s with
  | EmptyString => true
  | String c s' => (byteZ c <? utf8.RuneSelf) && isASCII s'
  end.

Definition isUpper (c : ascii) : bool :=
  (65 <=? byteZ c) && (byteZ c <=? 90).

Fixpoint hasUpper (s : string) : bool :=
  match s with
  | EmptyString => false
  | String c s' => isUpper c || hasUpper s'
  end.

Definition lowerByte (c : ascii) : ascii :=
  if isUpper c then byteOf (byteZ c + 32) else c.

Fixpoint mapBytes (f : ascii -> ascii) (s : string) : string :=
  match s with
  | EmptyString => EmptyString
  | String c s' => String (f c) (mapBytes f s')
  end.

(** [ToLower]: ASCII input is lowered byte by byte (and returned as it
    is when it has no upper-case letter); anything else goes through
    the Unicode tables. *)
Definition ToLower `{Tables} (s : string) : string :=
  if isASCII s then
    if negb (hasUpper s) then s else mapBytes lowerByte s
  else MapToLower s.

Fixpoint HasPrefix (s prefix : string) {struct prefix} : bool :=
  match prefix, s with
  | EmptyString, _ => true
  | String _ _, EmptyString => false
  | String p prefix', String c s' => Ascii.eqb c p && HasPrefix s' prefix'
  end.

(** [Contains(s, substr)]: [substr] occurs in [s] at some byte offset. *)
Fixpoint Contains (s substr : string) : bool :=
  HasPrefix s substr
  || match s with
     | EmptyString => false
     | String _ s' => Contains s' substr
     end.

(** The field under construction is closed and emitted. *)
Definition flush (cur : option string) : list string :=
  match cur with
  | None => []
  | Some t => [t]
  end.

Definition extend (cur : option string) (chunk : string) : option string :=
  match cur with
  | None => Some chunk
  | Some t => Some (String.append t chunk)
  end.

(** The ASCII path of [Fields]: fields are the maximal runs of bytes
    that are not ASCII space. *)
Fixpoint fieldsASCII (s : string) (cur : option string) : list string :=
  match s with
  | EmptyString => flush cur
  | String c s' =>
    if asciiSpace c then flush cur ++ fieldsASCII s' None
    else fieldsASCII s' (extend cur (String c EmptyString))
  end.

Fixpoint takeS (n : nat) (s : string) : string :=
  match n, s with
  | S n', String c s' => String c (takeS n' s')
  | _, _ => EmptyString
  end.

Fixpoint dropS (n : nat) (s : string) : string :=
  match n, s with
  | S n', String _ s' => dropS n' s'
  | _, _ => s
  end.

(** [FieldsFunc(s, f)]: the loop [for end, rune := range s] over the
    runes of [s]; a field is a maximal run of runes on which [f] is
    false.  Every iteration consumes at least one byte, so [fuel] equal
    to the length of [s] is never exhausted before [s] is. *)
Fixpoint fieldsLoop (f : Z -> bool) (fuel : nat) (s : string)
         (cur : option string) : list string :=
  match fuel with
  | O => flush cur
  | S fuel' =>
    match s with
    | EmptyString => flush cur
    | String _ _ =>
      let '(r, size) := utf8.DecodeRuneInString s in
      if f r then flush cur ++ fieldsLoop f fuel' (dropS size s) None
      else fieldsLoop f fuel' (dropS size s) (extend cur (takeS size s))
    end
  end.

Definition FieldsFunc (s : string) (f : Z -> bool) : list string :=
  fieldsLoop f (String.length s) s None.

(** [Fields]: the ASCII path when every byte is below [RuneSelf],
    [FieldsFunc(s, unicode.IsSpace)] otherwise. *)
Definition Fields (s : string) : list string :=
  if isASCII s then fieldsASCII s None
  else FieldsFunc s unicode.IsSpace.

(** An instance of the tables for evaluation on ASCII data: there
    [MapToLower] is never reached, and [TrimSpace] removes the ASCII
    spaces at both ends. *)
Fixpoint trimLeftASCII (s : string) : string :=
  match s with
  | EmptyString => EmptyString
  | String c s' => if asciiSpace c then trimLeftASCII s' else s
  end.

Fixpoint trimRightASCII (s : string) : string :=
  match s with
  | EmptyString => EmptyString
  | String c s' =>
    match trimRightASCII s' with
    | EmptyString => if asciiSpace c then EmptyString else String c EmptyString
    | t => String c t
    end
  end.

Definition asciiTables : Tables := {|
  MapToLower := fun s => s;
  TrimSpace := fun s => trimRightASCII (trimLeftASCII s)
|}.

End strings.

(* ================================================================= *)
(** * Package [sort] *)

Module sort.

Section Stable.
Variable A : Type.
Variable less : A -> A -> bool.

(** [x], which stood before every element of [l], is moved right past
    the elements that are strictly less than it, and no further. *)
Fixpoint insert (x : A) (l : list A) : list A :=
  match l with
  | [] => [x]
  | y :: l' => if less y x then y :: insert x l' else x :: y :: l'
  end.

(** [SliceStable(x, less)]: the slice sorted by [less] with equal
    elements kept in their original order.  The library reaches this
    result by insertion sort on blocks and in-place merges; for the
    [less] of [GetIssues] the result is fixed by that contract alone
    (lemma [stable_sort_unique] below), so a stable insertion sort
    stands for it. *)
Fixpoint SliceStable (x : list A) : list A :=
  match x with
  | [] => []
  | a :: x' => insert a (SliceStable x')
  end.
End Stable.

End sort.

(* ================================================================= *)
(** * Package [api] ([internal/api/client.go]) *)

Module api.

Module User.
Record t : Type := { Name : string }.
End User.

Module Comment.
Record t : Type := {
  Body : string;
  CreatedAt : string;
  User : User.t
}.
End Comment.

Module State.
Record t : Type := { Name : string }.
End State.

Module Assignee.
Record t : Type := { ID : string; Name : string }.
End Assignee.

Module Comments.
Record t : Type := { Nodes : list Comment.t }.
End Comments.

Module Issue.
Record t : Type := {
  ID : string;
  Identifier : string;
  Title : string;
  Description : string;
  URL : string;
  BranchName : string;
  State : State.t;
  Assignee : Assignee.t;
  Comments : Comments.t
}.

(** The zero value of the struct. *)
Definition zero : t := {|
  ID := ""; Identifier := ""; Title := ""; Description := "";
  URL := ""; BranchName := "";
  State := {| State.Name := "" |};
  Assignee := {| Assignee.ID := ""; Assignee.Name := "" |};
  Comments := {| Comments.Nodes := [] |}
|}.

(** The composite literal [api.Issue{Title: title}]. *)
Definition withTitle (title : string) : t := {|
  ID := ""; Identifier := ""; Title := title; Description := "";
  URL := ""; BranchName := "";
  State := {| State.Name := "" |};
  Assignee := {| Assignee.ID := ""; Assignee.Name := "" |};
  Comments := {| Comments.Nodes := [] |}
|}.
End Issue.

Module Viewer.
Record t : Type := { ID : string; Name : string }.
End Viewer.

Module Team.
Record t : Type := { ID : string; Name : string; Key : string }.
End Team.

(** The three queries of the client; [IssuesOfTeam] is the text with
    the [$teamID] filter, [IssuesAll] the one without. *)
Inductive Query : Type := ViewerQuery | TeamsQuery | IssuesOfTeam | IssuesAll.

Record Request : Type := {
  query : Query;
  vars : list (string * string);
  header : list (string * string)
}.

(** What [c.client.Run(ctx, req, &resp)] leaves: the decoded payload, or
    an error with its [Error()] text. *)
Inductive RunResult (A : Type) : Type :=
| Decoded (payload : A)
| Failed (err : string).
Arguments Decoded {A} payload.
Arguments Failed {A} err.

(** The remote service as seen through the GraphQL client at the time
    of one call. *)
Record Transport : Type := {
  RunViewer : Request -> RunResult Viewer.t;
  RunTeams : Request -> RunResult (list Team.t);
  RunIssues : Request -> RunResult (list Issue.t)
}.

Record Client : Type := { apiKey : string }.

(** [if c.apiKey != "" { req.Header.Set("Authorization", c.apiKey) }] *)
Definition authHeader (c : Client) : list (string * string) :=
  if String.eqb (apiKey c) "" then [] else [("Authorization", apiKey c)].

Definition GetViewer (net : Transport) (c : Client) : option Viewer.t * error :=
  let req := {| query := ViewerQuery; vars := []; header := authHeader c |} in
  match RunViewer net req with
  | Failed err => (None, Some err)
  | Decoded v => (Some v, None)
  end.

Definition GetTeams (net : Transport) (c : Client) : list Team.t * error :=
  let req := {| query := TeamsQuery; vars := []; header := authHeader c |} in
  match RunTeams net req with
  | Failed err => ([], Some err)
  | Decoded nodes => (nodes, None)
  end.

(** The map literal [stateOrder]. *)
Definition stateOrder : list (string * Z) :=
  [("In Review", 0); ("In Progress", 1); ("Blocked", 2); ("Todo", 3);
   ("Backlog", 4)].

(** [v, ok := m[k]] on a map with string keys: the zero value and
    [false] when the key is missing. *)
Fixpoint mapIndex (m : list (string * Z)) (k : string) : Z * bool :=
  match m with
  | [] => (0, false)
  | (k', v) :: m' => if String.eqb k k' then (v, true) else mapIndex m' k
  end.

(** The [less] closure handed to [sort.SliceStable], on two elements
    of the slice. *)
Definition lessIssue (issueI issueJ : Issue.t) : bool :=
  let '(orderI, okI) := mapIndex stateOrder (State.Name (Issue.State issueI)) in
  let '(orderJ, okJ) := mapIndex stateOrder (State.Name (Issue.State issueJ)) in
  let orderI := if negb okI then 999 else orderI in
  let orderJ := if negb okJ then 999 else orderJ in
  orderI <? orderJ.

Definition issuesRequest (c : Client) (teamID : string) : Request :=
  if String.eqb teamID "" then
    {| query := IssuesAll; vars := []; header := authHeader c |}
  else
    {| query := IssuesOfTeam; vars := [("teamID", teamID)];
       header := authHeader c |}.

(** [GetIssues]: the issues of the team (of every team when [teamID]
    is empty), sorted by status. *)
Definition GetIssues (net : Transport) (c : Client) (teamID : string)
  : list Issue.t * error :=
  match RunIssues net (issuesRequest c teamID) with
  | Failed err => ([], Some err)
  | Decoded nodes => (sort.SliceStable lessIssue nodes, None)
  end.

End api.

(* ================================================================= *)
(** * The process table and the terminal views *)

Module exec.

(** The outcome of each step taken on a command: creating the stdin
    pipe, starting the process, writing to the pipe, closing it and
    waiting for the exit. *)
Record Proc : Type := {
  StdinPipe : error;
  Start : error;
  Write : error;
  Close : error;
  Wait : error
}.

(** The operating system as seen by [os/exec]: whether a program is on
    the search path, and how a command line behaves when it is fed a
    text. *)
Record OS : Type := {
  LookPath : string -> error;
  Command : list string -> string -> Proc
}.

End exec.

Module gocui.

(** What the handlers read from the view they are called on: its text
    and the cursor position in it. *)
Record View : Type := {
  Buffer : string;
  Cursor : Z * Z
}.

End gocui.

(* ================================================================= *)
(** * Package [ui] ([internal/ui/ui.go]) *)

Module ui.

Import api.

(** The [UI] struct.  The [gui] field, a handle on the terminal
    library, is left out: the handlers below only pass it on to calls
    whose results they ignore (focus changes, clearing the edit view),
    and those act on the terminal, not on this struct. *)
Record UI : Type := {
  client : option Client;
  issues : list Issue.t;
  allIssues : list Issue.t;
  selectedIssue : Z;
  showHelp : bool;
  showSearch : bool;
  searchString : string;
  assignedToMe : bool;
  viewerID : string;
  currentView : Z;
  views : list string;
  teams : list Team.t;
  currentTeam : Z
}.

(** Assignments to the fields that the handlers write. *)
Definition set_issues (x : list Issue.t) (u : UI) : UI :=
  {| client := client u; issues := x; allIssues := allIssues u;
     selectedIssue := selectedIssue u; showHelp := showHelp u;
     showSearch := showSearch u; searchString := searchString u;
     assignedToMe := assignedToMe u; viewerID := viewerID u;
     currentView := currentView u; views := views u; teams := teams u;
     currentTeam := currentTeam u |}.

Definition set_allIssues (x : list Issue.t) (u : UI) : UI :=
  {| client := client u; issues := issues u; allIssues := x;
     selectedIssue := selectedIssue u; showHelp := showHelp u;
     showSearch := showSearch u; searchString := searchString u;
     assignedToMe := assignedToMe u; viewerID := viewerID u;
     currentView := currentView u; views := views u; teams := teams u;
     currentTeam := currentTeam u |}.

Definition set_selectedIssue (x : Z) (u : UI) : UI :=
  {| client := client u; issues := issues u; allIssues := allIssues u;
     selectedIssue := x; showHelp := showHelp u;
     showSearch := showSearch u; searchString := searchString u;
     assignedToMe := assignedToMe u; viewerID := viewerID u;
     currentView := currentView u; views := views u; teams := teams u;
     currentTeam := currentTeam u |}.

Definition set_showHelp (x : bool) (u : UI) : UI :=
  {| client := client u; issues := issues u; allIssues := allIssues u;
     selectedIssue := selectedIssue u; showHelp := x;
     showSearch := showSearch u; searchString := searchString u;
     assignedToMe := assignedToMe u; viewerID := viewerID u;
     currentView := currentView u; views := views u; teams := teams u;
     currentTeam := currentTeam u |}.

Definition set_showSearch (x : bool) (u : UI) : UI :=
  {| client := client u; issues := issues u; allIssues := allIssues u;
     selectedIssue := selectedIssue u; showHelp := showHelp u;
     showSearch := x; searchString := searchString u;
     assignedToMe := assignedToMe u; viewerID := viewerID u;
     currentView := currentView u; views := views u; teams := teams u;
     currentTeam := currentTeam u |}.

Definition set_searchString (x : string) (u : UI) : UI :=
  {| client := client u; issues := issues u; allIssues := allIssues u;
     selectedIssue := selectedIssue u; showHelp := showHelp u;
     showSearch := showSearch u; searchString := x;
     assignedToMe := assignedToMe u; viewerID := viewerID u;
     currentView := currentView u; views := views u; teams := teams u;
     currentTeam := currentTeam u |}.

Definition set_assignedToMe (x : bool) (u : UI) : UI :=
  {| client := client u; issues := issues u; allIssues := allIssues u;
     selectedIssue := selectedIssue u; showHelp := showHelp u;
     showSearch := showSearch u; searchString := searchString u;
     assignedToMe := x; viewerID := viewerID u;
     currentView := currentView u; views := views u; teams := teams u;
     currentTeam := currentTeam u |}.

Definition set_currentView (x : Z) (u : UI) : UI :=
  {| client := client u; issues := issues u; allIssues := allIssues u;
     selectedIssue := selectedIssue u; showHelp := showHelp u;
     showSearch := showSearch u; searchString := searchString u;
     assignedToMe := assignedToMe u; viewerID := viewerID u;
     currentView := x; views := views u; teams := teams u;
     currentTeam := currentTeam u |}.

Definition set_currentTeam (x : Z) (u : UI) : UI :=
  {| client := client u; issues := issues u; allIssues := allIssues u;
     selectedIssue := selectedIssue u; showHelp := showHelp u;
     showSearch := showSearch u; searchString := searchString u;
     assignedToMe := assignedToMe u; viewerID := viewerID u;
     currentView := currentView u; views := views u; teams := teams u;
     currentTeam := x |}.

(** ** The handler monad: state [UI], failure = run-time panic *)

Definition M (A : Type) : Type := UI -> option (A * UI).

Definition ret {A : Type} (a : A) : M A := fun u => Some (a, u).

Definition bind {A B : Type} (c : M A) (k : A -> M B) : M B :=
  fun u =>
    match c u with
    | None => None
    | Some (a, u') => k a u'
    end.

Definition get : M UI := fun u => Some (u, u).

Definition modify (f : UI -> UI) : M unit := fun u => Some (tt, f u).

(** A partial operation of the language (indexing, dereferencing)
    inside a handler. *)
Definition orPanic {A : Type} (o : option A) : M A :=
  fun u =>
    match o with
    | None => None
    | Some a => Some (a, u)
    end.

Notation "x <- c ;; k" := (bind c (fun x => k))
  (at level 61, c at next level, right associativity).
Notation "c ;;; k" := (bind c (fun _ => k))
  (at level 61, right associativity).

Definition obind {A B : Type} (o : option A) (k : A -> option B) : option B :=
  match o with
  | None => None
  | Some a => k a
  end.

Notation "'let?' x := o 'in' k" := (obind o (fun x => k))
  (at level 10, x name, k at level 200).

(** The GUI runtime calls the handler bound to each key in turn and
    leaves its loop at the first error that is not nil. *)
Fixpoint mainLoop (handlers : list (M error)) : M error :=
  match handlers with
  | [] => ret None
  | h :: rest =>
    err <- h ;;
    match err with
    | Some _ => ret err
    | None => mainLoop rest
    end
  end.

Section Handlers.
Context `{strings.Tables}.

(** ** [filterIssues] *)

(** One iteration of the loop over [ui.allIssues]: the three tests
    that [continue], then the [append]. *)
Definition filterStep (u : UI) (currentViewName : string)
           (filtered : list Issue.t) (issue : Issue.t) : list Issue.t :=
  if assignedToMe u
     && negb (String.eqb (Assignee.ID (Issue.Assignee issue)) (viewerID u))
  then filtered
  else if negb (String.eqb currentViewName "All")
          && negb (String.eqb (State.Name (Issue.State issue)) currentViewName)
  then filtered
  else if negb (String.eqb (searchString u) "")
          && negb (strings.Contains (strings.ToLower (Issue.Title issue))
                                    (strings.ToLower (searchString u)))
  then filtered
  else filtered ++ [issue].

Definition filterIssues : M (list Issue.t) :=
  u <- get ;;
  currentViewName <- orPanic (index (views u) (currentView u)) ;;
  ret (fold_left (filterStep u currentViewName) (allIssues u) []).

(** ** Handlers *)

Definition errorPlaceholder (err : string) : Issue.t :=
  Issue.withTitle (String.append "Error loading issues: " err).

Definition refreshIssues (net : Transport) : M error :=
  u <- get ;;
  match client u with
  | Some c =>
    teamID <-
      (if (currentTeam u >=? 0) && (currentTeam u <? len (teams u)) then
         team <- orPanic (index (teams u) (currentTeam u)) ;;
         ret (Team.ID team)
       else ret "") ;;
    match GetIssues net c teamID with
    | (fetchedIssues, None) => modify (set_allIssues fetchedIssues)
    | (_, Some err) => modify (set_allIssues [errorPlaceholder err])
    end
  | None => ret tt
  end ;;;
  filtered <- filterIssues ;;
  modify (set_issues filtered) ;;;
  modify (set_selectedIssue (-1)) ;;;
  ret None.

Definition selectIssue (v : option gocui.View) : M error :=
  view <- orPanic v ;;
  let cy := snd (gocui.Cursor view) in
  u <- get ;;
  (if (cy >=? 0) && (cy <? len (issues u))
   then modify (set_selectedIssue cy)
   else ret tt) ;;;
  ret None.

Definition toggleHelp : M error :=
  u <- get ;;
  modify (set_showHelp (negb (showHelp u))) ;;;
  ret None.

Definition toggleAssigned : M error :=
  u <- get ;;
  modify (set_assignedToMe (negb (assignedToMe u))) ;;;
  filtered <- filterIssues ;;
  modify (set_issues filtered) ;;;
  modify (set_selectedIssue (-1)) ;;;
  ret None.

Definition toggleSearch : M error :=
  u <- get ;;
  modify (set_showSearch (negb (showSearch u))) ;;;
  ret None.

Definition closeSearch (v : option gocui.View) : M error :=
  match v with
  | Some view =>
    modify (set_searchString (strings.TrimSpace (gocui.Buffer view))) ;;;
    filtered <- filterIssues ;;
    modify (set_issues filtered) ;;;
    modify (set_selectedIssue (-1))
  | None => ret tt
  end ;;;
  modify (set_showSearch false) ;;;
  ret None.

(** The view, when there is one, is cleared and its cursor sent
    home: that changes the terminal, not the struct. *)
Definition cancelSearch (v : option gocui.View) : M error :=
  modify (set_searchString "") ;;;
  filtered <- filterIssues ;;
  modify (set_issues filtered) ;;;
  modify (set_selectedIssue (-1)) ;;;
  modify (set_showSearch false) ;;;
  ret None.

Definition prevView : M error :=
  u <- get ;;
  modify (set_currentView (wrap (currentView u - 1))) ;;;
  u <- get ;;
  (if currentView u <? 0
   then modify (set_currentView (len (views u) - 1))
   else ret tt) ;;;
  filtered <- filterIssues ;;
  modify (set_issues filtered) ;;;
  modify (set_selectedIssue (-1)) ;;;
  ret None.

Definition nextView : M error :=
  u <- get ;;
  modify (set_currentView (wrap (currentView u + 1))) ;;;
  u <- get ;;
  (if currentView u >=? len (views u)
   then modify (set_currentView 0)
   else ret tt) ;;;
  filtered <- filterIssues ;;
  modify (set_issues filtered) ;;;
  modify (set_selectedIssue (-1)) ;;;
  ret None.

Definition prevTeam (net : Transport) : M error :=
  u <- get ;;
  if len (teams u) =? 0 then ret None
  else
    modify (set_currentTeam (wrap (currentTeam u - 1))) ;;;
    u <- get ;;
    (if currentTeam u <? 0
     then modify (set_currentTeam (len (teams u) - 1))
     else ret tt) ;;;
    refreshIssues net.

Definition nextTeam (net : Transport) : M error :=
  u <- get ;;
  if len (teams u) =? 0 then ret None
  else
    modify (set_currentTeam (wrap (currentTeam u + 1))) ;;;
    u <- get ;;
    (if currentTeam u >=? len (teams u)
     then modify (set_currentTeam 0)
     else ret tt) ;;;
    refreshIssues net.

End Handlers.

(** ** The clipboard *)

Definition found (e : error) : bool :=
  match e with
  | None => true
  | Some _ => false
  end.

Definition copyToClipboard (os : exec.OS) (text : string) : M error :=
  let cmd :=
    if found (exec.LookPath os "xclip") then ["xclip"; "-selection"; "clipboard"]
    else if found (exec.LookPath os "xsel") then ["xsel"; "--clipboard"; "--input"]
    else if found (exec.LookPath os "wl-copy") then ["wl-copy"]
    else ["pbcopy"] in
  let p := exec.Command os cmd text in
  match exec.StdinPipe p with
  | Some e => ret (Some e)
  | None =>
    match exec.Start p with
    | Some e => ret (Some e)
    | None =>
      match exec.Write p with
      | Some e => ret (Some e)
      | None =>
        match exec.Close p with
        | Some e => ret (Some e)
        | None => ret (exec.Wait p)
        end
      end
    end
  end.

Definition copyURL (os : exec.OS) : M error :=
  u <- get ;;
  if (selectedIssue u >=? 0) && (selectedIssue u <? len (issues u)) then
    issue <- orPanic (index (issues u) (selectedIssue u)) ;;
    if negb (String.eqb (Issue.URL issue) "")
    then copyToClipboard os (Issue.URL issue)
    else ret None
  else ret None.

Definition copyBranch (os : exec.OS) : M error :=
  u <- get ;;
  if (selectedIssue u >=? 0) && (selectedIssue u <? len (issues u)) then
    issue <- orPanic (index (issues u) (selectedIssue u)) ;;
    if negb (String.eqb (Issue.BranchName issue) "")
    then copyToClipboard os (Issue.BranchName issue)
    else ret None
  else ret None.

(** ** The issue list of [layout] *)

(** The body of the loop over [ui.issues] up to the [Fprintf]: the
    initials shown next to the identifier.  [None] is a panic of one
    of the indexings. *)
Definition initials (issue : Issue.t) : option string :=
  let name := Assignee.Name (Issue.Assignee issue) in
  if negb (String.eqb name "") then
    let parts := strings.Fields name in
    if len parts >=? 2 then
      let? p0 := index parts 0 in
      let? p1 := index parts 1 in
      let? b0 := byteAt p0 0 in
      let? b1 := byteAt p1 0 in
      Some (String.append (stringOfByte b0) (stringOfByte b1))
    else if len parts =? 1 then
      let? p0 := index parts 0 in
      if slen p0 >=? 2 then
        let? b0 := byteAt p0 0 in
        let? b1 := byteAt p0 1 in
        Some (String.append (stringOfByte b0) (stringOfByte b1))
      else Some p0
    else Some "--"
  else Some "--".

Definition esc : string := bytes [27].

(** The line printed for one issue. *)
Definition issueLine (issue : Issue.t) : option string :=
  let? ini := initials issue in
  Some (String.concat ""
          [esc; "[32m"; Issue.Identifier issue; esc; "[0m "; esc; "[33m";
           ini; esc; "[0m "; Issue.Title issue; bytes [10]]).

(** ** [NewUI] *)

Definition viewNames : list string :=
  ["All"; "In Review"; "In Progress"; "Blocked"; "Todo"; "Backlog"].

(** The struct built by [NewUI] once the terminal is acquired. *)
Definition NewUI (net : Transport) (cl : option Client) : option UI :=
  let? fetched :=
    match cl with
    | Some c =>
      let teams := match GetTeams net c with
                   | (fetchedTeams, None) => fetchedTeams
                   | (_, Some _) => []
                   end in
      let? teamID :=
        (if len teams >? 0
         then let? t := index teams 0 in Some (Team.ID t)
         else Some "") in
      let '(fetchedIssues, apiErr) := GetIssues net c teamID in
      let viewerID := match GetViewer net c with
                      | (Some viewer, None) => Viewer.ID viewer
                      | _ => ""
                      end in
      Some (teams, viewerID, fetchedIssues, apiErr)
    | None => Some ([], "", [], Some "no client")
    end in
  let '(teams, viewerID, fetchedIssues, apiErr) := fetched in
  let issues := match apiErr with
                | None => fetchedIssues
                | Some err => [errorPlaceholder err]
                end in
  Some {| client := cl; issues := issues; allIssues := issues;
          selectedIssue := -1; showHelp := false; showSearch := false;
          searchString := ""; assignedToMe := false; viewerID := viewerID;
          currentView := 0; views := viewNames; teams := teams;
          currentTeam := 0 |}.

End ui.

(* ================================================================= *)
(** * Vocabulary of the specification *)

(** [l1] is [l2] with some elements left out, the others in the same
    order. *)
Inductive Subsequence {A : Type} : list A -> list A -> Prop :=
| Subsequence_nil : Subsequence [] []
| Subsequence_keep : forall x l1 l2,
    Subsequence l1 l2 -> Subsequence (x :: l1) (x :: l2)
| Subsequence_drop : forall x l1 l2,
    Subsequence l1 l2 -> Subsequence l1 (x :: l2).

(** The rank of a status name in the pipeline. *)
Definition statusRank (name : string) : Z :=
  if String.eqb name "In Review" then 0
  else if String.eqb name "In Progress" then 1
  else if String.eqb name "Blocked" then 2
  else if String.eqb name "Todo" then 3
  else if String.eqb name "Backlog" then 4
  else 999.

Definition issueRank (issue : api.Issue.t) : Z :=
  statusRank (api.State.Name (api.Issue.State issue)).

Definition hasRank (r : Z) (issue : api.Issue.t) : bool :=
  issueRank issue =? r.

(** An issue without assignee: the remote [null] leaves the zero value
    of the field. *)
Definition Unassigned (issue : api.Issue.t) : Prop :=
  api.Issue.Assignee issue
  = {| api.Assignee.ID := ""; api.Assignee.Name := "" |}.

(** The status view shown: the name at [currentView] in [views]. *)
Definition statusViewOf (u : ui.UI) : option string :=
  index (ui.views u) (ui.currentView u).

(** The state of a dashboard in use: the six views of [NewUI] and a
    position among them. *)
Definition ValidView (u : ui.UI) : Prop :=
  ui.views u = ui.viewNames /\ 0 <= ui.currentView u < 6.

(** A roster with a current team in it.  The length of a slice is an
    [int]. *)
Definition ValidTeam (u : ui.UI) : Prop :=
  0 <= ui.currentTeam u < len (ui.teams u) /\ len (ui.teams u) <= MaxInt.

Section FilterVocabulary.
Context `{strings.Tables}.

(** The three filters, as the specification words them. *)
Definition assigneeFilter (u : ui.UI) (issue : api.Issue.t) : Prop :=
  ui.assignedToMe u = true ->
  api.Assignee.ID (api.Issue.Assignee issue) = ui.viewerID u.

Definition statusFilter (statusView : string) (issue : api.Issue.t) : Prop :=
  statusView <> "All" ->
  api.State.Name (api.Issue.State issue) = statusView.

Definition searchFilter (u : ui.UI) (issue : api.Issue.t) : Prop :=
  ui.searchString u <> "" ->
  strings.Contains (strings.ToLower (api.Issue.Title issue))
                   (strings.ToLower (ui.searchString u)) = true.

Definition Passes (u : ui.UI) (statusView : string) (issue : api.Issue.t)
  : Prop :=
  assigneeFilter u issue /\ statusFilter statusView issue
  /\ searchFilter u issue.

(** The same, decided. *)
Definition passesb (u : ui.UI) (statusView : string) (issue : api.Issue.t)
  : bool :=
  (negb (ui.assignedToMe u)
   || String.eqb (api.Assignee.ID (api.Issue.Assignee issue)) (ui.viewerID u))
  && (String.eqb statusView "All"
      || String.eqb (api.State.Name (api.Issue.State issue)) statusView)
  && (String.eqb (ui.searchString u) ""
      || strings.Contains (strings.ToLower (api.Issue.Title issue))
                          (strings.ToLower (ui.searchString u))).

(** The state after [issues] is recomputed from [allIssues] and the
    selection is reset. *)
Definition rederived (statusView : string) (u : ui.UI) : ui.UI :=
  ui.set_selectedIssue (-1)
    (ui.set_issues (filter (passesb u statusView) (ui.allIssues u)) u).

(** A handler that runs to its end and leaves the dashboard on one of
    the six views. *)
Definition KeepsView (h : ui.M error) (u : ui.UI) : Prop :=
  exists err u', h u = Some (err, u') /\ ValidView u'.

(** A handler that runs to its end without error and leaves no issue
    selected. *)
Definition ResetsSelection (h : ui.M error) (u : ui.UI) : Prop :=
  exists u', h u = Some (None, u') /\ ui.selectedIssue u' = -1.
End FilterVocabulary.

(** The team scope of a fetch: the id of the current team, empty when
    the position is not in the roster. *)
Definition currentTeamID (u : ui.UI) : string :=
  match index (ui.teams u) (ui.currentTeam u) with
  | Some team => api.Team.ID team
  | None => ""
  end.

(** What the fetch collaborator answers to a refresh of [u]. *)
Definition fetchFor (net : api.Transport) (c : api.Client) (u : ui.UI)
  : list api.Issue.t * error :=
  api.GetIssues net c (currentTeamID u).

(** [allIssues] after a refresh. *)
Definition refetched (net : api.Transport) (u : ui.UI) : list api.Issue.t :=
  match ui.client u with
  | None => ui.allIssues u
  | Some c =>
    match fetchFor net c u with
    | (fetchedIssues, None) => fetchedIssues
    | (_, Some err) => [ui.errorPlaceholder err]
    end
  end.

(** The position after one step forward or backward on a cycle of
    [n] positions. *)
Definition forward (n i : Z) : Z := if i + 1 >=? n then 0 else i + 1.
Definition backward (n i : Z) : Z := if i - 1 <? 0 then n - 1 else i - 1.

(** Concrete data for the examples. *)
Module Sample.
Import api.

Definition issue (id status title assigneeID assigneeName : string)
  : Issue.t := {|
  Issue.ID := id; Issue.Identifier := String.append "ENG-" id;
  Issue.Title := title; Issue.Description := "";
  Issue.URL := String.append "https://linear.app/issue/ENG-" id;
  Issue.BranchName := String.append "eng-" id;
  Issue.State := {| State.Name := status |};
  Issue.Assignee := {| Assignee.ID := assigneeID; Assignee.Name := assigneeName |};
  Issue.Comments := {| Comments.Nodes := [] |}
|}.

Definition i1 : Issue.t := issue "1" "Todo" "Fix Login Bug" "u1" "Ada Lovelace".
Definition i2 : Issue.t := issue "2" "Blocked" "Rotate keys" "" "".
Definition i3 : Issue.t := issue "3" "Todo" "Update docs" "u2" "Alan".
Definition i4 : Issue.t := issue "4" "In Review" "Login page copy" "u1" "Ada Lovelace".

Definition team (id name key : string) : Team.t :=
  {| Team.ID := id; Team.Name := name; Team.Key := key |}.

Definition roster : list Team.t :=
  [team "t1" "Engineering" "ENG"; team "t2" "Design" "DES";
   team "t3" "Support" "SUP"].

(** A dashboard on the view at position [view], with the given filter
    inputs and lists. *)
Definition dashboard' (all shown : list Issue.t) (view : Z) (mine : bool)
           (viewer search : string) (teams : list Team.t) (selected : Z)
  : ui.UI := {|
  ui.client := Some {| apiKey := "key" |};
  ui.issues := shown; ui.allIssues := all; ui.selectedIssue := selected;
  ui.showHelp := false; ui.showSearch := false;
  ui.searchString := search; ui.assignedToMe := mine;
  ui.viewerID := viewer; ui.currentView := view;
  ui.views := ui.viewNames; ui.teams := teams; ui.currentTeam := 0
|}.

Definition dashboard (all : list Issue.t) : Z -> bool -> string -> string ->
                                            list Team.t -> Z -> ui.UI :=
  dashboard' all all.

(** A remote service that is down, and one that answers. *)
Definition down (err : string) : Transport := {|
  RunViewer := fun _ => Failed err;
  RunTeams := fun _ => Failed err;
  RunIssues := fun _ => Failed err
|}.

Definition up (nodes : list Issue.t) : Transport := {|
  RunViewer := fun _ => Decoded {| Viewer.ID := "u1"; Viewer.Name := "Ada Lovelace" |};
  RunTeams := fun _ => Decoded roster;
  RunIssues := fun _ => Decoded nodes
|}.

(** An operating system with no clipboard program, and one with
    [xclip]. *)
Definition failing : exec.Proc := {|
  exec.StdinPipe := None; exec.Start := Some "executable file not found";
  exec.Write := None; exec.Close := None; exec.Wait := None
|}.

Definition succeeding : exec.Proc := {|
  exec.StdinPipe := None; exec.Start := None;
  exec.Write := None; exec.Close := None; exec.Wait := None
|}.

Definition noClipboard : exec.OS := {|
  exec.LookPath := fun _ => Some "not found";
  exec.Command := fun _ _ => failing
|}.

(** A service that answers for issues and teams but not for the
    viewer, and one that knows no team. *)
Definition viewerDown (nodes : list Issue.t) : Transport := {|
  RunViewer := fun _ => Failed "timeout";
  RunTeams := fun _ => Decoded roster;
  RunIssues := fun _ => Decoded nodes
|}.

Definition noTeams (nodes : list Issue.t) : Transport := {|
  RunViewer := fun _ => Decoded {| Viewer.ID := "u1"; Viewer.Name := "Ada Lovelace" |};
  RunTeams := fun _ => Decoded [];
  RunIssues := fun _ => Decoded nodes
|}.

Definition key : Client := {| apiKey := "key" |}.

(** An issue whose assignee has the given display name. *)
Definition assignedTo (name : string) : Issue.t :=
  issue "7" "Todo" "Write changelog" "u7" name.

(** The bytes of the name "Emile Zola" written with an acute accent
    on the first letter (U+00C9, two bytes in UTF-8). *)
Definition emileZola : string :=
  bytes [195; 137; 109; 105; 108; 101; 32; 90; 111; 108; 97].

Definition withXclip : exec.OS := {|
  exec.LookPath := fun name => if String.eqb name "xclip" then None else Some "not found";
  exec.Command := fun _ _ => succeeding
|}.

Definition all4 : list Issue.t := [i1; i2; i3; i4].

(** The four as [GetIssues] hands them over. *)
Definition sorted4 : list Issue.t := [i4; i2; i1; i3].

(** View "Todo", my issues, search "login". *)
Definition todoMineLogin : ui.UI :=
  dashboard all4 4 true "u1" "login" roster (-1).

(** View "Blocked", no other filter. *)
Definition blocked : ui.UI := dashboard all4 3 false "u1" "" roster (-1).

(** View "All", no filter, second issue selected. *)
Definition plain : ui.UI := dashboard all4 0 false "u1" "" roster 1.

(** View "All", my issues, with a known viewer. *)
Definition mine : ui.UI := dashboard all4 0 true "u1" "" roster (-1).
End Sample.

(* ================================================================= *)
(** * The rest of the program *)

(** ** The view behind the issue list *)

(** The part of the terminal library's [View] that the cursor handlers
    and [layout] use: the corners of the view, the origin of the text
    shown in it, and the cursor, relative to the view. *)
Module pane.

Record t : Type := {
  view : gocui.View;
  x0 : Z; y0 : Z; x1 : Z; y1 : Z;
  origin : Z * Z
}.

(** [v.Size()]: the room inside the frame. *)
Definition Size (p : t) : Z * Z :=
  (wrap (wrap (x1 p - x0 p) - 1), wrap (wrap (y1 p - y0 p) - 1)).

Definition Cursor (p : t) : Z * Z := gocui.Cursor (view p).

Definition Origin (p : t) : Z * Z := origin p.

Definition withCursor (c : Z * Z) (p : t) : t :=
  {| view := {| gocui.Buffer := gocui.Buffer (view p); gocui.Cursor := c |};
     x0 := x0 p; y0 := y0 p; x1 := x1 p; y1 := y1 p; origin := origin p |}.

Definition withOrigin (o : Z * Z) (p : t) : t :=
  {| view := view p; x0 := x0 p; y0 := y0 p; x1 := x1 p; y1 := y1 p;
     origin := o |}.

(** [v.SetCursor(x, y)]: refused outside the view. *)
Definition SetCursor (x y : Z) (p : t) : t * error :=
  let '(maxX, maxY) := Size p in
  if (x <? 0) || (x >=? maxX) || (y <? 0) || (y >=? maxY)
  then (p, Some "invalid point")
  else (withCursor (x, y) p, None).

(** [v.SetOrigin(x, y)]: refused when negative. *)
Definition SetOrigin (x y : Z) (p : t) : t * error :=
  if (x <? 0) || (y <? 0)
  then (p, Some "invalid point")
  else (withOrigin (x, y) p, None).

End pane.

(** ** The handlers that move the cursor *)

Module nav.

Import ui.

(** [quit]: the error that ends the main loop. *)
Definition quit : M error := ret (Some "quit").

(** A handler that works on the view it is called on returns the view
    as it leaves it, beside its error. *)
Definition cursorDown (v : option pane.t) : M (option pane.t * error) :=
  u <- get ;;
  match v with
  | Some p =>
    if len (issues u) >? 0 then
      let '(cx, cy) := pane.Cursor p in
      let '(ox, oy) := pane.Origin p in
      let '(_, maxY) := pane.Size p in
      if cy <? len (issues u) - 1 then
        match pane.SetCursor cx (wrap (cy + 1)) p with
        | (p', None) => ret (Some p', None)
        | (p', Some _) =>
          if wrap (cy + 1) >=? wrap (maxY - 1) then
            match pane.SetOrigin ox (wrap (oy + 1)) p' with
            | (p'', Some err) => ret (Some p'', Some err)
            | (p'', None) => ret (Some p'', None)
            end
          else ret (Some p', None)
        end
      else ret (Some p, None)
    else ret (Some p, None)
  | None => ret (None, None)
  end.

Definition cursorUp (v : option pane.t) : M (option pane.t * error) :=
  u <- get ;;
  match v with
  | Some p =>
    if len (issues u) >? 0 then
      let '(cx, cy) := pane.Cursor p in
      let '(ox, oy) := pane.Origin p in
      if cy >? 0 then
        match pane.SetCursor cx (wrap (cy - 1)) p with
        | (p', Some err) => ret (Some p', Some err)
        | (p', None) => ret (Some p', None)
        end
      else if oy >? 0 then
        match pane.SetOrigin ox (wrap (oy - 1)) p with
        | (p', Some err) => ret (Some p', Some err)
        | (p', None) => ret (Some p', None)
        end
      else ret (Some p, None)
    else ret (Some p, None)
  | None => ret (None, None)
  end.

(** The step of [layout] headed "Set cursor to first item if needed",
    on the issue list view; the errors of [SetCursor] are dropped. *)
Definition layoutCursor (p : pane.t) : M pane.t :=
  u <- get ;;
  if len (issues u) >? 0 then
    let cy := snd (pane.Cursor p) in
    if cy >=? len (issues u) then
      ret (fst (pane.SetCursor 0 (len (issues u) - 1) p))
    else if cy <? 0 then
      ret (fst (pane.SetCursor 0 0 p))
    else ret p
  else ret p.

(** The titles that [layout] gives the issue list and the status
    line. *)
Definition viewTitle (u : UI) : option string :=
  let? name := index (views u) (currentView u) in
  let t := if assignedToMe u then String.append name " (My Issues)" else name in
  Some (if negb (String.eqb (searchString u) "")
        then String.concat "" [t; " ["; searchString u; "]"]
        else t).

End nav.

(** ** The handlers as calls *)

Module app.

(** One call of a handler bound to a key by [NewUI], with what the
    environment hands it: the remote service at that time, the
    operating system, the view the key was pressed in. *)
Inductive Call : Type :=
| Quit
| RefreshIssues (net : api.Transport)
| ToggleHelp
| ToggleAssigned
| ToggleSearch
| PrevView
| NextView
| SelectIssue (v : option gocui.View)
| CopyURL (os : exec.OS)
| CopyBranch (os : exec.OS)
| PrevTeam (net : api.Transport)
| NextTeam (net : api.Transport)
| CloseSearch (v : option gocui.View)
| CancelSearch (v : option gocui.View).

Definition call `{strings.Tables} (c : Call) : ui.M error :=
  match c with
  | Quit => nav.quit
  | RefreshIssues net => ui.refreshIssues net
  | ToggleHelp => ui.toggleHelp
  | ToggleAssigned => ui.toggleAssigned
  | ToggleSearch => ui.toggleSearch
  | PrevView => ui.prevView
  | NextView => ui.nextView
  | SelectIssue v => ui.selectIssue v
  | CopyURL os => ui.copyURL os
  | CopyBranch os => ui.copyBranch os
  | PrevTeam net => ui.prevTeam net
  | NextTeam net => ui.nextTeam net
  | CloseSearch v => ui.closeSearch v
  | CancelSearch v => ui.cancelSearch v
  end.

(** The states of the struct that a run of the program can be in: the
    one [NewUI] builds, and those that handler calls lead to. *)
Inductive Reachable `{strings.Tables} : ui.UI -> Prop :=
| reach_start : forall net cl u,
    ui.NewUI net cl = Some u -> Reachable u
| reach_call : forall c u err u',
    Reachable u -> call c u = Some (err, u') -> Reachable u'.

End app.

(** ** More vocabulary *)

(** The status names that [GetIssues] asks for, which are also the
    keys of [stateOrder] and the views after "All". *)
Definition trackedStatuses : list string :=
  ["In Review"; "In Progress"; "Blocked"; "Todo"; "Backlog"].

Definition Tracked (issue : api.Issue.t) : Prop :=
  In (api.State.Name (api.Issue.State issue)) trackedStatuses.

(** Non-decreasing status rank. *)
Definition SortedByRank (l : list api.Issue.t) : Prop :=
  StronglySorted (fun a b => issueRank a <= issueRank b) l.

(** The ranks that [lessIssue] can give, in order. *)
Definition ranks : list Z := [0; 1; 2; 3; 4; 999].

(** A list regrouped by key: for each key of [keys] in turn, the
    elements of that key in their original order. *)
Definition buckets {A : Type} (key : A -> Z) (keys : list Z) (l : list A)
  : list A :=
  List.concat (map (fun r => filter (fun a => key a =? r) l) keys).

(** The issues regrouped by status rank. *)
Definition groupedByRank (l : list api.Issue.t) : list api.Issue.t :=
  buckets issueRank ranks l.

(** The selection is none or an index of [issues]. *)
Definition SelectionOK (u : ui.UI) : Prop :=
  ui.selectedIssue u = -1
  \/ 0 <= ui.selectedIssue u < len (ui.issues u).

(** The team position: 0 without roster, an index of it otherwise. *)
Definition TeamPosOK (u : ui.UI) : Prop :=
  (ui.teams u = [] /\ ui.currentTeam u = 0)
  \/ 0 <= ui.currentTeam u < len (ui.teams u).

(** A view whose cursor is inside it and whose origin is not
    negative. *)
Definition PaneOK (p : pane.t) : Prop :=
  0 <= fst (pane.Cursor p) < fst (pane.Size p)
  /\ 0 <= snd (pane.Cursor p) < snd (pane.Size p)
  /\ 0 <= fst (pane.Origin p) /\ 0 <= snd (pane.Origin p).

(** The team position that a call leaves. *)
Definition teamAfter (c : app.Call) (u : ui.UI) : Z :=
  match c with
  | app.PrevTeam _ =>
    if len (ui.teams u) =? 0 then ui.currentTeam u
    else let i := wrap (ui.currentTeam u - 1) in
         if i <? 0 then len (ui.teams u) - 1 else i
  | app.NextTeam _ =>
    if len (ui.teams u) =? 0 then ui.currentTeam u
    else let i := wrap (ui.currentTeam u + 1) in
         if i >=? len (ui.teams u) then 0 else i
  | _ => ui.currentTeam u
  end.

(** The calls that fetch. *)
Definition fetches (c : app.Call) : bool :=
  match c with
  | app.RefreshIssues _ | app.PrevTeam _ | app.NextTeam _ => true
  | _ => false
  end.

Section MoreVocabulary.
Context `{strings.Tables}.

(** [issues] is what [filterIssues] derives from the struct. *)
Definition Derived (u : ui.UI) : Prop :=
  ui.filterIssues u = Some (ui.issues u, u).

(** The list derived from [all] on the view [statusView] with the
    filter inputs of [u]. *)
Definition derive (u : ui.UI) (statusView : string) (all : list api.Issue.t)
  : list api.Issue.t :=
  filter (passesb u statusView) all.

(** What holds between two key presses. *)
Definition Inv (u : ui.UI) : Prop :=
  ValidView u /\ Derived u /\ SelectionOK u /\ SortedByRank (ui.allIssues u).
End MoreVocabulary.

(** More data for the examples. *)
Module Sample2.
Import api Sample.

Definition i5 : Issue.t := issue "5" "In Progress" "Ship it" "u2" "Alan".
Definition i6 : Issue.t := issue "6" "Backlog" "Someday" "" "".

Definition all6 : list Issue.t := [i1; i2; i3; i4; i5; i6].
Definition sorted6 : list Issue.t := [i4; i5; i2; i1; i3; i6].

(** A view of ten rows and forty columns with the cursor on its
    third row. *)
Definition listPane : pane.t := {|
  pane.view := {| gocui.Buffer := ""; gocui.Cursor := (0, 2) |};
  pane.x0 := 0; pane.y0 := 3; pane.x1 := 41; pane.y1 := 14;
  pane.origin := (0, 0)
|}.

(** The same with the cursor on the last row of the view. *)
Definition listPaneBottom : pane.t :=
  pane.withCursor (0, 9) listPane.

Definition blankSearch : gocui.View :=
  {| gocui.Buffer := String.append "  " (bytes [10]); gocui.Cursor := (2, 0) |}.

Definition loginSearch : gocui.View :=
  {| gocui.Buffer := "login"; gocui.Cursor := (5, 0) |}.

(** The dashboard as it starts against a service that answers. *)
Definition started : ui.UI := dashboard sorted4 0 false "u1" "" roster (-1).

(** The same two keys later: "my issues" on, third issue selected. *)
Definition later : ui.UI :=
  dashboard' sorted4 [i4; i1] 0 true "u1" "" roster 1.
End Sample2.

(* ================================================================= *)
(** * Strings *)

Lemma HasPrefix_append (p b : string) :
  strings.HasPrefix (String.append p b) p = true.
Proof.
  induction p as [|x p IH]; simpl.
  - reflexivity.
  - rewrite Ascii.eqb_refl. exact IH.
Qed.

Lemma HasPrefix_inv (s p : string) :
  strings.HasPrefix s p = true -> exists b, s = String.append p b.
Proof.
  revert s. induction p as [|x p IH]; intros s Hp.
  - exists s. reflexivity.
  - destruct s as [|c s]; simpl in Hp; [discriminate|].
    apply andb_true_iff in Hp. destruct Hp as [Hc Hs].
    apply Ascii.eqb_eq in Hc. subst c.
    destruct (IH _ Hs) as [b ->]. exists b. reflexivity.
Qed.

Lemma Contains_unfold (s sub : string) :
  strings.Contains s sub
  = strings.HasPrefix s sub
    || match s with
       | EmptyString => false
       | String _ s' => strings.Contains s' sub
       end.
Proof. destruct s; reflexivity. Qed.

(** [Contains] is the substring relation on bytes. *)
Lemma Contains_iff (s sub : string) :
  strings.Contains s sub = true
  <-> exists a b, s = String.append a (String.append sub b).
Proof.
  split.
  - induction s as [|c s IH]; rewrite Contains_unfold; intros Hc;
      apply orb_true_iff in Hc; destruct Hc as [Hp | Hr].
    + destruct (HasPrefix_inv _ _ Hp) as [b ->]. exists EmptyString, b. reflexivity.
    + discriminate.
    + destruct (HasPrefix_inv _ _ Hp) as [b ->]. exists EmptyString, b. reflexivity.
    + destruct (IH Hr) as (a & b & ->). exists (String c a), b. reflexivity.
  - intros (a & b & ->). induction a as [|c a IH].
    + simpl. rewrite Contains_unfold, HasPrefix_append. reflexivity.
    + simpl. rewrite IH. apply orb_true_r.
Qed.

Lemma Contains_suffix (a e : string) :
  strings.Contains (String.append a e) e = true.
Proof.
  apply Contains_iff. exists a, EmptyString.
  f_equal. induction e as [|c e IH]; simpl; [reflexivity | now rewrite <- IH].
Qed.

(* ================================================================= *)
(** * The monad *)

Ltac run :=
  unfold ui.mainLoop, ui.bind, ui.get, ui.modify, ui.ret, ui.orPanic; simpl.

(* ================================================================= *)
(** * [filterIssues] *)

Lemma filter_Subsequence {A : Type} (f : A -> bool) (l : list A) :
  Subsequence (filter f l) l.
Proof.
  induction l as [|x l IH]; simpl.
  - constructor.
  - destruct (f x); constructor; exact IH.
Qed.

Lemma Subsequence_In {A : Type} (l1 l2 : list A) :
  Subsequence l1 l2 -> forall x, In x l1 -> In x l2.
Proof.
  induction 1 as [|x l1 l2 _ IH|x l1 l2 _ IH]; intros y Hy; simpl in *.
  - exact Hy.
  - destruct Hy as [->|Hy]; [left; reflexivity | right; apply IH, Hy].
  - right. apply IH, Hy.
Qed.

Section Filter.
Context `{strings.Tables}.

Lemma passesb_iff (u : ui.UI) (statusView : string) (issue : api.Issue.t) :
  passesb u statusView issue = true <-> Passes u statusView issue.
Proof.
  unfold passesb, Passes, assigneeFilter, statusFilter, searchFilter.
  rewrite !andb_true_iff, !orb_true_iff, negb_true_iff, !String.eqb_eq.
  destruct (ui.assignedToMe u);
    destruct (string_dec statusView "All");
    destruct (string_dec (ui.searchString u) "");
    intuition congruence.
Qed.

(** One turn of the loop appends the issue exactly when it passes. *)
Lemma filterStep_passesb (u : ui.UI) (statusView : string)
      (filtered : list api.Issue.t) (issue : api.Issue.t) :
  ui.filterStep u statusView filtered issue
  = if passesb u statusView issue then filtered ++ [issue] else filtered.
Proof.
  unfold ui.filterStep, passesb.
  destruct (ui.assignedToMe u); simpl;
    destruct (String.eqb (api.Assignee.ID (api.Issue.Assignee issue)) (ui.viewerID u));
    simpl; try reflexivity;
    destruct (String.eqb statusView "All"); simpl;
    destruct (String.eqb (api.State.Name (api.Issue.State issue)) statusView);
    simpl; try reflexivity;
    destruct (String.eqb (ui.searchString u) ""); simpl; try reflexivity;
    destruct (strings.Contains _ _); reflexivity.
Qed.

Lemma fold_filterStep (u : ui.UI) (statusView : string)
      (l filtered : list api.Issue.t) :
  fold_left (ui.filterStep u statusView) l filtered
  = filtered ++ filter (passesb u statusView) l.
Proof.
  revert filtered. induction l as [|issue l IH]; intros filtered; simpl.
  - now rewrite app_nil_r.
  - rewrite IH, filterStep_passesb.
    destruct (passesb u statusView issue); [|reflexivity].
    now rewrite <- app_assoc.
Qed.

(** The loop of [filterIssues] is a filter; the struct is not
    touched. *)
Lemma filterIssues_filter (u : ui.UI) (statusView : string) :
  statusViewOf u = Some statusView ->
  ui.filterIssues u = Some (filter (passesb u statusView) (ui.allIssues u), u).
Proof.
  unfold statusViewOf, ui.filterIssues. intros Hv. run.
  rewrite Hv. now rewrite fold_filterStep.
Qed.

(** Outside the six views the lookup of the view name panics. *)
Lemma filterIssues_panic (u : ui.UI) :
  statusViewOf u = None -> ui.filterIssues u = None.
Proof.
  unfold statusViewOf, ui.filterIssues. intros Hv. run. now rewrite Hv.
Qed.

(** C1.  For every [allIssues] and every filter configuration, the list
    derived by [filterIssues] is [allIssues] filtered by the three
    filters: it is a subsequence of [allIssues] in the same order, and
    an issue is retained exactly when the assignee filter, the status
    filter and the search filter all let it pass. *)
Theorem filterIssues_retains_exactly
        (u : ui.UI) (statusView : string) :
  statusViewOf u = Some statusView ->
  exists derived,
    ui.filterIssues u = Some (derived, u)
    /\ derived = filter (passesb u statusView) (ui.allIssues u)
    /\ Subsequence derived (ui.allIssues u)
    /\ (forall issue,
           passesb u statusView issue = true <-> Passes u statusView issue)
    /\ (forall issue,
           In issue derived
           <-> In issue (ui.allIssues u) /\ Passes u statusView issue).
Proof.
  intros Hv. eexists. split; [apply filterIssues_filter, Hv|].
  split; [reflexivity|]. split; [apply filter_Subsequence|].
  split; [intros; apply passesb_iff|].
  intros issue. rewrite filter_In, passesb_iff. reflexivity.
Qed.

(** C2, amended.  When the viewer id is known (not empty), an issue
    without assignee is dropped by the assignee filter whenever
    [assignedToMe] is on. *)
Theorem unassigned_dropped_for_known_viewer
        (u : ui.UI) (statusView : string) (issue : api.Issue.t) :
  statusViewOf u = Some statusView ->
  ui.assignedToMe u = true ->
  ui.viewerID u <> "" ->
  Unassigned issue ->
  ~ assigneeFilter u issue
  /\ exists derived,
      ui.filterIssues u = Some (derived, u) /\ ~ In issue derived.
Proof.
  intros Hv Hmine Hviewer Hnone. unfold Unassigned in Hnone.
  assert (Hfail : ~ assigneeFilter u issue).
  { unfold assigneeFilter. rewrite Hnone. simpl. intros Hid.
    apply Hviewer. symmetry. exact (Hid Hmine). }
  split; [exact Hfail|].
  eexists. split; [apply filterIssues_filter, Hv|].
  rewrite filter_In, passesb_iff. intros [_ [Ha _]]. exact (Hfail Ha).
Qed.

(** Running a handler: the state is read, written, and the filter is
    run, one step at a time. *)
Lemma run_get {B : Type} (k : ui.UI -> ui.M B) (u : ui.UI) :
  ui.bind ui.get k u = k u u.
Proof. reflexivity. Qed.

Lemma run_modify {B : Type} (f : ui.UI -> ui.UI) (k : unit -> ui.M B)
      (u : ui.UI) :
  ui.bind (ui.modify f) k u = k tt (f u).
Proof. reflexivity. Qed.

Lemma run_ret {A B : Type} (a : A) (k : A -> ui.M B) (u : ui.UI) :
  ui.bind (ui.ret a) k u = k a u.
Proof. reflexivity. Qed.

Lemma run_filterIssues {B : Type} (k : list api.Issue.t -> ui.M B)
      (u : ui.UI) (statusView : string) :
  statusViewOf u = Some statusView ->
  ui.bind ui.filterIssues k u
  = k (filter (passesb u statusView) (ui.allIssues u)) u.
Proof.
  intros Hv. unfold ui.bind at 1. now rewrite (filterIssues_filter u Hv).
Qed.

(** The filter reads three fields besides the view and the issues. *)
Lemma passesb_fields (u u' : ui.UI) (statusView : string)
      (issue : api.Issue.t) :
  ui.assignedToMe u' = ui.assignedToMe u ->
  ui.viewerID u' = ui.viewerID u ->
  ui.searchString u' = ui.searchString u ->
  passesb u' statusView issue = passesb u statusView issue.
Proof.
  intros Ha Hw Hs. unfold passesb. now rewrite Ha, Hw, Hs.
Qed.

Lemma toggleAssigned_run (u : ui.UI) (statusView : string) :
  statusViewOf u = Some statusView ->
  let u' := ui.set_assignedToMe (negb (ui.assignedToMe u)) u in
  ui.toggleAssigned u
  = Some (None,
          ui.set_selectedIssue (-1)
            (ui.set_issues (filter (passesb u' statusView) (ui.allIssues u)) u')).
Proof.
  intros Hv u'. unfold ui.toggleAssigned.
  rewrite run_get, run_modify.
  rewrite (@run_filterIssues _ _ _ statusView); [|exact Hv].
  rewrite !run_modify. reflexivity.
Qed.

(** C10.  Toggling [assignedToMe] twice gives back the flag, and leaves
    as derived list the one that a single recomputation with the
    original flag gives; nothing else but the selection has moved. *)
Theorem toggleAssigned_twice (u : ui.UI) (statusView : string) :
  statusViewOf u = Some statusView ->
  exists u1 u2 derived,
    ui.toggleAssigned u = Some (None, u1)
    /\ ui.toggleAssigned u1 = Some (None, u2)
    /\ ui.assignedToMe u1 = negb (ui.assignedToMe u)
    /\ ui.assignedToMe u2 = ui.assignedToMe u
    /\ ui.filterIssues u = Some (derived, u)
    /\ ui.issues u2 = derived
    /\ u2 = ui.set_selectedIssue (-1) (ui.set_issues derived u).
Proof.
  intros Hv.
  eexists. eexists. exists (filter (passesb u statusView) (ui.allIssues u)).
  split; [apply (toggleAssigned_run u Hv)|].
  split; [apply toggleAssigned_run; exact Hv|].
  split; [reflexivity|]. split; [apply negb_involutive|].
  split; [apply filterIssues_filter, Hv|].
  assert (Hsame : forall w : ui.UI,
    ui.assignedToMe w = negb (negb (ui.assignedToMe u)) ->
    ui.viewerID w = ui.viewerID u ->
    ui.searchString w = ui.searchString u ->
    filter (passesb w statusView) (ui.allIssues u)
    = filter (passesb u statusView) (ui.allIssues u)).
  { intros w Ha Hw Hs. apply filter_ext. intros issue.
    apply passesb_fields; [now rewrite Ha, negb_involutive | exact Hw | exact Hs]. }
  split.
  - simpl. apply Hsame; reflexivity.
  - unfold ui.set_selectedIssue, ui.set_issues, ui.set_assignedToMe. simpl.
    rewrite negb_involutive. f_equal.
Qed.

End Filter.

(* ================================================================= *)
(** * Slices and integers *)

Lemma index_in_range {A : Type} (l : list A) (i : Z) :
  0 <= i < len l -> exists x, index l i = Some x.
Proof.
  unfold index, len. intros [Hlo Hhi].
  destruct (Z.ltb_spec i 0) as [Hneg|_]; [lia|].
  destruct (nth_error l (Z.to_nat i)) as [x|] eqn:Hnth; [now exists x|].
  apply nth_error_None in Hnth. lia.
Qed.

Lemma index_out_of_range {A : Type} (l : list A) (i : Z) :
  ~ (0 <= i < len l) -> index l i = None.
Proof.
  unfold index, len. intros Hout.
  destruct (Z.ltb_spec i 0) as [Hneg|Hpos]; [reflexivity|].
  apply nth_error_None. lia.
Qed.

Lemma guard_in_range {A : Type} (l : list A) (i : Z) :
  (i >=? 0) && (i <? len l) = true <-> 0 <= i < len l.
Proof.
  rewrite andb_true_iff, Z.geb_le, Z.ltb_lt. lia.
Qed.

Lemma wrap_small (z : Z) : - 2 ^ 63 <= z < 2 ^ 63 -> wrap z = z.
Proof.
  intros Hz. unfold wrap. rewrite Z.mod_small; lia.
Qed.

Lemma forward_mod (n i : Z) : 0 <= i < n -> forward n i = (i + 1) mod n.
Proof.
  intros Hi. unfold forward. destruct (Z.geb_spec (i + 1) n) as [Hge|Hlt].
  - replace (i + 1) with n by lia. now rewrite Z.mod_same by lia.
  - now rewrite Z.mod_small by lia.
Qed.

Lemma backward_mod (n i : Z) : 0 <= i < n -> backward n i = (i - 1) mod n.
Proof.
  intros Hi. unfold backward. destruct (Z.ltb_spec (i - 1) 0) as [Hneg|Hpos].
  - replace (i - 1) with (-1) by lia.
    apply (Z.mod_unique _ _ (-1)); lia.
  - now rewrite Z.mod_small by lia.
Qed.

Lemma forward_range (n i : Z) : 0 <= i < n -> 0 <= forward n i < n.
Proof.
  intros Hi. unfold forward. destruct (Z.geb_spec (i + 1) n); lia.
Qed.

Lemma backward_range (n i : Z) : 0 <= i < n -> 0 <= backward n i < n.
Proof.
  intros Hi. unfold backward. destruct (Z.ltb_spec (i - 1) 0); lia.
Qed.

(* ================================================================= *)
(** * The handlers, run *)

Section Handlers.
Context `{strings.Tables}.

(** The team id computed at the head of [refreshIssues]. *)
Lemma teamID_run (u w : ui.UI) :
  (if (ui.currentTeam u >=? 0) && (ui.currentTeam u <? len (ui.teams u))
   then ui.bind (ui.orPanic (index (ui.teams u) (ui.currentTeam u)))
                (fun team => ui.ret (api.Team.ID team))
   else ui.ret "") w
  = Some (currentTeamID u, w).
Proof.
  unfold currentTeamID.
  destruct ((ui.currentTeam u >=? 0) && (ui.currentTeam u <? len (ui.teams u)))
    eqn:Hguard.
  - apply guard_in_range in Hguard.
    destruct (index_in_range _ Hguard) as [team Hteam].
    unfold ui.bind, ui.orPanic, ui.ret. now rewrite Hteam.
  - assert (Hout : ~ (0 <= ui.currentTeam u < len (ui.teams u))).
    { intros Hin. apply guard_in_range in Hin. congruence. }
    now rewrite (index_out_of_range _ Hout).
Qed.

(** The closing steps shared by the handlers: recompute, store,
    reset the selection. *)
Lemma rederive_run (w : ui.UI) (statusView : string) :
  statusViewOf w = Some statusView ->
  ui.bind ui.filterIssues
    (fun filtered =>
       ui.bind (ui.modify (ui.set_issues filtered))
         (fun _ => ui.bind (ui.modify (ui.set_selectedIssue (-1)))
                     (fun _ => ui.ret (@None string)))) w
  = Some (None, rederived statusView w).
Proof.
  intros Hv. rewrite (@run_filterIssues _ _ _ _ statusView); [|exact Hv].
  reflexivity.
Qed.

Lemma refreshIssues_run (net : api.Transport) (u : ui.UI) (statusView : string) :
  statusViewOf u = Some statusView ->
  ui.refreshIssues net u
  = Some (None, rederived statusView (ui.set_allIssues (refetched net u) u)).
Proof.
  intros Hv. unfold ui.refreshIssues, refetched, fetchFor.
  rewrite run_get. unfold ui.bind at 1.
  destruct (ui.client u) as [c|].
  - unfold ui.bind at 1. rewrite teamID_run.
    destruct (api.GetIssues net c (currentTeamID u)) as [fetchedIssues [err|]];
      unfold ui.modify; apply rederive_run; exact Hv.
  - unfold ui.ret at 1. rewrite (rederive_run u Hv).
    destruct u; reflexivity.
Qed.

Lemma closeSearch_run (view : gocui.View) (u : ui.UI) (statusView : string) :
  statusViewOf u = Some statusView ->
  ui.closeSearch (Some view) u
  = Some (None,
          ui.set_showSearch false
            (rederived statusView
               (ui.set_searchString (strings.TrimSpace (gocui.Buffer view)) u))).
Proof.
  intros Hv. unfold ui.closeSearch.
  unfold ui.bind at 1. unfold ui.bind at 1. unfold ui.modify at 1.
  rewrite (@run_filterIssues _ _ _ _ statusView); [|exact Hv].
  reflexivity.
Qed.

Lemma closeSearch_nil (u : ui.UI) :
  ui.closeSearch None u = Some (None, ui.set_showSearch false u).
Proof. reflexivity. Qed.

Lemma cancelSearch_run (v : option gocui.View) (u : ui.UI) (statusView : string) :
  statusViewOf u = Some statusView ->
  ui.cancelSearch v u
  = Some (None,
          ui.set_showSearch false
            (rederived statusView (ui.set_searchString "" u))).
Proof.
  intros Hv. unfold ui.cancelSearch. rewrite run_modify.
  rewrite (@run_filterIssues _ _ _ _ statusView); [|exact Hv].
  reflexivity.
Qed.

Lemma nextView_run (u : ui.UI) (statusView' : string) :
  0 <= ui.currentView u < len (ui.views u) ->
  len (ui.views u) <= MaxInt ->
  statusViewOf
    (ui.set_currentView (forward (len (ui.views u)) (ui.currentView u)) u)
  = Some statusView' ->
  ui.nextView u
  = Some (None,
          rederived statusView'
            (ui.set_currentView
               (forward (len (ui.views u)) (ui.currentView u)) u)).
Proof.
  intros Hcv Hlen. unfold MaxInt in Hlen. unfold ui.nextView, forward.
  rewrite run_get, run_modify, run_get. simpl ui.currentView. simpl ui.views.
  rewrite wrap_small by lia.
  destruct (Z.geb_spec (ui.currentView u + 1) (len (ui.views u))); intros Hv.
  - rewrite run_modify. erewrite rederive_run; [reflexivity | exact Hv].
  - rewrite run_ret. erewrite rederive_run; [reflexivity | exact Hv].
Qed.

Lemma prevView_run (u : ui.UI) (statusView' : string) :
  0 <= ui.currentView u < len (ui.views u) ->
  len (ui.views u) <= MaxInt ->
  statusViewOf
    (ui.set_currentView (backward (len (ui.views u)) (ui.currentView u)) u)
  = Some statusView' ->
  ui.prevView u
  = Some (None,
          rederived statusView'
            (ui.set_currentView
               (backward (len (ui.views u)) (ui.currentView u)) u)).
Proof.
  intros Hcv Hlen. unfold MaxInt in Hlen. unfold ui.prevView, backward.
  rewrite run_get, run_modify, run_get. simpl ui.currentView. simpl ui.views.
  rewrite wrap_small by lia.
  destruct (Z.ltb_spec (ui.currentView u - 1) 0); intros Hv.
  - rewrite run_modify. erewrite rederive_run; [reflexivity | exact Hv].
  - rewrite run_ret. erewrite rederive_run; [reflexivity | exact Hv].
Qed.

(** With a roster, a team step is a refresh at the new position;
    without one it does nothing. *)
Lemma nextTeam_run (net : api.Transport) (u : ui.UI) :
  ui.teams u <> [] ->
  let i := wrap (ui.currentTeam u + 1) in
  ui.nextTeam net u
  = ui.refreshIssues net
      (ui.set_currentTeam (if i >=? len (ui.teams u) then 0 else i) u).
Proof.
  intros Hteams i. unfold ui.nextTeam. rewrite run_get.
  destruct (Z.eqb_spec (len (ui.teams u)) 0) as [Hz|_].
  - unfold len in Hz. destruct (ui.teams u); [congruence | discriminate].
  - rewrite run_modify, run_get. simpl ui.currentTeam. simpl ui.teams. fold i.
    destruct (i >=? len (ui.teams u)).
    + now rewrite run_modify.
    + now rewrite run_ret.
Qed.

Lemma prevTeam_run (net : api.Transport) (u : ui.UI) :
  ui.teams u <> [] ->
  let i := wrap (ui.currentTeam u - 1) in
  ui.prevTeam net u
  = ui.refreshIssues net
      (ui.set_currentTeam (if i <? 0 then len (ui.teams u) - 1 else i) u).
Proof.
  intros Hteams i. unfold ui.prevTeam. rewrite run_get.
  destruct (Z.eqb_spec (len (ui.teams u)) 0) as [Hz|_].
  - unfold len in Hz. destruct (ui.teams u); [congruence | discriminate].
  - rewrite run_modify, run_get. simpl ui.currentTeam. simpl ui.teams. fold i.
    destruct (i <? 0).
    + now rewrite run_modify.
    + now rewrite run_ret.
Qed.

Lemma nextTeam_empty (net : api.Transport) (u : ui.UI) :
  ui.teams u = [] -> ui.nextTeam net u = Some (None, u).
Proof.
  intros Hteams. unfold ui.nextTeam. rewrite run_get. now rewrite Hteams.
Qed.

Lemma prevTeam_empty (net : api.Transport) (u : ui.UI) :
  ui.teams u = [] -> ui.prevTeam net u = Some (None, u).
Proof.
  intros Hteams. unfold ui.prevTeam. rewrite run_get. now rewrite Hteams.
Qed.

Lemma ValidView_statusView (u : ui.UI) :
  ValidView u -> exists statusView, statusViewOf u = Some statusView.
Proof.
  intros [Hviews Hcv]. unfold statusViewOf. apply index_in_range.
  rewrite Hviews. exact Hcv.
Qed.
End Handlers.

(* ================================================================= *)
(** * Selection reset *)

Section Selection.
Context `{strings.Tables}.

Lemma refresh_resets (net : api.Transport) (u : ui.UI) (statusView : string) :
  statusViewOf u = Some statusView ->
  ResetsSelection (ui.refreshIssues net) u.
Proof.
  intros Hv. eexists. split; [apply (refreshIssues_run net u Hv) | reflexivity].
Qed.

(** C4, amended.  In a dashboard in use, [selectedIssue] is [-1] after
    refresh, toggle-assigned, apply-search on the search view,
    cancel-search, prev-view and next-view, and after prev-team and
    next-team when the roster is not empty.  With an empty roster the
    two team steps return at once and change nothing; apply-search
    without a view only leaves the search mode. *)
Theorem selection_reset (u : ui.UI) :
  ValidView u ->
  (forall net, ResetsSelection (ui.refreshIssues net) u)
  /\ ResetsSelection ui.toggleAssigned u
  /\ (forall view, ResetsSelection (ui.closeSearch (Some view)) u)
  /\ (forall v, ResetsSelection (ui.cancelSearch v) u)
  /\ ResetsSelection ui.prevView u
  /\ ResetsSelection ui.nextView u
  /\ (ui.teams u <> [] ->
      forall net, ResetsSelection (ui.prevTeam net) u
                  /\ ResetsSelection (ui.nextTeam net) u)
  /\ (ui.teams u = [] ->
      forall net, ui.prevTeam net u = Some (None, u)
                  /\ ui.nextTeam net u = Some (None, u))
  /\ ui.closeSearch None u = Some (None, ui.set_showSearch false u).
Proof.
  intros Hvalid.
  destruct (ValidView_statusView Hvalid) as [statusView Hv].
  destruct Hvalid as [Hviews Hcv].
  assert (Hlen : len (ui.views u) = 6) by (rewrite Hviews; reflexivity).
  split; [intros net; apply (refresh_resets net u Hv)|].
  split; [eexists; split; [apply (toggleAssigned_run u Hv) | reflexivity]|].
  split; [intros view; eexists; split;
          [apply (closeSearch_run view u Hv) | reflexivity]|].
  split; [intros v; eexists; split;
          [apply (cancelSearch_run v u Hv) | reflexivity]|].
  split.
  { assert (Hin : 0 <= backward 6 (ui.currentView u) < len ui.viewNames)
      by (apply backward_range; exact Hcv).
    destruct (index_in_range _ Hin) as [statusView' Hv'].
    assert (Hrun : ui.prevView u
                   = Some (None, rederived statusView'
                             (ui.set_currentView (backward 6 (ui.currentView u)) u))).
    { rewrite <- Hlen. apply prevView_run; rewrite ?Hlen; unfold MaxInt; try lia.
      unfold statusViewOf. simpl. rewrite Hviews. exact Hv'. }
    eexists. split; [exact Hrun | reflexivity]. }
  split.
  { assert (Hin : 0 <= forward 6 (ui.currentView u) < len ui.viewNames)
      by (apply forward_range; exact Hcv).
    destruct (index_in_range _ Hin) as [statusView' Hv'].
    assert (Hrun : ui.nextView u
                   = Some (None, rederived statusView'
                             (ui.set_currentView (forward 6 (ui.currentView u)) u))).
    { rewrite <- Hlen. apply nextView_run; rewrite ?Hlen; unfold MaxInt; try lia.
      unfold statusViewOf. simpl. rewrite Hviews. exact Hv'. }
    eexists. split; [exact Hrun | reflexivity]. }
  split.
  { intros Hteams net. split.
    - unfold ResetsSelection. rewrite prevTeam_run by exact Hteams.
      apply (@refresh_resets net _ statusView). exact Hv.
    - unfold ResetsSelection. rewrite nextTeam_run by exact Hteams.
      apply (@refresh_resets net _ statusView). exact Hv. }
  split.
  { intros Hteams net. split.
    - apply prevTeam_empty, Hteams.
    - apply nextTeam_empty, Hteams. }
  reflexivity.
Qed.
End Selection.

(* ================================================================= *)
(** * A fetch that fails *)

Section FetchFailure.
Context `{strings.Tables}.

Lemma placeholder_title (err : string) :
  strings.Contains (api.Issue.Title (ui.errorPlaceholder err)) err = true.
Proof. apply Contains_suffix. Qed.

Lemma refetched_failure (net : api.Transport) (u : ui.UI) (c : api.Client)
      (err : string) :
  ui.client u = Some c ->
  snd (fetchFor net c u) = Some err ->
  refetched net u = [ui.errorPlaceholder err].
Proof.
  intros Hc Herr. unfold refetched. rewrite Hc.
  destruct (fetchFor net c u) as [fetchedIssues e]. simpl in Herr.
  now subst e.
Qed.

(** C6.  When the fetch fails during a refresh, [allIssues] becomes
    the single placeholder issue whose title contains the text of the
    error, [issues] is what [filterIssues] derives from it, and the
    selection is reset; with no filter active (view "All",
    [assignedToMe] off, empty search text) [issues] is that same single
    issue. *)
Theorem refresh_failure_placeholder
        (net : api.Transport) (u : ui.UI) (c : api.Client)
        (statusView err : string) :
  statusViewOf u = Some statusView ->
  ui.client u = Some c ->
  snd (fetchFor net c u) = Some err ->
  exists u',
    ui.refreshIssues net u = Some (None, u')
    /\ ui.allIssues u' = [ui.errorPlaceholder err]
    /\ strings.Contains (api.Issue.Title (ui.errorPlaceholder err)) err = true
    /\ ui.filterIssues u' = Some (ui.issues u', u')
    /\ ui.selectedIssue u' = -1
    /\ (statusView = "All" -> ui.assignedToMe u = false ->
        ui.searchString u = "" ->
        ui.issues u' = [ui.errorPlaceholder err]).
Proof.
  intros Hv Hc Herr.
  eexists. split; [apply (refreshIssues_run net u Hv)|].
  rewrite (refetched_failure net u Hc Herr).
  split; [reflexivity|]. split; [apply placeholder_title|].
  split; [|split; [reflexivity|]].
  - rewrite (@filterIssues_filter _ _ statusView) by exact Hv. reflexivity.
  - intros Hall Hmine Hsearch. simpl. unfold passesb. simpl.
    now rewrite Hall, Hmine, Hsearch.
Qed.

(** The placeholder passes the filters in one configuration only. *)
Lemma placeholder_passes (u : ui.UI) (statusView err : string) :
  statusView <> "" ->
  Passes u statusView (ui.errorPlaceholder err)
  <-> (ui.assignedToMe u = true -> ui.viewerID u = "")
      /\ statusView = "All"
      /\ (ui.searchString u <> "" ->
          strings.Contains
            (strings.ToLower (String.append "Error loading issues: " err))
            (strings.ToLower (ui.searchString u)) = true).
Proof.
  intros Hne. unfold Passes, assigneeFilter, statusFilter, searchFilter. simpl.
  destruct (string_dec statusView "All") as [Hall|Hnot];
    intuition congruence.
Qed.

Lemma viewNames_not_empty (u : ui.UI) (statusView : string) :
  ValidView u -> statusViewOf u = Some statusView -> statusView <> "".
Proof.
  intros [Hviews Hcv] Hv. unfold statusViewOf, index in Hv. rewrite Hviews in Hv.
  destruct (Z.ltb_spec (ui.currentView u) 0); [discriminate|].
  apply nth_error_In in Hv. simpl in Hv.
  intuition (subst; discriminate).
Qed.

(** C7, amended.  After a refresh whose fetch fails, [allIssues] is the
    placeholder alone, and the derived list is either that single
    issue or empty: the placeholder is shown exactly when the view is
    "All", the assignee filter is off or the viewer id is empty, and
    the search text is empty or occurs in the lowered title. *)
Theorem failed_refresh_placeholder_visibility
        (net : api.Transport) (u : ui.UI) (c : api.Client)
        (statusView err : string) :
  ValidView u ->
  statusViewOf u = Some statusView ->
  ui.client u = Some c ->
  snd (fetchFor net c u) = Some err ->
  exists u',
    ui.refreshIssues net u = Some (None, u')
    /\ ui.allIssues u' = [ui.errorPlaceholder err]
    /\ (ui.issues u' = [ui.errorPlaceholder err] \/ ui.issues u' = [])
    /\ (ui.issues u' = [ui.errorPlaceholder err]
        <-> (ui.assignedToMe u = true -> ui.viewerID u = "")
            /\ statusView = "All"
            /\ (ui.searchString u <> "" ->
                strings.Contains
                  (strings.ToLower (String.append "Error loading issues: " err))
                  (strings.ToLower (ui.searchString u)) = true)).
Proof.
  intros Hvalid Hv Hc Herr.
  eexists. split; [apply (refreshIssues_run net u Hv)|].
  rewrite (refetched_failure net u Hc Herr).
  split; [reflexivity|].
  rewrite <- (placeholder_passes u err (viewNames_not_empty Hvalid Hv)).
  rewrite <- (passesb_iff u statusView (ui.errorPlaceholder err)).
  simpl.
  replace (passesb (ui.set_allIssues [ui.errorPlaceholder err] u) statusView
             (ui.errorPlaceholder err))
    with (passesb u statusView (ui.errorPlaceholder err)) by reflexivity.
  destruct (passesb u statusView (ui.errorPlaceholder err)).
  - split; [left; reflexivity | split; reflexivity].
  - split; [right; reflexivity | split; discriminate].
Qed.
End FetchFailure.

(* ================================================================= *)
(** * The clipboard *)

Lemma copyToClipboard_state (os : exec.OS) (text : string) (u : ui.UI) :
  exists err, ui.copyToClipboard os text u = Some (err, u).
Proof.
  unfold ui.copyToClipboard.
  destruct (exec.StdinPipe _); [eexists; reflexivity|].
  destruct (exec.Start _); [eexists; reflexivity|].
  destruct (exec.Write _); [eexists; reflexivity|].
  destruct (exec.Close _); eexists; reflexivity.
Qed.

(** Both copy handlers end in the state they started from. *)
Lemma copy_leaves_state_aux (os : exec.OS) (u : ui.UI) :
  (exists err, ui.copyURL os u = Some (err, u))
  /\ (exists err, ui.copyBranch os u = Some (err, u)).
Proof.
  split.
  - unfold ui.copyURL. rewrite run_get.
    destruct ((ui.selectedIssue u >=? 0) && (ui.selectedIssue u <? len (ui.issues u)))
      eqn:Hguard; [|eexists; reflexivity].
    apply guard_in_range in Hguard.
    destruct (index_in_range _ Hguard) as [issue Hissue].
    unfold ui.bind, ui.orPanic. rewrite Hissue.
    destruct (negb (api.Issue.URL issue =? "")%string);
      [apply copyToClipboard_state | eexists; reflexivity].
  - unfold ui.copyBranch. rewrite run_get.
    destruct ((ui.selectedIssue u >=? 0) && (ui.selectedIssue u <? len (ui.issues u)))
      eqn:Hguard; [|eexists; reflexivity].
    apply guard_in_range in Hguard.
    destruct (index_in_range _ Hguard) as [issue Hissue].
    unfold ui.bind, ui.orPanic. rewrite Hissue.
    destruct (negb (api.Issue.BranchName issue =? "")%string);
      [apply copyToClipboard_state | eexists; reflexivity].
Qed.

(** C8.  Copying the URL or the branch name of the selected issue leaves
    every field of the struct as it was, whatever the clipboard command
    does: the handler ends, with the error of the command or with nil,
    in the state it started from. *)
Theorem copy_leaves_state (os : exec.OS) (u : ui.UI) :
  (exists err, ui.copyURL os u = Some (err, u))
  /\ (exists err, ui.copyBranch os u = Some (err, u)).
Proof. exact (copy_leaves_state_aux os u). Qed.

(* ================================================================= *)
(** * Cyclic navigation *)

Lemma iter_forward (n i : Z) (k : nat) :
  0 <= i < n -> Nat.iter k (forward n) i = (i + Z.of_nat k) mod n.
Proof.
  intros Hi. induction k as [|k IH].
  - simpl. rewrite Z.add_0_r. now rewrite Z.mod_small.
  - rewrite Nat.iter_succ, IH.
    rewrite forward_mod by (apply Z.mod_pos_bound; lia).
    rewrite Zplus_mod_idemp_l. f_equal. lia.
Qed.

Lemma iter_backward (n i : Z) (k : nat) :
  0 <= i < n -> Nat.iter k (backward n) i = (i - Z.of_nat k) mod n.
Proof.
  intros Hi. induction k as [|k IH].
  - simpl. rewrite Z.sub_0_r. now rewrite Z.mod_small.
  - rewrite Nat.iter_succ, IH.
    rewrite backward_mod by (apply Z.mod_pos_bound; lia).
    rewrite Zminus_mod_idemp_l. f_equal. lia.
Qed.

(** A full turn in either direction ends where it started. *)
Lemma full_turn_forward (n i : Z) (k : nat) :
  0 <= i < n -> Z.of_nat k = n -> Nat.iter k (forward n) i = i.
Proof.
  intros Hi Hk. rewrite iter_forward, Hk by exact Hi.
  rewrite <- (Z.mul_1_l n) at 1. rewrite Z.mod_add by lia.
  now apply Z.mod_small.
Qed.

Lemma full_turn_backward (n i : Z) (k : nat) :
  0 <= i < n -> Z.of_nat k = n -> Nat.iter k (backward n) i = i.
Proof.
  intros Hi Hk. rewrite iter_backward, Hk by exact Hi.
  replace (i - n) with (i + (-1) * n) by lia. rewrite Z.mod_add by lia.
  now apply Z.mod_small.
Qed.

Lemma mainLoop_step (h : ui.M error) (rest : list (ui.M error)) (u u1 : ui.UI) :
  h u = Some (None, u1) ->
  ui.mainLoop (h :: rest) u = ui.mainLoop rest u1.
Proof.
  intros Hh. simpl. unfold ui.bind at 1. now rewrite Hh.
Qed.

Section Navigation.
Context `{strings.Tables}.

(** One step on the views: where it lands and what it keeps. *)
Lemma nextView_step (u : ui.UI) :
  ValidView u ->
  exists u',
    ui.nextView u = Some (None, u')
    /\ ValidView u'
    /\ ui.currentView u' = forward 6 (ui.currentView u)
    /\ ui.teams u' = ui.teams u /\ ui.currentTeam u' = ui.currentTeam u.
Proof.
  intros [Hviews Hcv].
  assert (Hlen : len (ui.views u) = 6) by (rewrite Hviews; reflexivity).
  pose proof (forward_range Hcv) as Hin.
  destruct (@index_in_range _ ui.viewNames _ Hin) as [statusView' Hv'].
  exists (rederived statusView'
            (ui.set_currentView (forward 6 (ui.currentView u)) u)).
  split.
  - rewrite <- Hlen. apply nextView_run; rewrite ?Hlen; unfold MaxInt; try lia.
    unfold statusViewOf. simpl. rewrite Hviews. exact Hv'.
  - repeat split; simpl; try assumption; lia.
Qed.

Lemma prevView_step (u : ui.UI) :
  ValidView u ->
  exists u',
    ui.prevView u = Some (None, u')
    /\ ValidView u'
    /\ ui.currentView u' = backward 6 (ui.currentView u)
    /\ ui.teams u' = ui.teams u /\ ui.currentTeam u' = ui.currentTeam u.
Proof.
  intros [Hviews Hcv].
  assert (Hlen : len (ui.views u) = 6) by (rewrite Hviews; reflexivity).
  pose proof (backward_range Hcv) as Hin.
  destruct (@index_in_range _ ui.viewNames _ Hin) as [statusView' Hv'].
  exists (rederived statusView'
            (ui.set_currentView (backward 6 (ui.currentView u)) u)).
  split.
  - rewrite <- Hlen. apply prevView_run; rewrite ?Hlen; unfold MaxInt; try lia.
    unfold statusViewOf. simpl. rewrite Hviews. exact Hv'.
  - repeat split; simpl; try assumption; lia.
Qed.

(** One step on the roster. *)
Lemma nextTeam_step (net : api.Transport) (u : ui.UI) :
  ValidView u -> ValidTeam u ->
  exists u',
    ui.nextTeam net u = Some (None, u')
    /\ ValidView u' /\ ValidTeam u'
    /\ ui.currentTeam u' = forward (len (ui.teams u)) (ui.currentTeam u)
    /\ ui.teams u' = ui.teams u /\ ui.currentView u' = ui.currentView u.
Proof.
  intros Hvalid [Hct Hlen].
  destruct (ValidView_statusView Hvalid) as [statusView Hv].
  assert (Hteams : ui.teams u <> []).
  { intros Hnil. rewrite Hnil in Hct. unfold len in Hct. simpl in Hct. lia. }
  rewrite nextTeam_run by exact Hteams.
  unfold MaxInt in Hlen. rewrite wrap_small by lia.
  fold (forward (len (ui.teams u)) (ui.currentTeam u)).
  eexists. split; [apply (@refreshIssues_run _ net _ statusView); exact Hv|].
  pose proof (forward_range Hct).
  repeat split; simpl; try apply Hvalid; unfold MaxInt; lia.
Qed.

Lemma prevTeam_step (net : api.Transport) (u : ui.UI) :
  ValidView u -> ValidTeam u ->
  exists u',
    ui.prevTeam net u = Some (None, u')
    /\ ValidView u' /\ ValidTeam u'
    /\ ui.currentTeam u' = backward (len (ui.teams u)) (ui.currentTeam u)
    /\ ui.teams u' = ui.teams u /\ ui.currentView u' = ui.currentView u.
Proof.
  intros Hvalid [Hct Hlen].
  destruct (ValidView_statusView Hvalid) as [statusView Hv].
  assert (Hteams : ui.teams u <> []).
  { intros Hnil. rewrite Hnil in Hct. unfold len in Hct. simpl in Hct. lia. }
  rewrite prevTeam_run by exact Hteams.
  unfold MaxInt in Hlen. rewrite wrap_small by lia.
  fold (backward (len (ui.teams u)) (ui.currentTeam u)).
  eexists. split; [apply (@refreshIssues_run _ net _ statusView); exact Hv|].
  pose proof (backward_range Hct).
  repeat split; simpl; try apply Hvalid; unfold MaxInt; lia.
Qed.

(** Any number of steps in a row. *)
Lemma nextView_steps (k : nat) (u : ui.UI) :
  ValidView u ->
  exists u',
    ui.mainLoop (repeat ui.nextView k) u = Some (None, u')
    /\ ValidView u'
    /\ ui.currentView u' = Nat.iter k (forward 6) (ui.currentView u).
Proof.
  revert u. induction k as [|k IH]; intros u Hvalid.
  - exists u. repeat split; apply Hvalid.
  - destruct (nextView_step Hvalid) as (u1 & Hrun & Hvalid1 & Hcv1 & _).
    destruct (IH u1 Hvalid1) as (u' & Hloop & Hvalid' & Hcv').
    exists u'. simpl repeat. rewrite (@mainLoop_step _ _ _ _ Hrun).
    split; [exact Hloop|]. split; [exact Hvalid'|].
    rewrite Hcv', Hcv1. symmetry. apply Nat.iter_succ_r.
Qed.

Lemma prevView_steps (k : nat) (u : ui.UI) :
  ValidView u ->
  exists u',
    ui.mainLoop (repeat ui.prevView k) u = Some (None, u')
    /\ ValidView u'
    /\ ui.currentView u' = Nat.iter k (backward 6) (ui.currentView u).
Proof.
  revert u. induction k as [|k IH]; intros u Hvalid.
  - exists u. repeat split; apply Hvalid.
  - destruct (prevView_step Hvalid) as (u1 & Hrun & Hvalid1 & Hcv1 & _).
    destruct (IH u1 Hvalid1) as (u' & Hloop & Hvalid' & Hcv').
    exists u'. simpl repeat. rewrite (@mainLoop_step _ _ _ _ Hrun).
    split; [exact Hloop|]. split; [exact Hvalid'|].
    rewrite Hcv', Hcv1. symmetry. apply Nat.iter_succ_r.
Qed.

Lemma nextTeam_steps (nets : list api.Transport) (u : ui.UI) :
  ValidView u -> ValidTeam u ->
  exists u',
    ui.mainLoop (map ui.nextTeam nets) u = Some (None, u')
    /\ ui.teams u' = ui.teams u
    /\ ui.currentTeam u'
       = Nat.iter (List.length nets) (forward (len (ui.teams u))) (ui.currentTeam u).
Proof.
  revert u. induction nets as [|net nets IH]; intros u Hvalid Hteam.
  - exists u. repeat split.
  - destruct (nextTeam_step net Hvalid Hteam)
      as (u1 & Hrun & Hvalid1 & Hteam1 & Hct1 & Hteams1 & _).
    destruct (IH u1 Hvalid1 Hteam1) as (u' & Hloop & Hteams' & Hct').
    exists u'. simpl map. rewrite (@mainLoop_step _ _ _ _ Hrun).
    split; [exact Hloop|]. split; [congruence|].
    rewrite Hct', Hct1, Hteams1. symmetry. apply Nat.iter_succ_r.
Qed.

Lemma prevTeam_steps (nets : list api.Transport) (u : ui.UI) :
  ValidView u -> ValidTeam u ->
  exists u',
    ui.mainLoop (map ui.prevTeam nets) u = Some (None, u')
    /\ ui.teams u' = ui.teams u
    /\ ui.currentTeam u'
       = Nat.iter (List.length nets) (backward (len (ui.teams u))) (ui.currentTeam u).
Proof.
  revert u. induction nets as [|net nets IH]; intros u Hvalid Hteam.
  - exists u. repeat split.
  - destruct (prevTeam_step net Hvalid Hteam)
      as (u1 & Hrun & Hvalid1 & Hteam1 & Hct1 & Hteams1 & _).
    destruct (IH u1 Hvalid1 Hteam1) as (u' & Hloop & Hteams' & Hct').
    exists u'. simpl map. rewrite (@mainLoop_step _ _ _ _ Hrun).
    split; [exact Hloop|]. split; [congruence|].
    rewrite Hct', Hct1, Hteams1. symmetry. apply Nat.iter_succ_r.
Qed.

(** C5.  In a dashboard in use, six next-view steps bring the status
    view back to where it was, and so do six prev-view steps; with a
    current team in the roster, as many next-team (or prev-team) steps
    as there are teams bring the team position back, whatever the
    remote service answers on the way; and every single step lands on
    a view position between 0 and 5 and on a team position between 0
    and [len(teams) - 1]. *)
Theorem cyclic_navigation (u : ui.UI) :
  ValidView u ->
  (exists u', ui.mainLoop (repeat ui.nextView 6) u = Some (None, u')
              /\ ui.currentView u' = ui.currentView u
              /\ statusViewOf u' = statusViewOf u)
  /\ (exists u', ui.mainLoop (repeat ui.prevView 6) u = Some (None, u')
                 /\ ui.currentView u' = ui.currentView u
                 /\ statusViewOf u' = statusViewOf u)
  /\ (exists u', ui.nextView u = Some (None, u')
                 /\ 0 <= ui.currentView u' <= 5
                 /\ ui.currentView u' = (ui.currentView u + 1) mod 6)
  /\ (exists u', ui.prevView u = Some (None, u')
                 /\ 0 <= ui.currentView u' <= 5
                 /\ ui.currentView u' = (ui.currentView u - 1) mod 6)
  /\ (ValidTeam u ->
      (forall nets, List.length nets = List.length (ui.teams u) ->
         exists u', ui.mainLoop (map ui.nextTeam nets) u = Some (None, u')
                    /\ ui.currentTeam u' = ui.currentTeam u)
      /\ (forall nets, List.length nets = List.length (ui.teams u) ->
            exists u', ui.mainLoop (map ui.prevTeam nets) u = Some (None, u')
                       /\ ui.currentTeam u' = ui.currentTeam u)
      /\ (forall net,
            exists u', ui.nextTeam net u = Some (None, u')
                       /\ 0 <= ui.currentTeam u' <= len (ui.teams u') - 1
                       /\ ui.currentTeam u'
                          = (ui.currentTeam u + 1) mod len (ui.teams u))
      /\ (forall net,
            exists u', ui.prevTeam net u = Some (None, u')
                       /\ 0 <= ui.currentTeam u' <= len (ui.teams u') - 1
                       /\ ui.currentTeam u'
                          = (ui.currentTeam u - 1) mod len (ui.teams u))).
Proof.
  intros Hvalid. pose proof Hvalid as [Hviews Hcv].
  split.
  { destruct (nextView_steps 6 Hvalid) as (u' & Hloop & [Hviews' _] & Hcv').
    exists u'. split; [exact Hloop|].
    rewrite full_turn_forward in Hcv' by (try exact Hcv; reflexivity).
    split; [exact Hcv'|]. unfold statusViewOf. now rewrite Hcv', Hviews', Hviews. }
  split.
  { destruct (prevView_steps 6 Hvalid) as (u' & Hloop & [Hviews' _] & Hcv').
    exists u'. split; [exact Hloop|].
    rewrite full_turn_backward in Hcv' by (try exact Hcv; reflexivity).
    split; [exact Hcv'|]. unfold statusViewOf. now rewrite Hcv', Hviews', Hviews. }
  split.
  { destruct (nextView_step Hvalid) as (u' & Hrun & [_ Hin] & Hcv' & _).
    exists u'. split; [exact Hrun|]. split; [lia|].
    rewrite Hcv'. now apply forward_mod. }
  split.
  { destruct (prevView_step Hvalid) as (u' & Hrun & [_ Hin] & Hcv' & _).
    exists u'. split; [exact Hrun|]. split; [lia|].
    rewrite Hcv'. now apply backward_mod. }
  intros Hteam. pose proof Hteam as [Hct Hlen].
  split.
  { intros nets Hnets.
    destruct (nextTeam_steps nets Hvalid Hteam) as (u' & Hloop & _ & Hct').
    exists u'. split; [exact Hloop|]. rewrite Hct'.
    apply full_turn_forward; [exact Hct | unfold len; now rewrite Hnets]. }
  split.
  { intros nets Hnets.
    destruct (prevTeam_steps nets Hvalid Hteam) as (u' & Hloop & _ & Hct').
    exists u'. split; [exact Hloop|]. rewrite Hct'.
    apply full_turn_backward; [exact Hct | unfold len; now rewrite Hnets]. }
  split.
  { intros net.
    destruct (nextTeam_step net Hvalid Hteam)
      as (u' & Hrun & _ & [Hin _] & Hct' & _).
    exists u'. split; [exact Hrun|]. split; [lia|].
    rewrite Hct'. now apply forward_mod. }
  { intros net.
    destruct (prevTeam_step net Hvalid Hteam)
      as (u' & Hrun & _ & [Hin _] & Hct' & _).
    exists u'. split; [exact Hrun|]. split; [lia|].
    rewrite Hct'. now apply backward_mod. }
Qed.

(** The six views are an invariant: [NewUI] starts on one of them
    ([NewUI_valid] below) and no handler leaves them. *)
Lemma handlers_keep_view (u : ui.UI) :
  ValidView u ->
  (forall net, KeepsView (ui.refreshIssues net) u)
  /\ KeepsView ui.toggleAssigned u
  /\ KeepsView ui.toggleHelp u
  /\ KeepsView ui.toggleSearch u
  /\ (forall v, KeepsView (ui.closeSearch v) u)
  /\ (forall v, KeepsView (ui.cancelSearch v) u)
  /\ KeepsView ui.prevView u
  /\ KeepsView ui.nextView u
  /\ (forall net, KeepsView (ui.prevTeam net) u)
  /\ (forall net, KeepsView (ui.nextTeam net) u)
  /\ (forall os, KeepsView (ui.copyURL os) u)
  /\ (forall os, KeepsView (ui.copyBranch os) u)
  /\ (forall view, KeepsView (ui.selectIssue (Some view)) u).
Proof.
  intros Hvalid.
  destruct (ValidView_statusView Hvalid) as [statusView Hv].
  assert (Hrefresh : forall net w,
             ui.views w = ui.views u -> ui.currentView w = ui.currentView u ->
             KeepsView (ui.refreshIssues net) w).
  { intros net w Hviews Hcv.
    assert (Hw : statusViewOf w = Some statusView)
      by (unfold statusViewOf in *; now rewrite Hviews, Hcv).
    do 2 eexists. split; [apply (refreshIssues_run net w Hw)|].
    unfold ValidView. simpl. rewrite Hviews, Hcv. exact Hvalid. }
  split; [intros net; now apply Hrefresh|].
  split; [do 2 eexists; split; [apply (toggleAssigned_run u Hv) | exact Hvalid]|].
  split; [do 2 eexists; split; [reflexivity | exact Hvalid]|].
  split; [do 2 eexists; split; [reflexivity | exact Hvalid]|].
  split.
  { intros [view|].
    - do 2 eexists. split; [apply (closeSearch_run view u Hv) | exact Hvalid].
    - do 2 eexists. split; [apply closeSearch_nil | exact Hvalid]. }
  split; [intros v; do 2 eexists; split;
          [apply (cancelSearch_run v u Hv) | exact Hvalid]|].
  split.
  { destruct (prevView_step Hvalid) as (u' & Hrun & Hvalid' & _).
    do 2 eexists. split; [exact Hrun | exact Hvalid']. }
  split.
  { destruct (nextView_step Hvalid) as (u' & Hrun & Hvalid' & _).
    do 2 eexists. split; [exact Hrun | exact Hvalid']. }
  split.
  { intros net. destruct (ui.teams u) as [|t teams] eqn:Hteams.
    - do 2 eexists. split; [apply prevTeam_empty, Hteams | exact Hvalid].
    - unfold KeepsView. rewrite prevTeam_run by (rewrite Hteams; discriminate).
      now apply Hrefresh. }
  split.
  { intros net. destruct (ui.teams u) as [|t teams] eqn:Hteams.
    - do 2 eexists. split; [apply nextTeam_empty, Hteams | exact Hvalid].
    - unfold KeepsView. rewrite nextTeam_run by (rewrite Hteams; discriminate).
      now apply Hrefresh. }
  split.
  { intros os. destruct (copy_leaves_state_aux os u) as [[err Hrun] _].
    do 2 eexists. split; [exact Hrun | exact Hvalid]. }
  split.
  { intros os. destruct (copy_leaves_state_aux os u) as [_ [err Hrun]].
    do 2 eexists. split; [exact Hrun | exact Hvalid]. }
  intros view.
  unfold KeepsView, ui.selectIssue, ui.bind, ui.orPanic, ui.get, ui.modify, ui.ret.
  destruct ((snd (gocui.Cursor view) >=? 0)
            && (snd (gocui.Cursor view) <? len (ui.issues u)));
    do 2 eexists; (split; [reflexivity | exact Hvalid]).
Qed.
End Navigation.

(* ================================================================= *)
(** * The status sort of [GetIssues] *)

Section StableSort.
Variable A : Type.
Variable key : A -> Z.
Variable less : A -> A -> bool.
Hypothesis less_key : forall a b, less a b = (key a <? key b).

Let ordered (a b : A) : Prop := key a <= key b.
Let hasKey (r : Z) (a : A) : bool := key a =? r.

Lemma insert_Permutation (x : A) (l : list A) :
  Permutation (sort.insert less x l) (x :: l).
Proof.
  induction l as [|y l IH]; simpl.
  - apply Permutation_refl.
  - destruct (less y x).
    + apply Permutation_trans with (y :: x :: l).
      * apply perm_skip, IH.
      * apply perm_swap.
    + apply Permutation_refl.
Qed.

Lemma SliceStable_Permutation (l : list A) :
  Permutation (sort.SliceStable less l) l.
Proof.
  induction l as [|x l IH]; simpl.
  - apply perm_nil.
  - apply Permutation_trans with (x :: sort.SliceStable less l).
    + apply insert_Permutation.
    + apply perm_skip, IH.
Qed.

Lemma insert_sorted (x : A) (l : list A) :
  StronglySorted ordered l -> StronglySorted ordered (sort.insert less x l).
Proof.
  induction 1 as [|y l Hsorted IH Hall]; simpl.
  - repeat constructor.
  - rewrite less_key. destruct (Z.ltb_spec (key y) (key x)) as [Hlt|Hge].
    + constructor; [exact IH|].
      apply (Permutation_Forall (Permutation_sym (insert_Permutation x l))).
      constructor; [unfold ordered; lia | exact Hall].
    + constructor; [constructor; assumption|].
      constructor; [exact Hge|].
      apply (Forall_impl _ (P := ordered y)); [|exact Hall].
      intros z Hz. unfold ordered in *. lia.
Qed.

Lemma SliceStable_sorted (l : list A) :
  StronglySorted ordered (sort.SliceStable less l).
Proof.
  induction l as [|x l IH]; simpl.
  - constructor.
  - apply insert_sorted, IH.
Qed.

(** Insertion moves [x] only past elements of another key. *)
Lemma insert_stable (r : Z) (x : A) (l : list A) :
  filter (hasKey r) (sort.insert less x l) = filter (hasKey r) (x :: l).
Proof.
  induction l as [|y l IH]; [reflexivity|].
  simpl sort.insert. rewrite less_key.
  destruct (Z.ltb_spec (key y) (key x)) as [Hlt|Hge]; [|reflexivity].
  simpl filter in *. rewrite IH. unfold hasKey.
  destruct (Z.eqb_spec (key y) r), (Z.eqb_spec (key x) r);
    try reflexivity; lia.
Qed.

Lemma SliceStable_stable (r : Z) (l : list A) :
  filter (hasKey r) (sort.SliceStable less l) = filter (hasKey r) l.
Proof.
  induction l as [|x l IH]; [reflexivity|].
  simpl sort.SliceStable. rewrite insert_stable. simpl. now rewrite IH.
Qed.

Lemma filter_head_key (r : Z) (b : A) (l l' : list A) :
  filter (hasKey r) l = b :: l' -> exists z, In z l /\ key z = r.
Proof.
  intros Hf. assert (Hin : In b (filter (hasKey r) l)) by (rewrite Hf; now left).
  apply filter_In in Hin. destruct Hin as [Hin Hk].
  exists b. split; [exact Hin | now apply Z.eqb_eq].
Qed.

Lemma sorted_head_least (a : A) (l : list A) (z : A) :
  StronglySorted ordered (a :: l) -> In z (a :: l) -> key a <= key z.
Proof.
  intros Hs Hin. apply StronglySorted_inv in Hs. destruct Hs as [_ Hall].
  destruct Hin as [->|Hin]; [lia|].
  rewrite Forall_forall in Hall. exact (Hall z Hin).
Qed.

(** Two lists sorted by key that agree key by key are the same list. *)
Lemma sorted_same_filters (l1 l2 : list A) :
  StronglySorted ordered l1 -> StronglySorted ordered l2 ->
  (forall r, filter (hasKey r) l1 = filter (hasKey r) l2) ->
  l1 = l2.
Proof.
  revert l2. induction l1 as [|a t1 IH]; intros l2 Hs1 Hs2 Hsame.
  - destruct l2 as [|b t2]; [reflexivity|].
    specialize (Hsame (key b)). simpl in Hsame. unfold hasKey in Hsame.
    rewrite Z.eqb_refl in Hsame. discriminate.
  - destruct l2 as [|b t2].
    + specialize (Hsame (key a)). simpl in Hsame. unfold hasKey in Hsame.
      rewrite Z.eqb_refl in Hsame. discriminate.
    + assert (Hab : key a <= key b).
      { pose proof (Hsame (key b)) as Hb. simpl in Hb.
        replace (hasKey (key b) b) with true in Hb
          by (unfold hasKey; symmetry; apply Z.eqb_refl).
        destruct (@filter_head_key (key b) b (a :: t1) _ Hb) as (z & Hin & Hz).
        rewrite <- Hz. exact (sorted_head_least Hs1 Hin). }
      assert (Hba : key b <= key a).
      { pose proof (Hsame (key a)) as Ha. simpl in Ha.
        replace (hasKey (key a) a) with true in Ha
          by (unfold hasKey; symmetry; apply Z.eqb_refl).
        symmetry in Ha.
        destruct (@filter_head_key (key a) a (b :: t2) _ Ha) as (z & Hin & Hz).
        rewrite <- Hz. exact (sorted_head_least Hs2 Hin). }
      assert (Hkey : key a = key b) by lia.
      pose proof (Hsame (key a)) as Hhead. simpl in Hhead.
      replace (hasKey (key a) a) with true in Hhead
        by (unfold hasKey; symmetry; apply Z.eqb_refl).
      replace (hasKey (key a) b) with true in Hhead
        by (unfold hasKey; rewrite Hkey; symmetry; apply Z.eqb_refl).
      injection Hhead as Heq Htail.
      subst b. f_equal.
      apply StronglySorted_inv in Hs1, Hs2.
      apply IH; [apply Hs1 | apply Hs2 |].
      intros r. specialize (Hsame r). simpl in Hsame.
      destruct (hasKey r a); [now injection Hsame | exact Hsame].
Qed.

(** The contract of a stable sort fixes its result. *)
Lemma stable_sort_unique (l l' : list A) :
  StronglySorted ordered l' ->
  (forall r, filter (hasKey r) l' = filter (hasKey r) l) ->
  l' = sort.SliceStable less l.
Proof.
  intros Hs Hsame. apply sorted_same_filters.
  - exact Hs.
  - apply SliceStable_sorted.
  - intros r. now rewrite Hsame, SliceStable_stable.
Qed.
End StableSort.

(** The comparison of [GetIssues] is the comparison of the ranks. *)
Lemma mapIndex_stateOrder (name : string) :
  (let '(order, ok) := api.mapIndex api.stateOrder name in
   if negb ok then 999 else order) = statusRank name.
Proof.
  unfold statusRank, api.stateOrder, api.mapIndex.
  destruct (String.eqb name "In Review"); [reflexivity|].
  destruct (String.eqb name "In Progress"); [reflexivity|].
  destruct (String.eqb name "Blocked"); [reflexivity|].
  destruct (String.eqb name "Todo"); [reflexivity|].
  destruct (String.eqb name "Backlog"); reflexivity.
Qed.

Lemma lessIssue_rank (a b : api.Issue.t) :
  api.lessIssue a b = (issueRank a <? issueRank b).
Proof.
  unfold api.lessIssue, issueRank.
  rewrite <- (mapIndex_stateOrder (api.State.Name (api.Issue.State a))).
  rewrite <- (mapIndex_stateOrder (api.State.Name (api.Issue.State b))).
  destruct (api.mapIndex api.stateOrder (api.State.Name (api.Issue.State a))).
  destruct (api.mapIndex api.stateOrder (api.State.Name (api.Issue.State b))).
  reflexivity.
Qed.

Lemma statusRank_other (name : string) :
  ~ In name ["In Review"; "In Progress"; "Blocked"; "Todo"; "Backlog"] ->
  statusRank name = 999.
Proof.
  intros Hout. unfold statusRank.
  repeat match goal with
         | |- context [String.eqb name ?s] =>
           destruct (String.eqb_spec name s) as [->|_];
             [exfalso; apply Hout; simpl; tauto|]
         end.
  reflexivity.
Qed.

(** C3.  When the remote answer is decoded, [GetIssues] returns the
    decoded issues stably sorted by status rank (In Review 0, In
    Progress 1, Blocked 2, Todo 3, Backlog 4, anything else 999): the
    same issues, in non-decreasing rank, those of equal rank in fetch
    order.  Four issues fetched as Todo, Blocked, Todo, In Review come
    out as In Review, Blocked, Todo, Todo, the first Todo before the
    second. *)
Theorem GetIssues_stably_sorted
        (net : api.Transport) (c : api.Client) (teamID : string)
        (nodes : list api.Issue.t) :
  api.RunIssues net (api.issuesRequest c teamID) = api.Decoded nodes ->
  exists sorted,
    api.GetIssues net c teamID = (sorted, None)
    /\ Permutation sorted nodes
    /\ StronglySorted (fun a b => issueRank a <= issueRank b) sorted
    /\ (forall r, filter (hasRank r) sorted = filter (hasRank r) nodes)
    /\ (forall a b, api.lessIssue a b = (issueRank a <? issueRank b))
    /\ (statusRank "In Review" = 0 /\ statusRank "In Progress" = 1
        /\ statusRank "Blocked" = 2 /\ statusRank "Todo" = 3
        /\ statusRank "Backlog" = 4
        /\ forall name,
            ~ In name ["In Review"; "In Progress"; "Blocked"; "Todo"; "Backlog"] ->
            statusRank name = 999)
    /\ (forall i1 i2 i3 i4,
           nodes = [i1; i2; i3; i4] ->
           map (fun i => api.State.Name (api.Issue.State i)) nodes
           = ["Todo"; "Blocked"; "Todo"; "In Review"] ->
           sorted = [i4; i2; i1; i3]).
Proof.
  intros Hrun. exists (sort.SliceStable api.lessIssue nodes).
  split; [unfold api.GetIssues; now rewrite Hrun|].
  split; [apply SliceStable_Permutation|].
  split; [apply (@SliceStable_sorted _ issueRank _ lessIssue_rank)|].
  split; [intros r; apply (@SliceStable_stable _ issueRank _ lessIssue_rank)|].
  split; [exact lessIssue_rank|].
  split; [repeat split; try reflexivity; apply statusRank_other|].
  intros i1 i2 i3 i4 -> Hst. injection Hst as H1 H2 H3 H4.
  assert (R1 : issueRank i1 = 3) by (unfold issueRank; now rewrite H1).
  assert (R2 : issueRank i2 = 2) by (unfold issueRank; now rewrite H2).
  assert (R3 : issueRank i3 = 3) by (unfold issueRank; now rewrite H3).
  assert (R4 : issueRank i4 = 0) by (unfold issueRank; now rewrite H4).
  cbn [sort.SliceStable sort.insert].
  repeat (rewrite lessIssue_rank, ?R1, ?R2, ?R3, ?R4;
          match goal with
          | |- context [?a <? ?b] =>
            let v := eval vm_compute in (a <? b) in change (a <? b) with v
          end;
          cbn [sort.insert]).
  reflexivity.
Qed.

(* ================================================================= *)
(** * The initials of the issue list *)

Lemma flush_nonempty (cur : option string) :
  (forall t, cur = Some t -> t <> "") ->
  Forall (fun t => t <> "") (strings.flush cur).
Proof.
  intros Hcur. destruct cur as [t|]; simpl; [|constructor].
  constructor; [now apply Hcur | constructor].
Qed.

Lemma extend_nonempty (cur : option string) (c : ascii) (chunk : string) :
  forall t, strings.extend cur (String c chunk) = Some t -> t <> "".
Proof.
  intros t. destruct cur as [t0|]; simpl; intros Ht; injection Ht as <-.
  - destruct t0; discriminate.
  - discriminate.
Qed.

Lemma fieldsASCII_nonempty (s : string) (cur : option string) :
  (forall t, cur = Some t -> t <> "") ->
  Forall (fun t => t <> "") (strings.fieldsASCII s cur).
Proof.
  revert cur. induction s as [|c s IH]; intros cur Hcur; simpl.
  - now apply flush_nonempty.
  - destruct (strings.asciiSpace c).
    + apply Forall_app. split; [now apply flush_nonempty|].
      apply IH. discriminate.
    + apply IH. apply extend_nonempty.
Qed.

(** Decoding consumes at least one byte of a string that has one. *)
Lemma DecodeRuneInString_width (c : ascii) (s : string) :
  (1 <= snd (utf8.DecodeRuneInString (String c s)))%nat.
Proof.
  unfold utf8.DecodeRuneInString.
  repeat match goal with
         | |- context [if ?b then _ else _] => destruct b
         | |- context [match ?x with EmptyString => _ | String _ _ => _ end] =>
           destruct x
         | |- context [utf8.acceptRange ?b] => destruct (utf8.acceptRange b)
         end; simpl; lia.
Qed.

Lemma fieldsLoop_nonempty (f : Z -> bool) (fuel : nat) (s : string)
      (cur : option string) :
  (forall t, cur = Some t -> t <> "") ->
  Forall (fun t => t <> "") (strings.fieldsLoop f fuel s cur).
Proof.
  revert s cur. induction fuel as [|fuel IH]; intros s cur Hcur; simpl.
  - now apply flush_nonempty.
  - destruct s as [|c s]; [now apply flush_nonempty|].
    pose proof (DecodeRuneInString_width c s) as Hw.
    destruct (utf8.DecodeRuneInString (String c s)) as [r size].
    simpl in Hw. destruct size as [|size]; [lia|].
    destruct (f r).
    + apply Forall_app. split; [now apply flush_nonempty|].
      apply IH. discriminate.
    + apply IH. simpl strings.takeS. apply extend_nonempty.
Qed.

(** The loop over the runes never runs out of fuel before the string
    ends: more fuel changes nothing. *)
Lemma dropS_length (n : nat) (s : string) :
  (String.length (strings.dropS n s) <= String.length s - n)%nat.
Proof.
  revert s. induction n as [|n IH]; intros s; simpl.
  - lia.
  - destruct s as [|c s]; simpl; [lia | apply IH].
Qed.

Lemma fieldsLoop_fuel (f : Z -> bool) (fuel : nat) (s : string)
      (cur : option string) :
  (String.length s <= fuel)%nat ->
  strings.fieldsLoop f fuel s cur
  = strings.fieldsLoop f (String.length s) s cur.
Proof.
  remember (String.length s) as n eqn:Hn.
  revert fuel s cur Hn.
  induction n as [n IH] using lt_wf_ind. intros fuel s cur Hn Hfuel.
  destruct s as [|c s].
  - subst n. destruct fuel; reflexivity.
  - simpl in Hn. subst n. destruct fuel as [|fuel]; [lia|].
    cbn [strings.fieldsLoop].
    pose proof (DecodeRuneInString_width c s) as Hw.
    destruct (utf8.DecodeRuneInString (String c s)) as [r size].
    simpl in Hw. destruct size as [|size]; [lia|].
    pose proof (dropS_length size s) as Hd. simpl strings.dropS.
    assert (Hstep : forall cur',
      strings.fieldsLoop f fuel (strings.dropS size s) cur'
      = strings.fieldsLoop f (String.length s) (strings.dropS size s) cur').
    { intros cur'.
      rewrite (IH (String.length (strings.dropS size s))) with (fuel := fuel);
        try reflexivity; try lia.
      rewrite (IH (String.length (strings.dropS size s)))
        with (fuel := String.length s); try reflexivity; lia. }
    now rewrite !Hstep.
Qed.

Lemma Fields_nonempty (s : string) :
  Forall (fun t => t <> "") (strings.Fields s).
Proof.
  unfold strings.Fields, strings.FieldsFunc. destruct (strings.isASCII s).
  - apply fieldsASCII_nonempty. discriminate.
  - apply fieldsLoop_nonempty. discriminate.
Qed.

Lemma stringOfByte_ascii (c : ascii) :
  byteZ c < 128 -> stringOfByte c = String c EmptyString.
Proof.
  intros Hc. unfold stringOfByte.
  destruct (Z.ltb_spec (byteZ c) 128); [reflexivity | lia].
Qed.

(** What the loop body computes, by the shape of the fields. *)
Lemma initials_none (issue : api.Issue.t) :
  strings.Fields (api.Assignee.Name (api.Issue.Assignee issue)) = [] ->
  ui.initials issue = Some "--".
Proof.
  intros Hf. unfold ui.initials. rewrite Hf.
  destruct (negb _); reflexivity.
Qed.

Lemma Fields_empty_name : strings.Fields "" = [].
Proof. reflexivity. Qed.

Lemma initials_fields (issue : api.Issue.t) (p0 : string) (more : list string) :
  strings.Fields (api.Assignee.Name (api.Issue.Assignee issue)) = p0 :: more ->
  ui.initials issue
  = let parts := p0 :: more in
    if len parts >=? 2 then
      ui.obind (index parts 0) (fun p0 =>
      ui.obind (index parts 1) (fun p1 =>
      ui.obind (byteAt p0 0) (fun b0 =>
      ui.obind (byteAt p1 0) (fun b1 =>
      Some (String.append (stringOfByte b0) (stringOfByte b1))))))
    else if len parts =? 1 then
      ui.obind (index parts 0) (fun p0 =>
      if slen p0 >=? 2 then
        ui.obind (byteAt p0 0) (fun b0 =>
        ui.obind (byteAt p0 1) (fun b1 =>
        Some (String.append (stringOfByte b0) (stringOfByte b1))))
      else Some p0)
    else Some "--".
Proof.
  intros Hf. unfold ui.initials.
  destruct (String.eqb_spec (api.Assignee.Name (api.Issue.Assignee issue)) "")
    as [Hname|Hname].
  - rewrite Hname, Fields_empty_name in Hf. discriminate.
  - simpl negb. cbv iota. now rewrite Hf.
Qed.

Lemma len_two {A : Type} (a b : A) (l : list A) :
  (len (a :: b :: l) >=? 2) = true.
Proof. unfold len. simpl List.length. apply Z.geb_le. lia. Qed.

Lemma initials_two (issue : api.Issue.t) (c0 c1 : ascii) (r0 r1 : string)
      (more : list string) :
  strings.Fields (api.Assignee.Name (api.Issue.Assignee issue))
  = String c0 r0 :: String c1 r1 :: more ->
  ui.initials issue = Some (String.append (stringOfByte c0) (stringOfByte c1)).
Proof.
  intros Hf. rewrite (initials_fields issue Hf). cbv zeta.
  rewrite len_two. reflexivity.
Qed.

Lemma initials_one_long (issue : api.Issue.t) (c0 c1 : ascii) (rest : string) :
  strings.Fields (api.Assignee.Name (api.Issue.Assignee issue))
  = [String c0 (String c1 rest)] ->
  ui.initials issue = Some (String.append (stringOfByte c0) (stringOfByte c1)).
Proof.
  intros Hf. rewrite (initials_fields issue Hf). cbv zeta.
  change (len [String c0 (String c1 rest)] >=? 2) with false.
  change (len [String c0 (String c1 rest)] =? 1) with true.
  cbv iota. unfold index. simpl ui.obind.
  assert (Hlen : (slen (String c0 (String c1 rest)) >=? 2) = true).
  { unfold slen. simpl String.length. apply Z.geb_le. lia. }
  rewrite Hlen. reflexivity.
Qed.

Lemma initials_one_short (issue : api.Issue.t) (c : ascii) :
  strings.Fields (api.Assignee.Name (api.Issue.Assignee issue))
  = [String c EmptyString] ->
  ui.initials issue = Some (String c EmptyString).
Proof.
  intros Hf. rewrite (initials_fields issue Hf). reflexivity.
Qed.

(** The loop body never panics: the fields are never empty. *)
Lemma initials_total (issue : api.Issue.t) :
  exists s, ui.initials issue = Some s.
Proof.
  pose proof (Fields_nonempty (api.Assignee.Name (api.Issue.Assignee issue))) as Hne.
  destruct (strings.Fields (api.Assignee.Name (api.Issue.Assignee issue)))
    as [|p0 [|p1 more]] eqn:Hf.
  - eexists. apply initials_none, Hf.
  - apply Forall_inv in Hne. destruct p0 as [|c0 [|c1 rest]]; [congruence| |].
    + eexists. apply initials_one_short, Hf.
    + eexists. apply (initials_one_long issue Hf).
  - pose proof (Forall_inv Hne) as Hp0.
    pose proof (Forall_inv (Forall_inv_tail Hne)) as Hp1.
    destruct p0 as [|c0 r0]; [congruence|].
    destruct p1 as [|c1 r1]; [congruence|].
    eexists. apply (initials_two issue Hf).
Qed.

(** C9, amended.  The initials printed for an issue are always defined,
    and: "--" when the assignee is absent, when the name is empty and
    when it has no field; for a name of two fields or more whose first
    two fields start with ASCII bytes, the first byte of each of the two;
    for a name of a single field, that field itself when it is one byte
    long, and its first two bytes when it is longer and they are
    ASCII.  Fields are the runs between white space of
    [strings.Fields]. *)
Theorem initials_of_assignee (issue : api.Issue.t) :
  let name := api.Assignee.Name (api.Issue.Assignee issue) in
  (exists s, ui.initials issue = Some s)
  /\ (Unassigned issue -> ui.initials issue = Some "--")
  /\ (name = "" -> ui.initials issue = Some "--")
  /\ (strings.Fields name = [] -> ui.initials issue = Some "--")
  /\ (forall c,
         strings.Fields name = [String c EmptyString] ->
         ui.initials issue = Some (String c EmptyString))
  /\ (forall c0 c1 rest,
         strings.Fields name = [String c0 (String c1 rest)] ->
         byteZ c0 < 128 -> byteZ c1 < 128 ->
         ui.initials issue = Some (String c0 (String c1 EmptyString)))
  /\ (forall c0 r0 c1 r1 more,
         strings.Fields name = String c0 r0 :: String c1 r1 :: more ->
         byteZ c0 < 128 -> byteZ c1 < 128 ->
         ui.initials issue = Some (String c0 (String c1 EmptyString))).
Proof.
  intros name. subst name.
  split; [apply initials_total|].
  split.
  { intros Hnone. unfold Unassigned in Hnone. apply initials_none.
    now rewrite Hnone. }
  split.
  { intros Hname. apply initials_none. now rewrite Hname. }
  split; [apply initials_none|].
  split; [intros c; apply initials_one_short|].
  split.
  - intros c0 c1 rest Hf H0 H1. rewrite (initials_one_long issue Hf).
    now rewrite !stringOfByte_ascii.
  - intros c0 r0 c1 r1 more Hf H0 H1. rewrite (initials_two issue Hf).
    now rewrite !stringOfByte_ascii.
Qed.

(* ================================================================= *)
(** * The dashboard at start *)

(** [NewUI] always builds a struct, on the first of the six views, with
    nothing selected, no filter set and every fetched issue listed. *)
Lemma NewUI_valid (net : api.Transport) (cl : option api.Client) :
  exists u,
    ui.NewUI net cl = Some u
    /\ ValidView u
    /\ ui.selectedIssue u = -1
    /\ ui.currentTeam u = 0
    /\ ui.issues u = ui.allIssues u
    /\ ui.assignedToMe u = false /\ ui.searchString u = "".
Proof.
  unfold ui.NewUI. destruct cl as [c|].
  - destruct (api.GetTeams net c) as [fetchedTeams [e|]].
    + simpl. destruct (api.GetIssues net c "") as [fetchedIssues apiErr].
      eexists. split; [reflexivity|].
      repeat split; simpl; lia.
    + destruct fetchedTeams as [|t teams].
      * simpl. destruct (api.GetIssues net c "") as [fetchedIssues apiErr].
        eexists. split; [reflexivity|]. repeat split; simpl; lia.
      * change (len (t :: teams) >? 0) with true. cbv iota.
        unfold index. simpl ui.obind.
        destruct (api.GetIssues net c (api.Team.ID t)) as [fetchedIssues apiErr].
        eexists. split; [reflexivity|]. repeat split; simpl; lia.
  - eexists. split; [reflexivity|]. repeat split; simpl; lia.
Qed.

(* ================================================================= *)
(** * Examples *)

Module Examples.
Import Sample.

(** C1 at a dashboard on "Todo" with both other filters on: one issue
    of four is retained. *)
Lemma filterIssues_retains_exactly_witness :
  statusViewOf todoMineLogin = Some "Todo"
  /\ exists derived,
      @ui.filterIssues strings.asciiTables todoMineLogin
      = Some (derived, todoMineLogin)
      /\ derived = [i1]
      /\ Subsequence derived all4.
Proof.
  split; [reflexivity|].
  destruct (@filterIssues_retains_exactly strings.asciiTables todoMineLogin
              "Todo" eq_refl) as (derived & Hrun & Hd & Hsub & _).
  exists derived. split; [exact Hrun|]. split; [rewrite Hd; reflexivity|].
  exact Hsub.
Defined.

(** C2, amended, at a dashboard whose viewer is known: the issue
    without assignee is not listed under "my issues". *)
Lemma unassigned_dropped_witness :
  statusViewOf mine = Some "All"
  /\ ui.assignedToMe mine = true
  /\ ui.viewerID mine <> ""
  /\ Unassigned i2
  /\ exists derived,
      @ui.filterIssues strings.asciiTables mine = Some (derived, mine)
      /\ ~ In i2 derived.
Proof.
  assert (Hviewer : ui.viewerID mine <> "") by discriminate.
  split; [reflexivity|]. split; [reflexivity|]. split; [exact Hviewer|].
  split; [reflexivity|].
  exact (proj2 (@unassigned_dropped_for_known_viewer strings.asciiTables mine
                  "All" i2 eq_refl eq_refl Hviewer eq_refl)).
Defined.

(** C2 as stated fails when the viewer could not be fetched: the
    dashboard starts with an empty viewer id, and "my issues" then
    lists the issue that has no assignee. *)
Lemma unassigned_kept_for_unknown_viewer :
  let u0 := dashboard sorted4 0 false "" "" roster (-1) in
  exists u1,
    ui.NewUI (viewerDown all4) (Some key) = Some u0
    /\ ui.viewerID u0 = ""
    /\ @ui.toggleAssigned strings.asciiTables u0 = Some (None, u1)
    /\ ui.assignedToMe u1 = true
    /\ Unassigned i2
    /\ ui.issues u1 = [i2]
    /\ In i2 (ui.issues u1).
Proof.
  intros u0.
  exists (ui.set_selectedIssue (-1)
            (ui.set_issues [i2] (ui.set_assignedToMe true u0))).
  split; [reflexivity|]. split; [reflexivity|].
  split; [reflexivity|]. split; [reflexivity|]. split; [reflexivity|].
  split; [reflexivity | left; reflexivity].
Qed.

(** C3 on a service that answers with the four issues. *)
Lemma GetIssues_stably_sorted_witness :
  api.RunIssues (up all4) (api.issuesRequest key "t1") = api.Decoded all4
  /\ exists sorted,
      api.GetIssues (up all4) key "t1" = (sorted, None)
      /\ sorted = [i4; i2; i1; i3].
Proof.
  split; [reflexivity|].
  destruct (@GetIssues_stably_sorted (up all4) key "t1" all4 eq_refl)
    as (sorted & Hrun & _ & _ & _ & _ & _ & Hex).
  exists sorted. split; [exact Hrun|].
  apply (Hex i1 i2 i3 i4); reflexivity.
Defined.

(** C4, amended, at a dashboard with a selection and a roster. *)
Lemma selection_reset_witness :
  ValidView plain
  /\ ui.selectedIssue plain = 1
  /\ ui.teams plain <> []
  /\ ResetsSelection (@ui.refreshIssues strings.asciiTables (up all4)) plain
  /\ ResetsSelection (@ui.nextTeam strings.asciiTables (up all4)) plain.
Proof.
  assert (Hvalid : ValidView plain) by (split; [reflexivity | simpl; lia]).
  assert (Hteams : ui.teams plain <> []) by discriminate.
  destruct (@selection_reset strings.asciiTables plain Hvalid)
    as (Hrefresh & _ & _ & _ & _ & _ & Hteam & _).
  split; [exact Hvalid|]. split; [reflexivity|]. split; [exact Hteams|].
  split; [apply Hrefresh | apply (Hteam Hteams)].
Defined.

(** C4 as stated fails without a roster: the dashboard starts with no
    team, an issue is selected, and next-team returns at once with
    the selection still in place. *)
Lemma next_team_without_roster_keeps_selection :
  let u0 := dashboard sorted4 0 false "u1" "" [] (-1) in
  let u1 := dashboard sorted4 0 false "u1" "" [] 1 in
  ui.NewUI (noTeams all4) (Some key) = Some u0
  /\ ui.teams u0 = []
  /\ ui.selectIssue (Some {| gocui.Buffer := ""; gocui.Cursor := (0, 1) |}) u0
     = Some (None, u1)
  /\ @ui.nextTeam strings.asciiTables (noTeams all4) u1 = Some (None, u1)
  /\ ui.selectedIssue u1 = 1
  /\ ui.selectedIssue u1 <> -1.
Proof.
  intros u0 u1. split; [reflexivity|]. split; [reflexivity|].
  split; [reflexivity|]. split; [reflexivity|].
  split; [reflexivity | discriminate].
Qed.

(** C5 at a dashboard with three teams: a full turn of views and a
    full turn of teams, through a service that goes down on the
    way. *)
Lemma cyclic_navigation_witness :
  ValidView plain /\ ValidTeam plain
  /\ (exists u', @ui.mainLoop (repeat (@ui.nextView strings.asciiTables) 6) plain
                 = Some (None, u')
                 /\ ui.currentView u' = ui.currentView plain)
  /\ (exists u',
         ui.mainLoop
           (map (@ui.nextTeam strings.asciiTables)
                [up all4; down "connection refused"; up all4]) plain
         = Some (None, u')
         /\ ui.currentTeam u' = ui.currentTeam plain).
Proof.
  assert (Hvalid : ValidView plain) by (split; [reflexivity | simpl; lia]).
  assert (Hteam : ValidTeam plain)
    by (unfold ValidTeam, MaxInt, len; simpl; lia).
  destruct (@cyclic_navigation strings.asciiTables plain Hvalid)
    as (Hnext & _ & _ & _ & Hteams).
  destruct (Hteams Hteam) as (Hturn & _).
  split; [exact Hvalid|]. split; [exact Hteam|]. split.
  - destruct Hnext as (u' & Hloop & Hcv & _). exists u'. split; assumption.
  - apply Hturn. reflexivity.
Defined.

(** C6 at a dashboard with no filter, against a service that is
    down. *)
Lemma refresh_failure_placeholder_witness :
  statusViewOf plain = Some "All"
  /\ ui.client plain = Some key
  /\ snd (fetchFor (down "connection refused") key plain)
     = Some "connection refused"
  /\ exists u',
      @ui.refreshIssues strings.asciiTables (down "connection refused") plain
      = Some (None, u')
      /\ ui.allIssues u' = [ui.errorPlaceholder "connection refused"]
      /\ ui.issues u' = [ui.errorPlaceholder "connection refused"]
      /\ ui.selectedIssue u' = -1.
Proof.
  split; [reflexivity|]. split; [reflexivity|]. split; [reflexivity|].
  destruct (@refresh_failure_placeholder strings.asciiTables
              (down "connection refused") plain key "All" "connection refused"
              eq_refl eq_refl eq_refl)
    as (u' & Hrun & Hall & _ & _ & Hsel & Hplain).
  exists u'. split; [exact Hrun|]. split; [exact Hall|].
  split; [apply Hplain; reflexivity | exact Hsel].
Defined.

(** C7, amended, on the view "Blocked": the placeholder is in
    [allIssues] and the list shown is empty. *)
Lemma failed_refresh_placeholder_visibility_witness :
  ValidView blocked
  /\ statusViewOf blocked = Some "Blocked"
  /\ ui.client blocked = Some key
  /\ snd (fetchFor (down "connection refused") key blocked)
     = Some "connection refused"
  /\ exists u',
      @ui.refreshIssues strings.asciiTables (down "connection refused") blocked
      = Some (None, u')
      /\ ui.allIssues u' = [ui.errorPlaceholder "connection refused"]
      /\ (ui.issues u' = [ui.errorPlaceholder "connection refused"]
          \/ ui.issues u' = []).
Proof.
  assert (Hvalid : ValidView blocked) by (split; [reflexivity | simpl; lia]).
  split; [exact Hvalid|].
  split; [reflexivity|]. split; [reflexivity|]. split; [reflexivity|].
  destruct (@failed_refresh_placeholder_visibility strings.asciiTables
              (down "connection refused") blocked key "Blocked"
              "connection refused" Hvalid eq_refl eq_refl eq_refl)
    as (u' & Hrun & Hall & Hcases & _).
  exists u'. split; [exact Hrun|]. split; [exact Hall | exact Hcases].
Defined.

(** C7 as stated fails on any view but "All": a refresh that fails
    while the view is "Blocked" leaves nothing in the list shown. *)
Lemma failed_refresh_shows_nothing_on_blocked :
  let u' := dashboard' [ui.errorPlaceholder "connection refused"] []
                       3 false "u1" "" roster (-1) in
  @ui.refreshIssues strings.asciiTables (down "connection refused") blocked
  = Some (None, u')
  /\ statusViewOf blocked = Some "Blocked"
  /\ ui.allIssues u' = [ui.errorPlaceholder "connection refused"]
  /\ ui.issues u' = [].
Proof.
  intros u'. split; [reflexivity|]. split; [reflexivity|].
  split; reflexivity.
Qed.

(** C8 both ways: with no clipboard program the error comes back,
    with one it does not; the struct is the same in both. *)
Lemma copy_outcomes :
  ui.copyURL noClipboard plain = Some (Some "executable file not found", plain)
  /\ ui.copyURL withXclip plain = Some (None, plain)
  /\ ui.copyBranch noClipboard plain
     = Some (Some "executable file not found", plain)
  /\ ui.copyBranch withXclip plain = Some (None, plain).
Proof. repeat split. Qed.

(** C9, amended, on a name of two fields and on a name of one. *)
Lemma initials_of_assignee_witness :
  strings.Fields "Ada Lovelace" = ["Ada"; "Lovelace"]
  /\ ui.initials (assignedTo "Ada Lovelace") = Some "AL"
  /\ strings.Fields "Alan" = ["Alan"]
  /\ ui.initials (assignedTo "Alan") = Some "Al"
  /\ ui.initials i2 = Some "--".
Proof.
  split; [reflexivity|]. split.
  - destruct (initials_of_assignee (assignedTo "Ada Lovelace"))
      as (_ & _ & _ & _ & _ & _ & Htwo).
    apply (Htwo _ "da" _ "ovelace" []); reflexivity.
  - split; [reflexivity|]. split.
    + destruct (initials_of_assignee (assignedTo "Alan"))
        as (_ & _ & _ & _ & _ & Hone & _).
      apply (Hone _ _ "an"); reflexivity.
    + destruct (initials_of_assignee i2) as (_ & Hnone & _).
      apply Hnone. reflexivity.
Defined.

(** C9 as stated fails in two ways.  A name of one letter gives that
    one letter, not two.  And the bytes picked from the fields are
    converted one by one to strings, so that a first letter outside
    ASCII comes out as other bytes: for "Emile Zola" with an accented
    E (bytes 195 137) the initials are the three bytes 195 131 90,
    neither the first bytes of the two fields (195, 90) nor their
    first letters (195 137, 90). *)
Lemma initials_not_first_letters :
  ui.initials (assignedTo "X") = Some "X"
  /\ String.length "X" <> 2%nat
  /\ strings.Fields emileZola = [bytes [195; 137; 109; 105; 108; 101]; "Zola"]
  /\ ui.initials (assignedTo emileZola) = Some (bytes [195; 131; 90])
  /\ ui.initials (assignedTo emileZola) <> Some (bytes [195; 90])
  /\ ui.initials (assignedTo emileZola) <> Some (bytes [195; 137; 90]).
Proof.
  split; [reflexivity|]. split; [discriminate|].
  split; [reflexivity|]. split; [reflexivity|].
  split; discriminate.
Qed.

(** C10 at a dashboard with a search text: two toggles, one list. *)
Lemma toggleAssigned_twice_witness :
  statusViewOf todoMineLogin = Some "Todo"
  /\ exists u1 u2,
      @ui.toggleAssigned strings.asciiTables todoMineLogin = Some (None, u1)
      /\ @ui.toggleAssigned strings.asciiTables u1 = Some (None, u2)
      /\ ui.assignedToMe u2 = ui.assignedToMe todoMineLogin
      /\ ui.issues u2 = [i1].
Proof.
  split; [reflexivity|].
  destruct (@toggleAssigned_twice strings.asciiTables todoMineLogin "Todo"
              eq_refl)
    as (u1 & u2 & derived & H1 & H2 & _ & Hflag & Hf & Hissues & _).
  exists u1, u2. split; [exact H1|]. split; [exact H2|].
  split; [exact Hflag|]. rewrite Hissues.
  assert (Hd : Some (derived, todoMineLogin) = Some ([i1], todoMineLogin))
    by (rewrite <- Hf; reflexivity).
  now injection Hd.
Defined.

(** The search is blind to case, and the five tracked statuses group
    as the pipeline orders them. *)
Lemma search_ignores_case :
  @passesb strings.asciiTables (dashboard all4 0 false "u1" "login" roster (-1))
           "All" i1 = true
  /\ @passesb strings.asciiTables (dashboard all4 0 false "u1" "zzz" roster (-1))
              "All" i1 = false.
Proof. split; reflexivity. Qed.
End Examples.

(* ================================================================= *)
(** * What every reachable state satisfies *)

Lemma filter_all {A : Type} (f : A -> bool) (l : list A) :
  (forall x, f x = true) -> filter f l = l.
Proof.
  intros Hf. induction l as [|x l IH]; simpl; [reflexivity|].
  now rewrite Hf, IH.
Qed.

Lemma filter_sorted {A : Type} (R : A -> A -> Prop) (f : A -> bool)
      (l : list A) :
  StronglySorted R l -> StronglySorted R (filter f l).
Proof.
  induction 1 as [|x l Hs IH Hall]; simpl; [constructor|].
  destruct (f x); [|exact IH].
  constructor; [exact IH|].
  rewrite Forall_forall in *. intros y Hy. apply filter_In in Hy.
  apply Hall, Hy.
Qed.

Lemma GetIssues_sorted (net : api.Transport) (c : api.Client) (teamID : string) :
  SortedByRank (fst (api.GetIssues net c teamID)).
Proof.
  unfold api.GetIssues.
  destruct (api.RunIssues net (api.issuesRequest c teamID)) as [nodes|err]; simpl.
  - apply (@SliceStable_sorted _ issueRank _ lessIssue_rank).
  - constructor.
Qed.

Lemma singleton_sorted (issue : api.Issue.t) : SortedByRank [issue].
Proof. repeat constructor. Qed.

Lemma GetIssues_error_empty (net : api.Transport) (c : api.Client)
      (teamID : string) (l : list api.Issue.t) (err : string) :
  api.GetIssues net c teamID = (l, Some err) -> l = [].
Proof.
  unfold api.GetIssues.
  destruct (api.RunIssues net (api.issuesRequest c teamID)); intros Hg;
    now injection Hg.
Qed.

Lemma refetched_sorted (net : api.Transport) (u : ui.UI) :
  SortedByRank (ui.allIssues u) -> SortedByRank (refetched net u).
Proof.
  intros Hs. unfold refetched, fetchFor. destruct (ui.client u) as [c|]; [|exact Hs].
  pose proof (GetIssues_sorted net c (currentTeamID u)) as Hg.
  destruct (api.GetIssues net c (currentTeamID u)) as [fetched [err|]].
  - apply singleton_sorted.
  - exact Hg.
Qed.

Section Reachable.
Context `{strings.Tables}.

Lemma Derived_iff (u : ui.UI) (statusView : string) :
  statusViewOf u = Some statusView ->
  Derived u <-> ui.issues u = derive u statusView (ui.allIssues u).
Proof.
  intros Hv. unfold Derived, derive. rewrite (filterIssues_filter u Hv).
  split; intros Heq; [now injection Heq | now rewrite Heq].
Qed.

Lemma Inv_rederived (w : ui.UI) (statusView : string) :
  ValidView w -> statusViewOf w = Some statusView ->
  SortedByRank (ui.allIssues w) ->
  Inv (rederived statusView w).
Proof.
  intros Hvalid Hv Hs. split; [exact Hvalid|]. split.
  - apply (@Derived_iff _ statusView); [exact Hv | reflexivity].
  - split; [left; reflexivity | exact Hs].
Qed.

(** The invariant does not read the two mode flags. *)
Lemma Inv_modes (u u' : ui.UI) :
  ui.issues u' = ui.issues u -> ui.allIssues u' = ui.allIssues u ->
  ui.selectedIssue u' = ui.selectedIssue u ->
  ui.searchString u' = ui.searchString u ->
  ui.assignedToMe u' = ui.assignedToMe u -> ui.viewerID u' = ui.viewerID u ->
  ui.currentView u' = ui.currentView u -> ui.views u' = ui.views u ->
  Inv u -> Inv u'.
Proof.
  intros Hi Ha Hsel Hs Hm Hw Hcv Hvs (Hvalid & Hd & Hsok & Hsorted).
  destruct (ValidView_statusView Hvalid) as [statusView Hv].
  assert (Hv' : statusViewOf u' = Some statusView)
    by (unfold statusViewOf in *; now rewrite Hvs, Hcv).
  split; [unfold ValidView; rewrite Hvs, Hcv; exact Hvalid|].
  split.
  - apply (Derived_iff u' Hv'). apply (Derived_iff u Hv) in Hd.
    rewrite Hi, Ha, Hd. unfold derive. apply filter_ext.
    intros issue. symmetry. now apply passesb_fields.
  - split; [unfold SelectionOK; rewrite Hsel, Hi; exact Hsok|].
    now rewrite Ha.
Qed.

Lemma Inv_selected (u : ui.UI) (cy : Z) :
  0 <= cy < len (ui.issues u) -> Inv u -> Inv (ui.set_selectedIssue cy u).
Proof.
  intros Hcy (Hvalid & Hd & _ & Hs).
  destruct (ValidView_statusView Hvalid) as [statusView Hv].
  split; [exact Hvalid|]. split.
  - apply (@Derived_iff _ statusView); [exact Hv|].
    now apply (Derived_iff u Hv) in Hd.
  - split; [right; exact Hcy | exact Hs].
Qed.

Lemma Inv_refresh (net : api.Transport) (w : ui.UI) :
  ValidView w -> SortedByRank (ui.allIssues w) ->
  exists u', ui.refreshIssues net w = Some (None, u') /\ Inv u'
             /\ ui.teams u' = ui.teams w /\ ui.currentTeam u' = ui.currentTeam w
             /\ ui.client u' = ui.client w.
Proof.
  intros Hvalid Hs.
  destruct (ValidView_statusView Hvalid) as [statusView Hv].
  eexists. split; [apply (refreshIssues_run net w Hv)|].
  split; [|repeat split].
  apply Inv_rederived; [exact Hvalid | exact Hv|].
  simpl. now apply refetched_sorted.
Qed.

(** Every call but [selectIssue] on no view runs to its end from a
    state that satisfies the invariant, and ends in one that does,
    with the same roster and client. *)
Lemma call_runs (c : app.Call) (u : ui.UI) :
  Inv u -> c <> app.SelectIssue None ->
  exists err u',
    app.call c u = Some (err, u') /\ Inv u'
    /\ ui.teams u' = ui.teams u /\ ui.client u' = ui.client u
    /\ ui.views u' = ui.views u
    /\ ui.currentTeam u' = teamAfter c u.
Proof.
  intros Hinv Hc. pose proof Hinv as (Hvalid & Hd & Hsel & Hs).
  destruct (ValidView_statusView Hvalid) as [statusView Hv].
  pose proof Hvalid as [Hviews Hcv].
  assert (Hlen : len (ui.views u) = 6) by (rewrite Hviews; reflexivity).
  destruct c as [|net| | | | | |v|os|os|net|net|v|v]; simpl app.call.
  - exists (Some "quit"), u. split; [reflexivity|]. split; [exact Hinv|].
    repeat split.
  - destruct (Inv_refresh net Hvalid Hs) as (u' & Hrun & Hinv' & Ht & _ & Hcl).
    exists None, u'. split; [exact Hrun|]. split; [exact Hinv'|].
    split; [exact Ht|]. split; [exact Hcl|].
    rewrite (refreshIssues_run net u Hv) in Hrun. injection Hrun as <-.
    split; reflexivity.
  - exists None, (ui.set_showHelp (negb (ui.showHelp u)) u).
    split; [reflexivity|]. split; [|repeat split].
    apply Inv_modes with (u := u); try reflexivity. exact Hinv.
  - eexists. eexists. split; [apply (toggleAssigned_run u Hv)|].
    split; [|repeat split].
    apply (@Inv_rederived (ui.set_assignedToMe (negb (ui.assignedToMe u)) u)
                          statusView); assumption.
  - exists None, (ui.set_showSearch (negb (ui.showSearch u)) u).
    split; [reflexivity|]. split; [|repeat split].
    apply Inv_modes with (u := u); try reflexivity. exact Hinv.
  - assert (Hin : 0 <= backward 6 (ui.currentView u) < len ui.viewNames)
      by (apply backward_range; exact Hcv).
    destruct (index_in_range _ Hin) as [statusView' Hv'].
    assert (Hv2 : statusViewOf
                    (ui.set_currentView (backward 6 (ui.currentView u)) u)
                  = Some statusView')
      by (unfold statusViewOf; simpl; rewrite Hviews; exact Hv').
    exists None,
      (rederived statusView' (ui.set_currentView (backward 6 (ui.currentView u)) u)).
    split.
    + rewrite <- Hlen. apply prevView_run; rewrite ?Hlen; unfold MaxInt; try lia.
      exact Hv2.
    + split; [|repeat split].
      apply Inv_rederived; [|exact Hv2 | exact Hs].
      split; [exact Hviews | simpl; unfold len in Hin; simpl in Hin; lia].
  - assert (Hin : 0 <= forward 6 (ui.currentView u) < len ui.viewNames)
      by (apply forward_range; exact Hcv).
    destruct (index_in_range _ Hin) as [statusView' Hv'].
    assert (Hv2 : statusViewOf
                    (ui.set_currentView (forward 6 (ui.currentView u)) u)
                  = Some statusView')
      by (unfold statusViewOf; simpl; rewrite Hviews; exact Hv').
    exists None,
      (rederived statusView' (ui.set_currentView (forward 6 (ui.currentView u)) u)).
    split.
    + rewrite <- Hlen. apply nextView_run; rewrite ?Hlen; unfold MaxInt; try lia.
      exact Hv2.
    + split; [|repeat split].
      apply Inv_rederived; [|exact Hv2 | exact Hs].
      split; [exact Hviews | simpl; unfold len in Hin; simpl in Hin; lia].
  - destruct v as [view|]; [|congruence].
    unfold ui.selectIssue, ui.bind, ui.orPanic, ui.get, ui.modify, ui.ret.
    destruct ((snd (gocui.Cursor view) >=? 0)
              && (snd (gocui.Cursor view) <? len (ui.issues u))) eqn:Hguard.
    + apply guard_in_range in Hguard.
      exists None, (ui.set_selectedIssue (snd (gocui.Cursor view)) u).
      split; [reflexivity|]. split; [now apply Inv_selected | repeat split].
    + do 2 eexists. split; [reflexivity|]. split; [exact Hinv|]. repeat split.
  - destruct (copy_leaves_state_aux os u) as [[err Hrun] _].
    exists err, u. split; [exact Hrun|]. split; [exact Hinv|]. repeat split.
  - destruct (copy_leaves_state_aux os u) as [_ [err Hrun]].
    exists err, u. split; [exact Hrun|]. split; [exact Hinv|]. repeat split.
  - destruct (ui.teams u) as [|t teams] eqn:Hteams.
    + exists None, u. split; [apply prevTeam_empty, Hteams|].
      split; [exact Hinv|]. unfold teamAfter. rewrite Hteams.
      repeat split; auto.
    + rewrite prevTeam_run by (rewrite Hteams; discriminate).
      match goal with
      | |- context [ui.refreshIssues net ?w] =>
        destruct (@Inv_refresh net w Hvalid Hs) as (u' & Hrun & Hinv' & Ht & _ & Hcl)
      end.
      exists None, u'. rewrite <- Hteams.
      split; [exact Hrun|]. split; [exact Hinv'|].
      split; [exact Ht|]. split; [exact Hcl|].
      match type of Hrun with
      | ui.refreshIssues net ?w = _ =>
        rewrite (@refreshIssues_run _ net w statusView Hv) in Hrun
      end.
      injection Hrun as <-. split; [reflexivity|].
      unfold teamAfter. rewrite Hteams.
      change (len (t :: teams) =? 0) with false. reflexivity.
  - destruct (ui.teams u) as [|t teams] eqn:Hteams.
    + exists None, u. split; [apply nextTeam_empty, Hteams|].
      split; [exact Hinv|]. unfold teamAfter. rewrite Hteams.
      repeat split; auto.
    + rewrite nextTeam_run by (rewrite Hteams; discriminate).
      match goal with
      | |- context [ui.refreshIssues net ?w] =>
        destruct (@Inv_refresh net w Hvalid Hs) as (u' & Hrun & Hinv' & Ht & _ & Hcl)
      end.
      exists None, u'. rewrite <- Hteams.
      split; [exact Hrun|]. split; [exact Hinv'|].
      split; [exact Ht|]. split; [exact Hcl|].
      match type of Hrun with
      | ui.refreshIssues net ?w = _ =>
        rewrite (@refreshIssues_run _ net w statusView Hv) in Hrun
      end.
      injection Hrun as <-. split; [reflexivity|].
      unfold teamAfter. rewrite Hteams.
      change (len (t :: teams) =? 0) with false. reflexivity.
  - destruct v as [view|].
    + eexists. eexists. split; [apply (closeSearch_run view u Hv)|].
      split; [|repeat split].
      apply Inv_modes
        with (u := rederived statusView
                     (ui.set_searchString (strings.TrimSpace (gocui.Buffer view)) u));
        try reflexivity.
      apply Inv_rederived; assumption.
    + exists None, (ui.set_showSearch false u).
      split; [reflexivity|]. split; [|repeat split].
      apply Inv_modes with (u := u); try reflexivity. exact Hinv.
  - eexists. eexists. split; [apply (cancelSearch_run v u Hv)|].
    split; [|repeat split].
    apply Inv_modes with (u := rederived statusView (ui.set_searchString "" u));
      try reflexivity.
    apply Inv_rederived; assumption.
Qed.
End Reachable.

Section ReachableStates.
Context `{strings.Tables}.

Lemma NewUI_Inv (net : api.Transport) (cl : option api.Client) (u : ui.UI) :
  ui.NewUI net cl = Some u ->
  Inv u /\ ui.client u = cl /\ ui.currentTeam u = 0.
Proof.
  assert (Hstart : forall all teams viewer,
             SortedByRank all ->
             let u0 := {| ui.client := cl; ui.issues := all; ui.allIssues := all;
                          ui.selectedIssue := -1; ui.showHelp := false;
                          ui.showSearch := false; ui.searchString := "";
                          ui.assignedToMe := false; ui.viewerID := viewer;
                          ui.currentView := 0; ui.views := ui.viewNames;
                          ui.teams := teams; ui.currentTeam := 0 |} in
             Inv u0 /\ ui.client u0 = cl /\ ui.currentTeam u0 = 0).
  { intros all teams viewer Hs u0. split; [|split; reflexivity].
    split; [split; [reflexivity | simpl; lia]|].
    split; [|split; [left; reflexivity | exact Hs]].
    apply (@Derived_iff _ u0 "All" eq_refl). simpl. unfold derive.
    symmetry. apply filter_all. reflexivity. }
  assert (Hlist : forall fetched apiErr,
             SortedByRank fetched ->
             SortedByRank match apiErr with
                          | None => fetched
                          | Some err => [ui.errorPlaceholder err]
                          end).
  { intros fetched [err|] Hs; [apply singleton_sorted | exact Hs]. }
  unfold ui.NewUI. destruct cl as [c|].
  - destruct (api.GetTeams net c) as [fetchedTeams [e|]].
    + simpl. pose proof (GetIssues_sorted net c "") as Hs.
      destruct (api.GetIssues net c "") as [fetched apiErr].
      intros Hu. injection Hu as <-. apply Hstart. now apply Hlist.
    + destruct fetchedTeams as [|t teams].
      * simpl. pose proof (GetIssues_sorted net c "") as Hs.
        destruct (api.GetIssues net c "") as [fetched apiErr].
        intros Hu. injection Hu as <-. apply Hstart. now apply Hlist.
      * change (len (t :: teams) >? 0) with true. cbv iota.
        unfold index. simpl ui.obind.
        pose proof (GetIssues_sorted net c (api.Team.ID t)) as Hs.
        destruct (api.GetIssues net c (api.Team.ID t)) as [fetched apiErr].
        intros Hu. injection Hu as <-. apply Hstart. now apply Hlist.
  - simpl. intros Hu. injection Hu as <-. apply Hstart. apply singleton_sorted.
Qed.

Lemma selectIssue_nil (u : ui.UI) : ui.selectIssue None u = None.
Proof. reflexivity. Qed.

Lemma call_keeps (c : app.Call) (u : ui.UI) (err : error) (u' : ui.UI) :
  Inv u -> app.call c u = Some (err, u') ->
  Inv u' /\ ui.teams u' = ui.teams u /\ ui.client u' = ui.client u
  /\ ui.currentTeam u' = teamAfter c u.
Proof.
  intros Hinv Hcall.
  assert (Hc : c <> app.SelectIssue None).
  { intros ->. simpl in Hcall. rewrite selectIssue_nil in Hcall. discriminate. }
  destruct (call_runs Hinv Hc) as (err0 & u0 & Hrun & Hinv' & Ht & Hcl & _ & Hpos).
  rewrite Hcall in Hrun. injection Hrun as <- <-.
  split; [exact Hinv'|]. repeat split; assumption.
Qed.

Lemma Reachable_Inv (u : ui.UI) : app.Reachable u -> Inv u.
Proof.
  induction 1 as [net cl u Hstart | c u err u' _ IH Hcall].
  - apply (NewUI_Inv net cl Hstart).
  - apply (call_keeps c IH Hcall).
Qed.

(** The team position moves inside the roster. *)
Lemma teamAfter_ok (c : app.Call) (u : ui.UI) :
  len (ui.teams u) <= MaxInt -> TeamPosOK u ->
  (ui.teams u = [] /\ teamAfter c u = 0)
  \/ 0 <= teamAfter c u < len (ui.teams u).
Proof.
  intros Hlen Hpos. unfold MaxInt in Hlen.
  assert (Hsame : (ui.teams u = [] /\ ui.currentTeam u = 0)
                  \/ 0 <= ui.currentTeam u < len (ui.teams u)) by exact Hpos.
  destruct c; try exact Hsame; unfold teamAfter;
    (destruct (Z.eqb_spec (len (ui.teams u)) 0) as [Hz|Hnz]; [exact Hsame|]);
    (destruct Hpos as [[Hnil _]|Hin];
     [rewrite Hnil in Hnz; now contradiction Hnz|]);
    right; cbv zeta; rewrite wrap_small by lia.
  - destruct (Z.ltb_spec (ui.currentTeam u - 1) 0); lia.
  - destruct (Z.geb_spec (ui.currentTeam u + 1) (len (ui.teams u))); lia.
Qed.

Lemma Reachable_team (u : ui.UI) :
  app.Reachable u -> len (ui.teams u) <= MaxInt -> TeamPosOK u.
Proof.
  induction 1 as [net cl u Hstart | c u err u' Hreach IH Hcall]; intros Hlen.
  - destruct (NewUI_Inv net cl Hstart) as (_ & _ & Hct).
    unfold TeamPosOK. rewrite Hct.
    destruct (ui.teams u) as [|t teams]; [left; split; reflexivity|].
    right. unfold len. simpl List.length. lia.
  - destruct (call_keeps c (Reachable_Inv Hreach) Hcall) as (_ & Ht & _ & Hct).
    rewrite Ht in Hlen. specialize (IH Hlen).
    unfold TeamPosOK. rewrite Hct, Ht. now apply teamAfter_ok.
Qed.

(** X1.  In every state that a run of the program can reach, the
    current view is one of the six, and nothing panics: every handler
    called on a view runs to its end, and so do the title lookup of
    [layout] and [filterIssues]. *)
Theorem reachable_never_panics (u : ui.UI) :
  app.Reachable u ->
  ValidView u
  /\ (forall c, c <> app.SelectIssue None ->
                exists err u', app.call c u = Some (err, u') /\ app.Reachable u')
  /\ (exists title, nav.viewTitle u = Some title)
  /\ (exists derived, ui.filterIssues u = Some (derived, u)).
Proof.
  intros Hreach. pose proof (Reachable_Inv Hreach) as Hinv.
  pose proof Hinv as (Hvalid & Hd & _).
  destruct (ValidView_statusView Hvalid) as [statusView Hv].
  split; [exact Hvalid|]. split.
  - intros c Hc. destruct (call_runs Hinv Hc) as (err & u' & Hrun & _).
    exists err, u'. split; [exact Hrun|].
    exact (app.reach_call c Hreach Hrun).
  - split.
    + unfold nav.viewTitle. unfold statusViewOf in Hv. rewrite Hv.
      eexists. reflexivity.
    + eexists. exact Hd.
Qed.

(** X2.  In every reachable state [issues] is exactly what
    [filterIssues] derives from [allIssues] and the filter inputs at
    that moment: the list shown is never stale. *)
Theorem reachable_issues_derived (u : ui.UI) :
  app.Reachable u ->
  ui.filterIssues u = Some (ui.issues u, u)
  /\ exists statusView,
      statusViewOf u = Some statusView
      /\ ui.issues u = filter (passesb u statusView) (ui.allIssues u)
      /\ Subsequence (ui.issues u) (ui.allIssues u).
Proof.
  intros Hreach. destruct (Reachable_Inv Hreach) as (Hvalid & Hd & _).
  destruct (ValidView_statusView Hvalid) as [statusView Hv].
  split; [exact Hd|]. exists statusView. split; [exact Hv|].
  apply (Derived_iff u Hv) in Hd. split; [exact Hd|].
  rewrite Hd. apply filter_Subsequence.
Qed.

(** X3.  In every reachable state the selection is none ([-1]) or the
    index of an issue of the list shown: a selection never points past
    a list that a filter or a refresh has shortened. *)
Theorem reachable_selection_in_range (u : ui.UI) :
  app.Reachable u ->
  (ui.selectedIssue u = -1
   \/ 0 <= ui.selectedIssue u < len (ui.issues u))
  /\ (ui.selectedIssue u <> -1 ->
      exists issue, index (ui.issues u) (ui.selectedIssue u) = Some issue).
Proof.
  intros Hreach. destruct (Reachable_Inv Hreach) as (_ & _ & Hsel & _).
  split; [exact Hsel|]. intros Hne. apply index_in_range.
  destruct Hsel as [Hnone|Hin]; [contradiction | exact Hin].
Qed.

(** X4.  In every reachable state both the fetched list and the list
    shown are in non-decreasing status rank: the issues always appear
    grouped in pipeline order, whatever was fetched, filtered or
    failed. *)
Theorem reachable_lists_sorted (u : ui.UI) :
  app.Reachable u ->
  SortedByRank (ui.allIssues u) /\ SortedByRank (ui.issues u).
Proof.
  intros Hreach. destruct (Reachable_Inv Hreach) as (Hvalid & Hd & _ & Hs).
  destruct (ValidView_statusView Hvalid) as [statusView Hv].
  split; [exact Hs|]. apply (Derived_iff u Hv) in Hd. rewrite Hd.
  now apply filter_sorted.
Qed.

(** X5.  In every reachable state the team position is 0 when there is
    no roster and an index of the roster otherwise, so that a refresh
    is scoped to the team shown as current. *)
Theorem reachable_team_in_roster (u : ui.UI) :
  app.Reachable u ->
  len (ui.teams u) <= MaxInt ->
  ((ui.teams u = [] /\ ui.currentTeam u = 0 /\ currentTeamID u = "")
   \/ (exists team,
          0 <= ui.currentTeam u < len (ui.teams u)
          /\ index (ui.teams u) (ui.currentTeam u) = Some team
          /\ currentTeamID u = api.Team.ID team)).
Proof.
  intros Hreach Hlen. destruct (Reachable_team Hreach Hlen) as [[Hnil Hct]|Hin].
  - left. split; [exact Hnil|]. split; [exact Hct|].
    unfold currentTeamID. now rewrite Hnil, Hct.
  - right. destruct (index_in_range _ Hin) as [team Hteam].
    exists team. split; [exact Hin|]. split; [exact Hteam|].
    unfold currentTeamID. now rewrite Hteam.
Qed.
End ReachableStates.

(* ================================================================= *)
(** * The sort as a regrouping *)

Lemma StronglySorted_app {A : Type} (R : A -> A -> Prop) (l1 l2 : list A) :
  StronglySorted R l1 -> StronglySorted R l2 ->
  (forall a b, In a l1 -> In b l2 -> R a b) ->
  StronglySorted R (l1 ++ l2).
Proof.
  induction 1 as [|x l1 Hs IH Hall]; intros Hs2 Hcross; simpl; [exact Hs2|].
  constructor.
  - apply IH; [exact Hs2|]. intros a b Ha Hb. apply Hcross; [now right | exact Hb].
  - apply Forall_app. split; [exact Hall|].
    rewrite Forall_forall. intros b Hb. apply Hcross; [now left | exact Hb].
Qed.

Lemma filter_filter_and {A : Type} (f g : A -> bool) (l : list A) :
  filter f (filter g l) = filter (fun a => g a && f a) l.
Proof.
  induction l as [|x l IH]; simpl; [reflexivity|].
  destruct (g x); simpl; [destruct (f x)|]; now rewrite IH.
Qed.

Lemma filter_none {A : Type} (f : A -> bool) (l : list A) :
  (forall x, In x l -> f x = false) -> filter f l = [].
Proof.
  induction l as [|x l IH]; intros Hf; simpl; [reflexivity|].
  rewrite (Hf x) by now left. apply IH. intros y Hy. apply Hf. now right.
Qed.

Section Buckets.
Variable A : Type.
Variable key : A -> Z.
Variable less : A -> A -> bool.
Hypothesis less_key : forall a b, less a b = (key a <? key b).

Let ordered (a b : A) : Prop := key a <= key b.
Let hasKey (r : Z) (a : A) : bool := key a =? r.

Lemma In_buckets (keys : list Z) (l : list A) (x : A) :
  In x (buckets key keys l) <-> In (key x) keys /\ In x l.
Proof.
  unfold buckets. induction keys as [|r keys IH]; simpl.
  - tauto.
  - rewrite in_app_iff, IH, filter_In, Z.eqb_eq. intuition congruence.
Qed.

Lemma one_key_sorted (r : Z) (l : list A) :
  StronglySorted ordered (filter (hasKey r) l).
Proof.
  induction l as [|x l IH]; simpl; [constructor|].
  destruct (hasKey r x) eqn:Hx; [|exact IH].
  constructor; [exact IH|]. rewrite Forall_forall. intros y Hy.
  apply filter_In in Hy. destruct Hy as [_ Hy].
  unfold hasKey in *. apply Z.eqb_eq in Hx, Hy. unfold ordered. lia.
Qed.

Lemma buckets_sorted (keys : list Z) (l : list A) :
  StronglySorted Z.lt keys -> StronglySorted ordered (buckets key keys l).
Proof.
  induction 1 as [|r keys Hs IH Hall].
  - constructor.
  - change (buckets key (r :: keys) l)
      with (filter (hasKey r) l ++ buckets key keys l).
    apply StronglySorted_app; [apply one_key_sorted | exact IH|].
    intros a b Ha Hb. apply filter_In in Ha. destruct Ha as [_ Ha].
    apply In_buckets in Hb. destruct Hb as [Hb _].
    rewrite Forall_forall in Hall. specialize (Hall _ Hb).
    unfold hasKey in Ha. apply Z.eqb_eq in Ha. unfold ordered. lia.
Qed.

Lemma filter_buckets (r : Z) (keys : list Z) (l : list A) :
  StronglySorted Z.lt keys ->
  filter (hasKey r) (buckets key keys l)
  = if in_dec Z.eq_dec r keys then filter (hasKey r) l else [].
Proof.
  induction 1 as [|r0 keys Hs IH Hall].
  - reflexivity.
  - change (buckets key (r0 :: keys) l)
      with (filter (hasKey r0) l ++ buckets key keys l).
    rewrite filter_app, IH, filter_filter_and.
    rewrite Forall_forall in Hall.
    destruct (Z.eq_dec r0 r) as [->|Hne].
    + destruct (in_dec Z.eq_dec r (r :: keys)) as [_|Hout];
        [|exfalso; apply Hout; now left].
      destruct (in_dec Z.eq_dec r keys) as [Hin|_];
        [specialize (Hall _ Hin); lia|].
      rewrite app_nil_r. apply filter_ext. intros a. unfold hasKey.
      now rewrite andb_diag.
    + rewrite (@filter_none _ (fun a => hasKey r0 a && hasKey r a)).
      * destruct (in_dec Z.eq_dec r keys) as [Hin|Hout];
          destruct (in_dec Z.eq_dec r (r0 :: keys)) as [Hin'|Hout'];
          try reflexivity.
        -- exfalso. apply Hout'. now right.
        -- exfalso. destruct Hin' as [Heq|Hin']; [now apply Hne | now apply Hout].
      * intros x _. unfold hasKey.
        destruct (Z.eqb_spec (key x) r0), (Z.eqb_spec (key x) r);
          try reflexivity. congruence.
Qed.

(** Stable sorting by key is regrouping by key. *)
Lemma SliceStable_buckets (keys : list Z) (l : list A) :
  StronglySorted Z.lt keys ->
  (forall x, In x l -> In (key x) keys) ->
  sort.SliceStable less l = buckets key keys l.
Proof.
  intros Hkeys Hall. symmetry.
  apply (@stable_sort_unique _ key _ less_key).
  - now apply buckets_sorted.
  - intros r. change (fun a => key a =? r) with (hasKey r).
    rewrite filter_buckets by exact Hkeys.
    destruct (in_dec Z.eq_dec r keys) as [_|Hout]; [reflexivity|].
    symmetry. apply filter_none. intros x Hx. unfold hasKey.
    apply Z.eqb_neq. intros Heq. apply Hout. rewrite <- Heq. now apply Hall.
Qed.

(** Sorting what is sorted changes nothing. *)
Lemma SliceStable_sorted_id (l : list A) :
  StronglySorted ordered l -> sort.SliceStable less l = l.
Proof.
  intros Hs. symmetry. apply (@stable_sort_unique _ key _ less_key).
  - exact Hs.
  - reflexivity.
Qed.
End Buckets.

Lemma ranks_increasing : StronglySorted Z.lt ranks.
Proof.
  unfold ranks. repeat (constructor; [|repeat (constructor; try lia)]).
  constructor.
Qed.

Lemma issueRank_in_ranks (issue : api.Issue.t) : In (issueRank issue) ranks.
Proof.
  unfold issueRank, statusRank, ranks.
  repeat match goal with
         | |- context [if ?b then _ else _] => destruct b; [simpl; tauto|]
         end.
  simpl. tauto.
Qed.

Lemma sorted_is_grouped (l : list api.Issue.t) :
  SortedByRank l -> l = groupedByRank l.
Proof.
  intros Hs. unfold groupedByRank.
  rewrite <- (@SliceStable_buckets _ issueRank _ lessIssue_rank ranks l
                ranks_increasing (fun x _ => issueRank_in_ranks x)).
  symmetry. now apply (@SliceStable_sorted_id _ issueRank _ lessIssue_rank).
Qed.

(** X6.  The status sort of [GetIssues] is a regrouping: the result
    is the fetched issues of rank 0 in fetch order, then those of rank
    1, and so on up to the unranked ones; and sorting the result again
    changes nothing. *)
Theorem GetIssues_groups_by_status
        (net : api.Transport) (c : api.Client) (teamID : string)
        (nodes : list api.Issue.t) :
  api.RunIssues net (api.issuesRequest c teamID) = api.Decoded nodes ->
  exists sorted,
    api.GetIssues net c teamID = (sorted, None)
    /\ sorted
       = filter (hasRank 0) nodes ++ filter (hasRank 1) nodes
         ++ filter (hasRank 2) nodes ++ filter (hasRank 3) nodes
         ++ filter (hasRank 4) nodes ++ filter (hasRank 999) nodes
    /\ sort.SliceStable api.lessIssue sorted = sorted.
Proof.
  intros Hrun. exists (sort.SliceStable api.lessIssue nodes).
  split; [unfold api.GetIssues; now rewrite Hrun|]. split.
  - rewrite (@SliceStable_buckets _ issueRank _ lessIssue_rank ranks nodes
               ranks_increasing (fun x _ => issueRank_in_ranks x)).
    unfold buckets, ranks. simpl. now rewrite app_nil_r.
  - apply (@SliceStable_sorted_id _ issueRank _ lessIssue_rank).
    apply (@SliceStable_sorted _ issueRank _ lessIssue_rank).
Qed.

(* ================================================================= *)
(** * The views and the filters together *)

Lemma tracked_status_rank (issue : api.Issue.t) (name : string) :
  Tracked issue -> In name trackedStatuses ->
  String.eqb (api.State.Name (api.Issue.State issue)) name
  = hasRank (statusRank name) issue.
Proof.
  unfold Tracked, hasRank, issueRank, trackedStatuses. intros Hi Hn.
  simpl in Hi, Hn.
  repeat (destruct Hi as [<-|Hi]; [repeat (destruct Hn as [<-|Hn]; [reflexivity|]);
                                   contradiction|]).
  contradiction.
Qed.

Lemma tracked_ranked (issue : api.Issue.t) :
  Tracked issue -> hasRank 999 issue = false.
Proof.
  unfold Tracked, hasRank, issueRank, trackedStatuses. intros Hi. simpl in Hi.
  repeat (destruct Hi as [<-|Hi]; [reflexivity|]). contradiction.
Qed.

Section Views.
Context `{strings.Tables}.

(** The filter on a status view is the status test, then the rest. *)
Lemma passesb_status (u : ui.UI) (statusView : string) (issue : api.Issue.t) :
  statusView <> "All" ->
  passesb u statusView issue
  = String.eqb (api.State.Name (api.Issue.State issue)) statusView
    && passesb u "All" issue.
Proof.
  intros Hne. unfold passesb. apply String.eqb_neq in Hne. rewrite Hne.
  simpl orb.
  destruct (negb (ui.assignedToMe u) || _);
    destruct (String.eqb (api.State.Name (api.Issue.State issue)) statusView);
    reflexivity.
Qed.

Lemma derive_status (u : ui.UI) (statusView : string) (all : list api.Issue.t) :
  In statusView trackedStatuses -> Forall Tracked all ->
  derive u statusView all
  = derive u "All" (filter (hasRank (statusRank statusView)) all).
Proof.
  intros Hn Hall. unfold derive. rewrite filter_filter_and.
  rewrite Forall_forall in Hall.
  assert (Hne : statusView <> "All").
  { intros ->. unfold trackedStatuses in Hn. simpl in Hn.
    intuition discriminate. }
  induction all as [|issue all IH]; [reflexivity|].
  simpl. rewrite (passesb_status u issue Hne).
  rewrite (@tracked_status_rank issue statusView) by (try apply Hall; auto; now left).
  rewrite IH by (intros x Hx; apply Hall; now right). reflexivity.
Qed.

Lemma onView_statusView (u : ui.UI) (i : Z) (name : string) :
  ui.views u = ui.viewNames -> index ui.viewNames i = Some name ->
  statusViewOf (ui.set_currentView i u) = Some name.
Proof.
  intros Hviews Hi. unfold statusViewOf. simpl. now rewrite Hviews.
Qed.

(** X7.  When the fetched list is sorted by status and holds only the
    five tracked statuses, the list shown on "All" is the lists shown
    on "In Review", "In Progress", "Blocked", "Todo" and "Backlog" one
    after the other, under the same assignee and search filters: the
    five status views split the "All" view without loss or overlap. *)
Theorem all_view_is_status_views_in_order (u : ui.UI) :
  ui.views u = ui.viewNames ->
  SortedByRank (ui.allIssues u) ->
  Forall Tracked (ui.allIssues u) ->
  exists l0 l1 l2 l3 l4 l5,
    ui.filterIssues (ui.set_currentView 0 u) = Some (l0, ui.set_currentView 0 u)
    /\ ui.filterIssues (ui.set_currentView 1 u) = Some (l1, ui.set_currentView 1 u)
    /\ ui.filterIssues (ui.set_currentView 2 u) = Some (l2, ui.set_currentView 2 u)
    /\ ui.filterIssues (ui.set_currentView 3 u) = Some (l3, ui.set_currentView 3 u)
    /\ ui.filterIssues (ui.set_currentView 4 u) = Some (l4, ui.set_currentView 4 u)
    /\ ui.filterIssues (ui.set_currentView 5 u) = Some (l5, ui.set_currentView 5 u)
    /\ l0 = l1 ++ l2 ++ l3 ++ l4 ++ l5.
Proof.
  intros Hviews Hs Hall.
  exists (derive u "All" (ui.allIssues u)),
         (derive u "In Review" (ui.allIssues u)),
         (derive u "In Progress" (ui.allIssues u)),
         (derive u "Blocked" (ui.allIssues u)),
         (derive u "Todo" (ui.allIssues u)),
         (derive u "Backlog" (ui.allIssues u)).
  repeat (split;
          [apply (@filterIssues_filter _ (ui.set_currentView _ u));
           apply onView_statusView; [exact Hviews | reflexivity]|]).
  assert (Hone : forall name, In name trackedStatuses ->
                        derive u name (ui.allIssues u)
                        = derive u "All"
                            (filter (hasRank (statusRank name)) (ui.allIssues u)))
    by (intros name Hn; now apply derive_status).
  rewrite (Hone "In Review"), (Hone "In Progress"), (Hone "Blocked"),
    (Hone "Todo"), (Hone "Backlog")
    by (unfold trackedStatuses; simpl; tauto).
  rewrite (sorted_is_grouped Hs) at 1.
  unfold groupedByRank, buckets, ranks, derive. simpl.
  rewrite !filter_app.
  change (fun a : api.Issue.t => issueRank a =? 999) with (hasRank 999).
  rewrite (@filter_none _ (hasRank 999) (ui.allIssues u)).
  - simpl. rewrite !app_nil_r. reflexivity.
  - intros x Hx. apply tracked_ranked. rewrite Forall_forall in Hall. now apply Hall.
Qed.

Lemma filter_weaker {A : Type} (f g : A -> bool) (l : list A) :
  (forall x, f x = true -> g x = true) ->
  Subsequence (filter f l) (filter g l).
Proof.
  intros Hfg. induction l as [|x l IH]; simpl; [constructor|].
  destruct (f x) eqn:Hf.
  - rewrite (Hfg x Hf). now constructor.
  - destruct (g x); [now constructor | exact IH].
Qed.

(** X8.  Filters only take away.  If a second configuration over the
    same fetched list asks no more than the first (assignee filter off
    or the same with the same viewer, view "All" or the same view,
    search text empty or the same), the list derived under the first
    is a subsequence of the list derived under the second. *)
Theorem filters_only_remove (u u' : ui.UI) (statusView statusView' : string) :
  statusViewOf u = Some statusView ->
  statusViewOf u' = Some statusView' ->
  ui.allIssues u' = ui.allIssues u ->
  (ui.assignedToMe u' = false
   \/ (ui.assignedToMe u' = ui.assignedToMe u /\ ui.viewerID u' = ui.viewerID u)) ->
  (statusView' = "All" \/ statusView' = statusView) ->
  (ui.searchString u' = "" \/ ui.searchString u' = ui.searchString u) ->
  exists derived derived',
    ui.filterIssues u = Some (derived, u)
    /\ ui.filterIssues u' = Some (derived', u')
    /\ Subsequence derived derived'
    /\ Subsequence derived' (ui.allIssues u).
Proof.
  intros Hv Hv' Hall Hmine Hview Hsearch.
  do 2 eexists. split; [apply (filterIssues_filter u Hv)|].
  split; [apply (filterIssues_filter u' Hv')|]. rewrite Hall. split.
  - apply filter_weaker. intros issue. rewrite !passesb_iff.
    unfold Passes, assigneeFilter, statusFilter, searchFilter.
    intros (Ha & Hst & Hse). split; [|split].
    + destruct Hmine as [Hoff|[Hsame Hw]]; [congruence|].
      rewrite Hsame, Hw. exact Ha.
    + destruct Hview as [->| ->]; [congruence | exact Hst].
    + destruct Hsearch as [Hoff|Hsame]; [congruence|].
      rewrite Hsame. exact Hse.
  - apply filter_Subsequence.
Qed.

Lemma backward_forward (n i : Z) : 0 <= i < n -> backward n (forward n i) = i.
Proof.
  intros Hi. unfold forward, backward.
  destruct (Z.geb_spec (i + 1) n); simpl.
  - destruct (Z.ltb_spec (0 - 1) 0); lia.
  - destruct (Z.ltb_spec (i + 1 - 1) 0); lia.
Qed.

Lemma forward_backward (n i : Z) : 0 <= i < n -> forward n (backward n i) = i.
Proof.
  intros Hi. unfold forward, backward.
  destruct (Z.ltb_spec (i - 1) 0).
  - destruct (Z.geb_spec (n - 1 + 1) n); lia.
  - destruct (Z.geb_spec (i - 1 + 1) n); lia.
Qed.

Lemma set_currentView_same (u : ui.UI) :
  ui.set_currentView (ui.currentView u) u = u.
Proof. destruct u; reflexivity. Qed.

Lemma views_step_back (u : ui.UI) (i : Z) (statusView statusView' : string) :
  rederived statusView
    (ui.set_currentView (ui.currentView u)
       (rederived statusView' (ui.set_currentView i u)))
  = rederived statusView u.
Proof. unfold rederived. destruct u. reflexivity. Qed.

(** X9.  The two view steps undo each other: next-view then prev-view,
    and prev-view then next-view, end in the state that a
    recomputation of the list in the starting state gives, so that on
    a state whose list is up to date and has no selection the pair is
    the identity. *)
Theorem view_steps_undo_each_other (u : ui.UI) (statusView : string) :
  ValidView u -> statusViewOf u = Some statusView ->
  (exists u1, ui.nextView u = Some (None, u1)
              /\ ui.prevView u1 = Some (None, rederived statusView u))
  /\ (exists u1, ui.prevView u = Some (None, u1)
                 /\ ui.nextView u1 = Some (None, rederived statusView u))
  /\ (Derived u -> ui.selectedIssue u = -1 -> rederived statusView u = u).
Proof.
  intros Hvalid Hv. pose proof Hvalid as [Hviews Hcv].
  assert (Hlen : len (ui.views u) = 6) by (rewrite Hviews; reflexivity).
  assert (Hback : statusViewOf
                    (ui.set_currentView (ui.currentView u) u) = Some statusView)
    by (now rewrite set_currentView_same).
  split; [|split].
  - pose proof (forward_range Hcv) as Hin.
    destruct (@index_in_range _ ui.viewNames _ Hin) as [statusView' Hv'].
    pose proof (@onView_statusView u _ _ Hviews Hv') as Hv1.
    exists (rederived statusView'
              (ui.set_currentView (forward 6 (ui.currentView u)) u)).
    split.
    + rewrite <- Hlen. apply nextView_run; rewrite ?Hlen; unfold MaxInt; try lia.
      exact Hv1.
    + rewrite (@prevView_run _
                 (rederived statusView'
                    (ui.set_currentView (forward 6 (ui.currentView u)) u))
                 statusView).
      * simpl ui.views. simpl ui.currentView.
        rewrite Hlen, (backward_forward Hcv). now rewrite views_step_back.
      * simpl. rewrite Hlen. lia.
      * simpl. rewrite Hlen. unfold MaxInt. lia.
      * simpl ui.views. simpl ui.currentView.
        rewrite Hlen, (backward_forward Hcv). exact Hback.
  - pose proof (backward_range Hcv) as Hin.
    destruct (@index_in_range _ ui.viewNames _ Hin) as [statusView' Hv'].
    pose proof (@onView_statusView u _ _ Hviews Hv') as Hv1.
    exists (rederived statusView'
              (ui.set_currentView (backward 6 (ui.currentView u)) u)).
    split.
    + rewrite <- Hlen. apply prevView_run; rewrite ?Hlen; unfold MaxInt; try lia.
      exact Hv1.
    + rewrite (@nextView_run _
                 (rederived statusView'
                    (ui.set_currentView (backward 6 (ui.currentView u)) u))
                 statusView).
      * simpl ui.views. simpl ui.currentView.
        rewrite Hlen, (forward_backward Hcv). now rewrite views_step_back.
      * simpl. rewrite Hlen. lia.
      * simpl. rewrite Hlen. unfold MaxInt. lia.
      * simpl ui.views. simpl ui.currentView.
        rewrite Hlen, (forward_backward Hcv). exact Hback.
  - intros Hd Hsel. apply (Derived_iff u Hv) in Hd. unfold rederived.
    unfold derive in Hd. rewrite <- Hd, <- Hsel. destruct u; reflexivity.
Qed.
End Views.

(* ================================================================= *)
(** * Search, refresh and team switches *)

Lemma set_allIssues_same (u : ui.UI) : ui.set_allIssues (ui.allIssues u) u = u.
Proof. destruct u; reflexivity. Qed.

Section Refresh.
Context `{strings.Tables}.

(** X10.  Applying a search whose text trims to nothing is cancelling
    the search: both handlers end in the same state, with the search
    off and the search box closed. *)
Theorem blank_search_is_cancel (view : gocui.View) (v : option gocui.View)
        (u : ui.UI) :
  strings.TrimSpace (gocui.Buffer view) = "" ->
  ui.closeSearch (Some view) u = ui.cancelSearch v u
  /\ forall err u', ui.closeSearch (Some view) u = Some (err, u') ->
                    ui.searchString u' = "" /\ ui.showSearch u' = false
                    /\ ui.selectedIssue u' = -1.
Proof.
  intros Hblank.
  assert (Heq : ui.closeSearch (Some view) u = ui.cancelSearch v u).
  { unfold ui.closeSearch, ui.cancelSearch. rewrite Hblank.
    unfold ui.bind, ui.modify, ui.ret.
    destruct (ui.filterIssues (ui.set_searchString "" u)) as [[filtered w]|];
      reflexivity. }
  split; [exact Heq|]. intros err u'. rewrite Heq.
  unfold ui.cancelSearch, ui.filterIssues.
  unfold ui.bind, ui.modify, ui.ret, ui.get, ui.orPanic. simpl.
  destruct (index (ui.views u) (ui.currentView u)); [|discriminate].
  intros Hrun. injection Hrun as _ <-. repeat split.
Qed.

(** X11.  Only a refresh and a team switch touch what was fetched: every
    other handler, whenever it runs to its end, leaves [allIssues], the
    roster, the team position, the client, the viewer id and the list
    of views as they were. *)
Theorem only_fetches_replace_allIssues
        (c : app.Call) (u : ui.UI) (err : error) (u' : ui.UI) :
  fetches c = false ->
  app.call c u = Some (err, u') ->
  ui.allIssues u' = ui.allIssues u
  /\ ui.teams u' = ui.teams u /\ ui.currentTeam u' = ui.currentTeam u
  /\ ui.client u' = ui.client u /\ ui.viewerID u' = ui.viewerID u
  /\ ui.views u' = ui.views u.
Proof.
  intros Hc Hcall.
  destruct c as [|net| | | | | |v|os|os|net|net|v|v]; try discriminate Hc;
    simpl app.call in Hcall.
  - injection Hcall as _ <-. repeat split.
  - injection Hcall as _ <-. repeat split.
  - unfold ui.toggleAssigned, ui.filterIssues in Hcall.
    unfold ui.bind, ui.get, ui.modify, ui.ret, ui.orPanic in Hcall.
    simpl in Hcall.
    destruct (index (ui.views u) (ui.currentView u)); [|discriminate].
    injection Hcall as _ <-. repeat split.
  - injection Hcall as _ <-. repeat split.
  - unfold ui.prevView, ui.filterIssues in Hcall.
    unfold ui.bind, ui.get, ui.modify, ui.ret, ui.orPanic in Hcall.
    simpl in Hcall.
    destruct (wrap (ui.currentView u - 1) <? 0); simpl in Hcall;
      match type of Hcall with
      | context [index ?l ?i] => destruct (index l i); [|discriminate]
      end; injection Hcall as _ <-; repeat split.
  - unfold ui.nextView, ui.filterIssues in Hcall.
    unfold ui.bind, ui.get, ui.modify, ui.ret, ui.orPanic in Hcall.
    simpl in Hcall.
    destruct (wrap (ui.currentView u + 1) >=? len (ui.views u)); simpl in Hcall;
      match type of Hcall with
      | context [index ?l ?i] => destruct (index l i); [|discriminate]
      end; injection Hcall as _ <-; repeat split.
  - destruct v as [view|]; [|discriminate].
    unfold ui.selectIssue, ui.bind, ui.get, ui.modify, ui.ret, ui.orPanic in Hcall.
    destruct ((snd (gocui.Cursor view) >=? 0)
              && (snd (gocui.Cursor view) <? len (ui.issues u)));
      injection Hcall as _ <-; repeat split.
  - destruct (copy_leaves_state_aux os u) as [[e Hrun] _].
    rewrite Hrun in Hcall. injection Hcall as _ <-. repeat split.
  - destruct (copy_leaves_state_aux os u) as [_ [e Hrun]].
    rewrite Hrun in Hcall. injection Hcall as _ <-. repeat split.
  - destruct v as [view|].
    + unfold ui.closeSearch, ui.filterIssues in Hcall.
      unfold ui.bind, ui.get, ui.modify, ui.ret, ui.orPanic in Hcall.
      simpl in Hcall.
      destruct (index (ui.views u) (ui.currentView u)); [|discriminate].
      injection Hcall as _ <-. repeat split.
    + injection Hcall as _ <-. repeat split.
  - unfold ui.cancelSearch, ui.filterIssues in Hcall.
    unfold ui.bind, ui.get, ui.modify, ui.ret, ui.orPanic in Hcall.
    simpl in Hcall.
    destruct (index (ui.views u) (ui.currentView u)); [|discriminate].
    injection Hcall as _ <-. repeat split.
Qed.

Lemma refreshIssues_panic (net : api.Transport) (u : ui.UI) :
  statusViewOf u = None -> ui.refreshIssues net u = None.
Proof.
  intros Hv. unfold ui.refreshIssues. rewrite run_get.
  unfold ui.bind at 1.
  destruct (ui.client u) as [c|].
  - unfold ui.bind at 1. rewrite teamID_run.
    destruct (api.GetIssues net c (currentTeamID u)) as [fetched [err|]];
      unfold ui.modify at 1; unfold ui.bind at 1;
      rewrite filterIssues_panic by exact Hv; reflexivity.
  - unfold ui.ret at 1. unfold ui.bind at 1.
    now rewrite filterIssues_panic by exact Hv.
Qed.

(** X12.  A refresh with a client starts from scratch: the state it
    ends in does not depend on the lists or on the selection it found,
    only on the filter inputs, the roster and the answer of the
    service. *)
Theorem refresh_forgets_previous_lists
        (net : api.Transport) (u : ui.UI) (c : api.Client)
        (all shown : list api.Issue.t) (selected : Z) :
  ui.client u = Some c ->
  ui.refreshIssues net
    (ui.set_selectedIssue selected (ui.set_issues shown (ui.set_allIssues all u)))
  = ui.refreshIssues net u.
Proof.
  intros Hc. destruct (statusViewOf u) as [statusView|] eqn:Hv.
  - rewrite (@refreshIssues_run _ net u statusView Hv).
    rewrite (@refreshIssues_run _ net _ statusView) by exact Hv.
    assert (Hsame : refetched net
                      (ui.set_selectedIssue selected
                         (ui.set_issues shown (ui.set_allIssues all u)))
                    = refetched net u).
    { unfold refetched, fetchFor, currentTeamID. simpl. now rewrite Hc. }
    rewrite Hsame. reflexivity.
  - rewrite !refreshIssues_panic by exact Hv. reflexivity.
Qed.

Lemma refetched_again (net : api.Transport) (u : ui.UI) (statusView : string) :
  refetched net (rederived statusView (ui.set_allIssues (refetched net u) u))
  = refetched net u.
Proof.
  unfold refetched, fetchFor, currentTeamID. simpl.
  destruct (ui.client u) as [c|]; reflexivity.
Qed.

(** A state as [NewUI] builds it is a fixed point of a refresh that
    fetches the list it holds. *)
Lemma refresh_at_start (net : api.Transport) (cl : option api.Client)
      (all : list api.Issue.t) (teams : list api.Team.t) (viewer : string) :
  let u0 := {| ui.client := cl; ui.issues := all; ui.allIssues := all;
               ui.selectedIssue := -1; ui.showHelp := false;
               ui.showSearch := false; ui.searchString := "";
               ui.assignedToMe := false; ui.viewerID := viewer;
               ui.currentView := 0; ui.views := ui.viewNames;
               ui.teams := teams; ui.currentTeam := 0 |} in
  refetched net u0 = all ->
  ui.refreshIssues net u0 = Some (None, u0).
Proof.
  intros u0 Hsame.
  rewrite (@refreshIssues_run _ net u0 "All" eq_refl).
  rewrite Hsame. unfold rederived. simpl ui.allIssues.
  rewrite filter_all by reflexivity. reflexivity.
Qed.

(** X13.  A refresh against a service that answers as before changes
    nothing more: after one refresh a second one with the same answers
    ends in the very same state.  So does the first refresh after
    start, when the service still answers as it did to [NewUI]. *)
Theorem refresh_is_idempotent (net : api.Transport) (u1 : ui.UI) :
  (forall u, ui.refreshIssues net u = Some (None, u1) ->
             ui.refreshIssues net u1 = Some (None, u1))
  /\ (forall cl, ui.NewUI net cl = Some u1 ->
                 ui.refreshIssues net u1 = Some (None, u1)).
Proof.
  split; [intros u Hrun | intros cl Hstart].
  - destruct (statusViewOf u) as [statusView|] eqn:Hv.
    + rewrite (refreshIssues_run net u Hv) in Hrun. injection Hrun as <-.
      rewrite (@refreshIssues_run _ net _ statusView) by exact Hv.
      rewrite refetched_again. generalize (refetched net u). intros fetched.
      destruct u; reflexivity.
    + rewrite (refreshIssues_panic net u Hv) in Hrun. discriminate.
  - revert Hstart. unfold ui.NewUI. destruct cl as [c|].
    + destruct (api.GetTeams net c) as [fetchedTeams [e|]] eqn:Hteams.
      * simpl. destruct (api.GetIssues net c "") as [fetched apiErr] eqn:Hget.
        intros Hu. injection Hu as <-. apply refresh_at_start.
        unfold refetched, fetchFor, currentTeamID. simpl.
        rewrite Hget. destruct apiErr; reflexivity.
      * destruct fetchedTeams as [|t teams].
        -- simpl. destruct (api.GetIssues net c "") as [fetched apiErr] eqn:Hget.
           intros Hu. injection Hu as <-. apply refresh_at_start.
           unfold refetched, fetchFor, currentTeamID. simpl.
           rewrite Hget. destruct apiErr; reflexivity.
        -- change (len (t :: teams) >? 0) with true. cbv iota.
           unfold index. simpl ui.obind.
           destruct (api.GetIssues net c (api.Team.ID t)) as [fetched apiErr] eqn:Hget.
           intros Hu. injection Hu as <-. apply refresh_at_start.
           unfold refetched, fetchFor, currentTeamID. simpl.
           rewrite Hget. destruct apiErr; reflexivity.
    + simpl. intros Hu. injection Hu as <-. reflexivity.
Qed.

(** X14.  A step to the next or the previous team, with a client and a
    current team in the roster, shows the issues of the team it lands
    on: [allIssues] becomes what [GetIssues] returns for the id of that
    team (or the placeholder for its error), and the list shown is
    derived from it. *)
Theorem team_step_shows_that_team
        (net : api.Transport) (u : ui.UI) (c : api.Client) :
  ValidView u -> ValidTeam u -> ui.client u = Some c ->
  forall (next : bool),
  let i := if next then forward (len (ui.teams u)) (ui.currentTeam u)
           else backward (len (ui.teams u)) (ui.currentTeam u) in
  exists team u',
    (if next then ui.nextTeam net u else ui.prevTeam net u) = Some (None, u')
    /\ ui.currentTeam u' = i
    /\ index (ui.teams u) i = Some team
    /\ ui.allIssues u'
       = match api.GetIssues net c (api.Team.ID team) with
         | (fetched, None) => fetched
         | (_, Some err) => [ui.errorPlaceholder err]
         end
    /\ ui.filterIssues u' = Some (ui.issues u', u').
Proof.
  intros Hvalid [Hct Hlen] Hc next i.
  destruct (ValidView_statusView Hvalid) as [statusView Hv].
  assert (Hteams : ui.teams u <> []).
  { intros Hnil. rewrite Hnil in Hct. unfold len in Hct. simpl in Hct. lia. }
  assert (Hin : 0 <= i < len (ui.teams u)).
  { subst i. destruct next; [now apply forward_range | now apply backward_range]. }
  destruct (index_in_range _ Hin) as [team Hteam].
  assert (Hrun : (if next then ui.nextTeam net u else ui.prevTeam net u)
                 = ui.refreshIssues net (ui.set_currentTeam i u)).
  { subst i. unfold MaxInt in Hlen. destruct next.
    - rewrite nextTeam_run by exact Hteams. now rewrite wrap_small by lia.
    - rewrite prevTeam_run by exact Hteams. now rewrite wrap_small by lia. }
  exists team. eexists. split.
  - rewrite Hrun. apply (@refreshIssues_run _ net _ statusView). exact Hv.
  - split; [reflexivity|]. split; [exact Hteam|]. split.
    + simpl. unfold refetched, fetchFor, currentTeamID. simpl.
      now rewrite Hc, Hteam.
    + rewrite (@filterIssues_filter _ _ statusView) by exact Hv. reflexivity.
Qed.
End Refresh.

(* ================================================================= *)
(** * The clipboard, again *)

(** The command line that [copyToClipboard] settles on. *)
Lemma clipboard_choice (os : exec.OS) :
  exists cmd,
    (forall text u,
        ui.copyToClipboard os text u
        = Some (match exec.StdinPipe (exec.Command os cmd text) with
                | Some e => Some e
                | None =>
                  match exec.Start (exec.Command os cmd text) with
                  | Some e => Some e
                  | None =>
                    match exec.Write (exec.Command os cmd text) with
                    | Some e => Some e
                    | None =>
                      match exec.Close (exec.Command os cmd text) with
                      | Some e => Some e
                      | None => exec.Wait (exec.Command os cmd text)
                      end
                    end
                  end
                end, u))
    /\ (exec.LookPath os "xclip" = None ->
        cmd = ["xclip"; "-selection"; "clipboard"])
    /\ (exec.LookPath os "xclip" <> None -> exec.LookPath os "xsel" = None ->
        cmd = ["xsel"; "--clipboard"; "--input"])
    /\ (exec.LookPath os "xclip" <> None -> exec.LookPath os "xsel" <> None ->
        exec.LookPath os "wl-copy" = None -> cmd = ["wl-copy"])
    /\ (exec.LookPath os "xclip" <> None -> exec.LookPath os "xsel" <> None ->
        exec.LookPath os "wl-copy" <> None -> cmd = ["pbcopy"]).
Proof.
  assert (Hsteps : forall cmd text u,
    match exec.StdinPipe (exec.Command os cmd text) with
    | Some e => ui.ret (Some e)
    | None =>
      match exec.Start (exec.Command os cmd text) with
      | Some e => ui.ret (Some e)
      | None =>
        match exec.Write (exec.Command os cmd text) with
        | Some e => ui.ret (Some e)
        | None =>
          match exec.Close (exec.Command os cmd text) with
          | Some e => ui.ret (Some e)
          | None => ui.ret (exec.Wait (exec.Command os cmd text))
          end
        end
      end
    end u
    = Some (match exec.StdinPipe (exec.Command os cmd text) with
            | Some e => Some e
            | None =>
              match exec.Start (exec.Command os cmd text) with
              | Some e => Some e
              | None =>
                match exec.Write (exec.Command os cmd text) with
                | Some e => Some e
                | None =>
                  match exec.Close (exec.Command os cmd text) with
                  | Some e => Some e
                  | None => exec.Wait (exec.Command os cmd text)
                  end
                end
              end
            end, u)).
  { intros cmd text u.
    destruct (exec.StdinPipe (exec.Command os cmd text)); [reflexivity|].
    destruct (exec.Start (exec.Command os cmd text)); [reflexivity|].
    destruct (exec.Write (exec.Command os cmd text)); [reflexivity|].
    destruct (exec.Close (exec.Command os cmd text)); reflexivity. }
  unfold ui.copyToClipboard.
  destruct (exec.LookPath os "xclip") as [e1|];
    [destruct (exec.LookPath os "xsel") as [e2|];
     [destruct (exec.LookPath os "wl-copy") as [e3|]|]|];
    simpl ui.found; cbv iota;
    (eexists; split; [intros text u; apply Hsteps|];
     repeat split; intros; congruence).
Qed.

(** X15.  [copyToClipboard] feeds the text, unchanged, to the first of
    xclip, xsel and wl-copy that is on the search path, and to pbcopy
    when none is; it returns nil exactly when creating the pipe,
    starting, writing, closing and waiting all succeed, and otherwise
    the error of the first of these steps that fails. *)
Theorem copyToClipboard_first_found (os : exec.OS) (text : string) (u : ui.UI) :
  exists cmd,
    let p := exec.Command os cmd text in
    (exec.LookPath os "xclip" = None ->
     cmd = ["xclip"; "-selection"; "clipboard"])
    /\ (exec.LookPath os "xclip" <> None -> exec.LookPath os "xsel" = None ->
        cmd = ["xsel"; "--clipboard"; "--input"])
    /\ (exec.LookPath os "xclip" <> None -> exec.LookPath os "xsel" <> None ->
        exec.LookPath os "wl-copy" = None -> cmd = ["wl-copy"])
    /\ (exec.LookPath os "xclip" <> None -> exec.LookPath os "xsel" <> None ->
        exec.LookPath os "wl-copy" <> None -> cmd = ["pbcopy"])
    /\ (ui.copyToClipboard os text u = Some (None, u)
        <-> exec.StdinPipe p = None /\ exec.Start p = None
            /\ exec.Write p = None /\ exec.Close p = None
            /\ exec.Wait p = None)
    /\ (forall e, ui.copyToClipboard os text u = Some (Some e, u) ->
                  In (Some e) [exec.StdinPipe p; exec.Start p; exec.Write p;
                               exec.Close p; exec.Wait p]).
Proof.
  destruct (clipboard_choice os) as (cmd & Hrun & H1 & H2 & H3 & H4).
  exists cmd. cbv zeta.
  split; [exact H1|]. split; [exact H2|]. split; [exact H3|]. split; [exact H4|].
  rewrite Hrun. simpl In.
  destruct (exec.StdinPipe (exec.Command os cmd text)) as [e0|];
    [split; [split; [intros Hn; discriminate | intros (Hn & _); discriminate]
            | intros e He; injection He as <-; tauto]|].
  destruct (exec.Start (exec.Command os cmd text)) as [e1|];
    [split; [split; [intros Hn; discriminate | intros (_ & Hn & _); discriminate]
            | intros e He; injection He as <-; tauto]|].
  destruct (exec.Write (exec.Command os cmd text)) as [e2|];
    [split; [split; [intros Hn; discriminate | intros (_ & _ & Hn & _); discriminate]
            | intros e He; injection He as <-; tauto]|].
  destruct (exec.Close (exec.Command os cmd text)) as [e3|];
    [split; [split; [intros Hn; discriminate
                    | intros (_ & _ & _ & Hn & _); discriminate]
            | intros e He; injection He as <-; tauto]|].
  split.
  - split; [intros Hn; injection Hn as Hn; repeat split; exact Hn
           | intros (_ & _ & _ & _ & Hn); now rewrite Hn].
  - intros e He. injection He as He. rewrite He. tauto.
Qed.

(** The field that each copy handler takes from the selected issue. *)
Lemma copy_runs_on_field (os : exec.OS) (u : ui.UI) (issue : api.Issue.t) :
  index (ui.issues u) (ui.selectedIssue u) = Some issue ->
  ui.copyURL os u
  = (if String.eqb (api.Issue.URL issue) "" then Some (None, u)
     else ui.copyToClipboard os (api.Issue.URL issue) u)
  /\ ui.copyBranch os u
     = (if String.eqb (api.Issue.BranchName issue) "" then Some (None, u)
        else ui.copyToClipboard os (api.Issue.BranchName issue) u).
Proof.
  intros Hidx.
  assert (Hguard : (ui.selectedIssue u >=? 0)
                   && (ui.selectedIssue u <? len (ui.issues u)) = true).
  { apply guard_in_range.
    destruct (Z_lt_dec (ui.selectedIssue u) 0) as [Hneg|Hpos].
    - unfold index in Hidx. apply Z.ltb_lt in Hneg. rewrite Hneg in Hidx.
      discriminate.
    - split; [lia|].
      destruct (Z_lt_dec (ui.selectedIssue u) (len (ui.issues u))) as [Hlt|Hge];
        [exact Hlt|].
      rewrite index_out_of_range in Hidx by lia. discriminate. }
  split.
  - unfold ui.copyURL. rewrite run_get, Hguard.
    unfold ui.bind, ui.orPanic. rewrite Hidx.
    destruct (String.eqb (api.Issue.URL issue) ""); reflexivity.
  - unfold ui.copyBranch. rewrite run_get, Hguard.
    unfold ui.bind, ui.orPanic. rewrite Hidx.
    destruct (String.eqb (api.Issue.BranchName issue) ""); reflexivity.
Qed.

(** X16.  The copy handlers run no command unless there is something
    to copy: with no issue selected, or a selected issue whose URL
    (branch name) is empty, they return nil whatever the operating
    system would do; with a selected issue that has one, they return
    what [copyToClipboard] returns for exactly that URL (branch
    name).  The placeholder of a failed fetch has neither. *)
Theorem copy_only_when_something_to_copy (os : exec.OS) (u : ui.UI) :
  (index (ui.issues u) (ui.selectedIssue u) = None ->
   ui.copyURL os u = Some (None, u) /\ ui.copyBranch os u = Some (None, u))
  /\ (forall issue,
         index (ui.issues u) (ui.selectedIssue u) = Some issue ->
         (api.Issue.URL issue = "" -> ui.copyURL os u = Some (None, u))
         /\ (api.Issue.URL issue <> "" ->
             ui.copyURL os u = ui.copyToClipboard os (api.Issue.URL issue) u)
         /\ (api.Issue.BranchName issue = "" ->
             ui.copyBranch os u = Some (None, u))
         /\ (api.Issue.BranchName issue <> "" ->
             ui.copyBranch os u
             = ui.copyToClipboard os (api.Issue.BranchName issue) u))
  /\ (forall err,
         index (ui.issues u) (ui.selectedIssue u)
         = Some (ui.errorPlaceholder err) ->
         ui.copyURL os u = Some (None, u) /\ ui.copyBranch os u = Some (None, u)).
Proof.
  split; [|split].
  - intros Hnone.
    assert (Hguard : (ui.selectedIssue u >=? 0)
                     && (ui.selectedIssue u <? len (ui.issues u)) = false).
    { destruct ((ui.selectedIssue u >=? 0)
                && (ui.selectedIssue u <? len (ui.issues u))) eqn:Hg;
        [|reflexivity].
      apply guard_in_range in Hg. destruct (index_in_range _ Hg) as [x Hx].
      congruence. }
    unfold ui.copyURL, ui.copyBranch. rewrite !run_get, Hguard.
    split; reflexivity.
  - intros issue Hidx. destruct (copy_runs_on_field os u Hidx) as [Hurl Hbranch].
    rewrite Hurl, Hbranch.
    repeat split; intros Hf.
    + now rewrite Hf.
    + apply String.eqb_neq in Hf. now rewrite Hf.
    + now rewrite Hf.
    + apply String.eqb_neq in Hf. now rewrite Hf.
  - intros err Hidx. destruct (copy_runs_on_field os u Hidx) as [Hurl Hbranch].
    rewrite Hurl, Hbranch. split; reflexivity.
Qed.

(* ================================================================= *)
(** * More examples *)

Module MoreExamples.
Import Sample Sample2.

Lemma started_reachable : @app.Reachable strings.asciiTables started.
Proof. apply (app.reach_start (up all4) (Some key)). reflexivity. Qed.

Lemma later_reachable : @app.Reachable strings.asciiTables later.
Proof.
  apply (@app.reach_call strings.asciiTables
           (app.SelectIssue (Some {| gocui.Buffer := ""; gocui.Cursor := (0, 1) |}))
           (dashboard' sorted4 [i4; i1] 0 true "u1" "" roster (-1)) None).
  - apply (@app.reach_call strings.asciiTables app.ToggleAssigned started None).
    + exact started_reachable.
    + reflexivity.
  - reflexivity.
Qed.

Lemma sorted6_sorted : SortedByRank sorted6.
Proof.
  unfold SortedByRank, sorted6.
  repeat (constructor; [|repeat (constructor; [vm_compute; discriminate|]);
                          constructor]).
  constructor.
Qed.

Lemma sorted6_tracked : Forall Tracked sorted6.
Proof.
  unfold sorted6, Tracked, trackedStatuses.
  repeat (constructor; [simpl; tauto|]). constructor.
Qed.

(** X1 on the state after two keys. *)
Lemma reachable_never_panics_witness :
  @app.Reachable strings.asciiTables later
  /\ ValidView later
  /\ @nav.viewTitle later = Some "All (My Issues)"
  /\ exists err u', @app.call strings.asciiTables app.NextView later
                    = Some (err, u').
Proof.
  destruct (@reachable_never_panics strings.asciiTables later later_reachable)
    as (Hvalid & Hcalls & _ & _).
  split; [exact later_reachable|]. split; [exact Hvalid|].
  split; [reflexivity|].
  destruct (Hcalls app.NextView) as (err & u' & Hrun & _); [discriminate|].
  exists err, u'. exact Hrun.
Defined.

(** X2 on the same state. *)
Lemma reachable_issues_derived_witness :
  @app.Reachable strings.asciiTables later
  /\ @ui.filterIssues strings.asciiTables later = Some ([i4; i1], later).
Proof.
  split; [exact later_reachable|].
  exact (proj1 (@reachable_issues_derived strings.asciiTables later
                  later_reachable)).
Defined.

(** X3 on the same state: the selection is the second issue shown. *)
Lemma reachable_selection_in_range_witness :
  @app.Reachable strings.asciiTables later
  /\ ui.selectedIssue later = 1
  /\ exists issue, index (ui.issues later) (ui.selectedIssue later) = Some issue.
Proof.
  split; [exact later_reachable|]. split; [reflexivity|].
  apply (proj2 (@reachable_selection_in_range strings.asciiTables later
                  later_reachable)).
  discriminate.
Defined.

(** X4 on the same state. *)
Lemma reachable_lists_sorted_witness :
  @app.Reachable strings.asciiTables later
  /\ SortedByRank (ui.allIssues later) /\ SortedByRank (ui.issues later).
Proof.
  split; [exact later_reachable|].
  exact (@reachable_lists_sorted strings.asciiTables later later_reachable).
Defined.

(** X5 on the same state, with its roster of three. *)
Lemma reachable_team_in_roster_witness :
  @app.Reachable strings.asciiTables later
  /\ len (ui.teams later) <= MaxInt
  /\ currentTeamID later = "t1".
Proof.
  assert (Hlen : len (ui.teams later) <= MaxInt)
    by (unfold MaxInt, len; simpl; lia).
  split; [exact later_reachable|]. split; [exact Hlen|].
  destruct (@reachable_team_in_roster strings.asciiTables later
              later_reachable Hlen) as [(Hnil & _)|(team & _ & _ & _)].
  - discriminate Hnil.
  - reflexivity.
Defined.

(** X6 on six issues of five statuses. *)
Lemma GetIssues_groups_by_status_witness :
  api.RunIssues (up all6) (api.issuesRequest key "t1") = api.Decoded all6
  /\ exists sorted,
      api.GetIssues (up all6) key "t1" = (sorted, None)
      /\ sorted = sorted6.
Proof.
  split; [reflexivity|].
  destruct (@GetIssues_groups_by_status (up all6) key "t1" all6 eq_refl)
    as (sorted & Hrun & Hgroups & _).
  exists sorted. split; [exact Hrun|]. rewrite Hgroups. reflexivity.
Defined.

(** X7 on the six issues, sorted. *)
Lemma all_view_is_status_views_in_order_witness :
  let u := dashboard sorted6 0 false "u1" "" roster (-1) in
  ui.views u = ui.viewNames
  /\ SortedByRank (ui.allIssues u)
  /\ Forall Tracked (ui.allIssues u)
  /\ exists l0 l1 l2 l3 l4 l5,
      @ui.filterIssues strings.asciiTables (ui.set_currentView 0 u)
      = Some (l0, ui.set_currentView 0 u)
      /\ @ui.filterIssues strings.asciiTables (ui.set_currentView 4 u)
         = Some (l4, ui.set_currentView 4 u)
      /\ l0 = l1 ++ l2 ++ l3 ++ l4 ++ l5.
Proof.
  intros u. split; [reflexivity|]. split; [exact sorted6_sorted|].
  split; [exact sorted6_tracked|].
  destruct (@all_view_is_status_views_in_order strings.asciiTables u eq_refl
              sorted6_sorted sorted6_tracked)
    as (l0 & l1 & l2 & l3 & l4 & l5 & H0 & _ & _ & _ & H4 & _ & Hcat).
  exists l0, l1, l2, l3, l4, l5. split; [exact H0|]. split; [exact H4 | exact Hcat].
Defined.

(** X8: adding the search "login" to "my issues" on "Todo". *)
Lemma filters_only_remove_witness :
  let u := todoMineLogin in
  let u' := dashboard all4 0 true "u1" "" roster (-1) in
  statusViewOf u = Some "Todo" /\ statusViewOf u' = Some "All"
  /\ exists derived derived',
      @ui.filterIssues strings.asciiTables u = Some (derived, u)
      /\ @ui.filterIssues strings.asciiTables u' = Some (derived', u')
      /\ Subsequence derived derived'.
Proof.
  intros u u'. split; [reflexivity|]. split; [reflexivity|].
  destruct (@filters_only_remove strings.asciiTables u u' "Todo" "All"
              eq_refl eq_refl eq_refl
              (or_intror (conj eq_refl eq_refl)) (or_introl eq_refl)
              (or_introl eq_refl))
    as (derived & derived' & H1 & H2 & Hsub & _).
  exists derived, derived'. split; [exact H1|]. split; [exact H2 | exact Hsub].
Defined.

(** X9 at the start. *)
Lemma view_steps_undo_each_other_witness :
  ValidView started /\ statusViewOf started = Some "All"
  /\ exists u1, @ui.nextView strings.asciiTables started = Some (None, u1)
                /\ @ui.prevView strings.asciiTables u1 = Some (None, started).
Proof.
  assert (Hvalid : ValidView started) by (split; [reflexivity | simpl; lia]).
  split; [exact Hvalid|]. split; [reflexivity|].
  destruct (@view_steps_undo_each_other strings.asciiTables started "All"
              Hvalid eq_refl) as ((u1 & Hnext & Hprev) & _ & _).
  exists u1. split; [exact Hnext|]. rewrite Hprev. reflexivity.
Defined.

(** X10 on a search box that holds two spaces and a line end. *)
Lemma blank_search_is_cancel_witness :
  @strings.TrimSpace strings.asciiTables (gocui.Buffer blankSearch) = ""
  /\ @ui.closeSearch strings.asciiTables (Some blankSearch) todoMineLogin
     = @ui.cancelSearch strings.asciiTables None todoMineLogin.
Proof.
  split; [reflexivity|].
  exact (proj1 (@blank_search_is_cancel strings.asciiTables blankSearch None
                  todoMineLogin eq_refl)).
Defined.

(** X11 on a view step. *)
Lemma only_fetches_replace_allIssues_witness :
  fetches app.NextView = false
  /\ exists u', @app.call strings.asciiTables app.NextView started = Some (None, u')
                /\ ui.allIssues u' = ui.allIssues started.
Proof.
  split; [reflexivity|].
  exists (dashboard' sorted4 [i4] 1 false "u1" "" roster (-1)).
  split; [reflexivity|].
  exact (proj1 (@only_fetches_replace_allIssues strings.asciiTables app.NextView
                  started None _ eq_refl eq_refl)).
Defined.

(** X12: a refresh of a dashboard and of the same dashboard with other
    lists. *)
Lemma refresh_forgets_previous_lists_witness :
  ui.client started = Some key
  /\ @ui.refreshIssues strings.asciiTables (up all6)
       (ui.set_selectedIssue 0 (ui.set_issues [] (ui.set_allIssues [i2] started)))
     = @ui.refreshIssues strings.asciiTables (up all6) started.
Proof.
  split; [reflexivity|].
  exact (@refresh_forgets_previous_lists strings.asciiTables (up all6) started
           key [i2] [] 0 eq_refl).
Defined.

(** X13 right after start. *)
Lemma refresh_is_idempotent_witness :
  ui.NewUI (up all4) (Some key) = Some started
  /\ @ui.refreshIssues strings.asciiTables (up all4) started
     = Some (None, started).
Proof.
  split; [reflexivity|].
  exact (proj2 (@refresh_is_idempotent strings.asciiTables (up all4) started)
               (Some key) eq_refl).
Defined.

(** X14: from the first team of three to the second. *)
Lemma team_step_shows_that_team_witness :
  ValidView started /\ ValidTeam started /\ ui.client started = Some key
  /\ exists team u',
      @ui.nextTeam strings.asciiTables (up all6) started = Some (None, u')
      /\ ui.currentTeam u' = 1
      /\ api.Team.ID team = "t2"
      /\ ui.allIssues u' = sorted6.
Proof.
  assert (Hvalid : ValidView started) by (split; [reflexivity | simpl; lia]).
  assert (Hteam : ValidTeam started)
    by (unfold ValidTeam, MaxInt, len; simpl; lia).
  split; [exact Hvalid|]. split; [exact Hteam|]. split; [reflexivity|].
  destruct (@team_step_shows_that_team strings.asciiTables (up all6) started key
              Hvalid Hteam eq_refl true)
    as (team & u' & Hrun & Hct & Hidx & Hall & _).
  exists team, u'. split; [exact Hrun|]. split; [exact Hct|].
  assert (Hteam2 : team = Sample.team "t2" "Design" "DES")
    by (injection Hidx as <-; reflexivity).
  split; [rewrite Hteam2; reflexivity|].
  rewrite Hall, Hteam2. reflexivity.
Defined.

(** X15 on a system that has only xclip. *)
Lemma copyToClipboard_first_found_witness :
  exec.LookPath withXclip "xclip" = None
  /\ ui.copyToClipboard withXclip "eng-1" started = Some (None, started).
Proof.
  split; [reflexivity|].
  destruct (copyToClipboard_first_found withXclip "eng-1" started)
    as (cmd & _ & _ & _ & _ & Hnil & _).
  apply Hnil. repeat split.
Defined.

(** X16 with the second issue selected, and with none. *)
Lemma copy_only_when_something_to_copy_witness :
  index (ui.issues started) (ui.selectedIssue started) = None
  /\ ui.copyURL noClipboard started = Some (None, started)
  /\ index (ui.issues plain) (ui.selectedIssue plain) = Some i2
  /\ ui.copyURL noClipboard plain
     = ui.copyToClipboard noClipboard "https://linear.app/issue/ENG-2" plain.
Proof.
  split; [reflexivity|]. split.
  - apply (proj1 (copy_only_when_something_to_copy noClipboard started)).
    reflexivity.
  - split; [reflexivity|].
    destruct (proj1 (proj2 (copy_only_when_something_to_copy noClipboard plain))
                i2 eq_refl) as (_ & Hurl & _).
    apply Hurl. discriminate.
Defined.
End MoreExamples.
